(** * Retrieval pipeline of the portfolio chatbot

    A shallow embedding of the two TypeScript classes that make up the
    retrieval pipeline:

    - [DocumentProcessor] (src/lib/rag/document-processor.ts): text cleaning,
      sentence splitting, chunking with overlap, markdown sectioning, the
      walk of a directory and the documents of structured data;
    - [RAGService] (the query service): vector search with its fallback,
      the keyword-driven fallback context, prompt assembly, [query] and
      the ingestion of documents into the vector store.

    Strings are Stdlib strings: a character is one code unit of the ASCII
    range, [toLowerCase] maps A-Z to a-z, and the whitespace class of
    [\s] and [trim] is tab, line feed, vertical tab, form feed, carriage
    return and space.  Numbers that configure the chunker are integers
    ([Z]). *)

From Stdlib Require Import ZArith List Bool Ascii String Lia DecimalString.
From Stdlib Require DecimalPos DecimalZ.
Import ListNotations.

Open Scope string_scope.

(* ================================================================== *)
(** ** JavaScript string and array primitives used by the sources     *)
(* ================================================================== *)

Module JS.

Definition LF : ascii := ascii_of_nat 10.

(** The class [\s], also the set stripped by [String.prototype.trim]. *)
Definition isSpace (c : ascii) : bool :=
  let n := nat_of_ascii c in
  ((9 <=? n)%nat && (n <=? 13)%nat) || (n =? 32)%nat.

Definition isUpper (c : ascii) : bool :=
  let n := nat_of_ascii c in (65 <=? n)%nat && (n <=? 90)%nat.

(** The class [[a-z0-9]]. *)
Definition isLowerAlnum (c : ascii) : bool :=
  let n := nat_of_ascii c in
  ((97 <=? n)%nat && (n <=? 122)%nat) || ((48 <=? n)%nat && (n <=? 57)%nat).

(** Letters and digits of either case. *)
Definition isAlnum (c : ascii) : bool := isUpper c || isLowerAlnum c.

Definition lowerChar (c : ascii) : ascii :=
  if isUpper c then ascii_of_nat (nat_of_ascii c + 32) else c.

Fixpoint mapChars (f : ascii -> ascii) (s : string) : string :=
  match s with
  | EmptyString => EmptyString
  | String c r => String (f c) (mapChars f r)
  end.

Fixpoint filterChars (p : ascii -> bool) (s : string) : string :=
  match s with
  | EmptyString => EmptyString
  | String c r => if p c then String c (filterChars p r) else filterChars p r
  end.

Fixpoint allChars (p : ascii -> bool) (s : string) : bool :=
  match s with
  | EmptyString => true
  | String c r => p c && allChars p r
  end.

(** [s.toLowerCase()] *)
Definition toLowerCase (s : string) : string := mapChars lowerChar s.

(** [s.replace(/[^a-z0-9]/g, '')] *)
Definition stripNonAlnum (s : string) : string := filterChars isLowerAlnum s.

(** [s.includes(sub)] *)
Fixpoint includes (s sub : string) : bool :=
  String.prefix sub s ||
  match s with
  | EmptyString => false
  | String _ r => includes r sub
  end.

Fixpoint trimStart (s : string) : string :=
  match s with
  | EmptyString => EmptyString
  | String c r => if isSpace c then trimStart r else s
  end.

Fixpoint trimEnd (s : string) : string :=
  match s with
  | EmptyString => EmptyString
  | String c r =>
      match trimEnd r with
      | EmptyString => if isSpace c then EmptyString else String c EmptyString
      | r' => String c r'
      end
  end.

(** [s.trim()] *)
Definition trim (s : string) : string := trimEnd (trimStart s).

(** [s.split(sep)] for a one-character separator; [''.split(sep)] is
    [['']]. *)
Fixpoint split (sep : ascii) (s : string) : list string :=
  match s with
  | EmptyString => [EmptyString]
  | String c r =>
      if Ascii.eqb c sep then EmptyString :: split sep r
      else match split sep r with
           | w :: ws => String c w :: ws
           | [] => [String c EmptyString]
           end
  end.

(** [l.join(sep)] *)
Definition join (sep : string) (l : list string) : string :=
  String.concat sep l.

(** [l.slice(start)]: a negative [start] counts from the end, and
    [-0] is [0]. *)
Definition sliceFrom {A : Type} (start : Z) (l : list A) : list A :=
  let len := Z.of_nat (List.length l) in
  let k := if (start <? 0)%Z then Z.max (len + start) 0 else Z.min start len in
  skipn (Z.to_nat k) l.

(** [l.slice(0, n)] for a natural [n]. *)
Definition sliceTo {A : Type} (n : nat) (l : list A) : list A := firstn n l.

(** [l.slice(-n)] for a positive literal [n]. *)
Definition sliceLast {A : Type} (n : nat) (l : list A) : list A :=
  skipn (List.length l - n) l.

(** [l.map((x, i) => f x i)] *)
Fixpoint mapiFrom {A B : Type} (i : nat) (f : A -> nat -> B) (l : list A)
  : list B :=
  match l with
  | [] => []
  | x :: r => f x i :: mapiFrom (S i) f r
  end.

Definition mapi {A B : Type} (f : A -> nat -> B) (l : list A) : list B :=
  mapiFrom 0 f l.

(** [acc.push(x)] *)
Definition push {A : Type} (acc : list A) (x : A) : list A :=
  (acc ++ [x])%list.

(** [l.forEach(x => acc.push(f x))] on an accumulator array. *)
Definition pushEach {A B : Type} (f : A -> B) (l : list A) (acc : list B)
  : list B :=
  fold_left (fun a x => push a (f x)) l acc.

(** Template rendering of a possibly missing string ([undefined]). *)
Definition render (o : option string) : string :=
  match o with
  | Some s => s
  | None => "undefined"
  end.

(** Template rendering of an integer-valued number (below 10^21, where
    JavaScript prints every digit). *)
Definition renderNumber (z : Z) : string :=
  NilZero.string_of_int (Z.to_int z).

End JS.

(* ================================================================== *)
(** ** DocumentProcessor                                              *)
(* ================================================================== *)

Module DocumentProcessor.
Import JS.

Record Metadata := {
  source : string;
  type : string;
  chunkIndex : option Z;
  totalChunks : option Z
}.

Record ProcessedDocument := {
  text : string;
  metadata : Metadata
}.

(** The two fields set by the constructor (defaults 1000 and 200). *)
Record Processor := {
  chunkSize : Z;
  chunkOverlap : Z
}.

Definition defaultProcessor : Processor :=
  {| chunkSize := 1000; chunkOverlap := 200 |}.

(** [replace(/\n{3,}/g, '\n\n')]: [run] counts the line feeds read and
    not yet written; a run of three or more is written as two, a shorter
    run as it is. *)
Definition flushNewlines (run : nat) : string :=
  if (2 <=? run)%nat then String LF (String LF EmptyString)
  else if (1 <=? run)%nat then String LF EmptyString
  else EmptyString.

Fixpoint collapseNewlinesFrom (run : nat) (s : string) : string :=
  match s with
  | EmptyString => flushNewlines run
  | String c r =>
      if Ascii.eqb c LF then collapseNewlinesFrom (S run) r
      else flushNewlines run ++ String c (collapseNewlinesFrom 0 r)
  end.

Definition collapseNewlines (s : string) : string := collapseNewlinesFrom 0 s.

(** [replace(/\s+/g, ' ')]: [inRun] tells that the previous character
    was whitespace, already replaced. *)
Fixpoint collapseSpacesFrom (inRun : bool) (s : string) : string :=
  match s with
  | EmptyString => EmptyString
  | String c r =>
      if isSpace c then
        if inRun then collapseSpacesFrom true r
        else String " " (collapseSpacesFrom true r)
      else String c (collapseSpacesFrom false r)
  end.

Definition collapseSpaces (s : string) : string := collapseSpacesFrom false s.

Definition cleanText (s : string) : string :=
  trim (collapseSpaces (collapseNewlines s)).

(** The class [[.!?]]. *)
Definition isTerminator (c : ascii) : bool :=
  Ascii.eqb c "." || Ascii.eqb c "!" || Ascii.eqb c "?".

(** [s.match(/[^.!?]+[.!?]+/g)] as a scanner.  A match starts at the
    first character that is not a terminator, runs over the following
    terminators and is emitted when they end; terminators before a match
    are skipped, and a last run with no terminator is no match. *)
Inductive Phase := AtStart | InBody | InTerminators.

Fixpoint scanSentences (ph : Phase) (acc : string) (s : string)
  : list string :=
  match s with
  | EmptyString =>
      match ph with
      | InTerminators => [acc]
      | _ => []
      end
  | String c r =>
      let one := String c EmptyString in
      if isTerminator c then
        match ph with
        | AtStart => scanSentences AtStart EmptyString r
        | _ => scanSentences InTerminators (acc ++ one) r
        end
      else
        match ph with
        | InTerminators => acc :: scanSentences InBody one r
        | _ => scanSentences InBody (acc ++ one) r
        end
  end.

Definition matchSentences (s : string) : option (list string) :=
  match scanSentences AtStart EmptyString s with
  | [] => None
  | l => Some l
  end.

(** [cleanedText.match(...) || [cleanedText]] *)
Definition sentencesOf (cleanedText : string) : list string :=
  match matchSentences cleanedText with
  | Some l => l
  | None => [cleanedText]
  end.

(** [words.slice(-Math.floor(this.chunkOverlap / 5))] *)
Definition overlapWords (p : Processor) (currentChunk : string)
  : list string :=
  let words := split " " currentChunk in
  sliceFrom (- (chunkOverlap p / 5)) words.

(** One iteration of the loop of [chunkText] on the pair
    ([chunks], [currentChunk]). *)
Definition chunkStep (p : Processor) (st : list string * string)
    (sentence : string) : list string * string :=
  let (chunks, currentChunk) := st in
  if (Z.of_nat (String.length (currentChunk ++ sentence)) >? chunkSize p)%Z
     && (0 <? String.length currentChunk)%nat
  then (push chunks (trim currentChunk),
        join " " (overlapWords p currentChunk) ++ " " ++ sentence)
  else (chunks, currentChunk ++ sentence).

Definition chunkLoop (p : Processor) (sentences : list string)
    (st : list string * string) : list string * string :=
  fold_left (chunkStep p) sentences st.

(** The statement that follows the loop, here and in
    [splitByMarkdownHeaders]: the buffer is pushed, trimmed, unless it is
    blank. *)
Definition flushBuffer (st : list string * string) : list string :=
  let (chunks, currentChunk) := st in
  if (0 <? String.length (trim currentChunk))%nat
  then push chunks (trim currentChunk)
  else chunks.

Definition chunkText (p : Processor) (text : string) : list string :=
  let cleanedText := cleanText text in
  let sentences := sentencesOf cleanedText in
  flushBuffer (chunkLoop p sentences ([], EmptyString)).

(** [line.match(/^#{1,6}\s/)]: one to six [#], then a whitespace. *)
Fixpoint countHashes (s : string) : nat * string :=
  match s with
  | String c r =>
      if Ascii.eqb c "#" then let (n, rest) := countHashes r in (S n, rest)
      else (0, s)
  | EmptyString => (0, s)
  end.

Definition isHeader (line : string) : bool :=
  let (n, rest) := countHashes line in
  (1 <=? n)%nat && (n <=? 6)%nat &&
  match rest with
  | String c _ => isSpace c
  | EmptyString => false
  end.

Definition LFs : string := String LF EmptyString.

Definition sectionStep (st : list string * string) (line : string)
  : list string * string :=
  let (sections, currentSection) := st in
  if isHeader line then
    ((if (0 <? String.length (trim currentSection))%nat
      then push sections (trim currentSection) else sections),
     line ++ LFs)
  else (sections, currentSection ++ line ++ LFs).

Definition splitByMarkdownHeaders (content : string) : list string :=
  let lines := split LF content in
  flushBuffer (fold_left sectionStep lines ([], EmptyString)).

Definition mkDoc (kind fileName : string) (total : Z)
    (chunk : string) (index : nat) : ProcessedDocument :=
  {| text := chunk;
     metadata := {| source := fileName; type := kind;
                    chunkIndex := Some (Z.of_nat index);
                    totalChunks := Some total |} |}.

(** [processTextFile], after the file has been read: [content] is what
    [readFileSync] returned and [fileName] is the base name. *)
Definition processTextFile (p : Processor) (fileName content : string)
  : list ProcessedDocument :=
  let chunks := chunkText p content in
  mapi (mkDoc "text" fileName (Z.of_nat (List.length chunks))) chunks.

(** [processMarkdown], after the file has been read. *)
Definition processMarkdown (p : Processor) (fileName content : string)
  : list ProcessedDocument :=
  let sections := splitByMarkdownHeaders content in
  List.concat
    (mapi
       (fun section index =>
          let chunks :=
            if (Z.of_nat (String.length section) >? chunkSize p)%Z
            then chunkText p section
            else [section] in
          mapi
            (fun chunk chunkIdx =>
               {| text := chunk;
                  metadata :=
                    {| source := fileName; type := "markdown";
                       chunkIndex :=
                         Some (Z.of_nat index * Z.of_nat (List.length chunks)
                               + Z.of_nat chunkIdx)%Z;
                       totalChunks :=
                         Some (Z.of_nat (List.length sections)
                               * Z.of_nat (List.length chunks))%Z |} |})
            chunks)
       sections).

Definition chunkIndices (docs : list ProcessedDocument) : list (option Z) :=
  map (fun d => chunkIndex (metadata d)) docs.

Definition totals (docs : list ProcessedDocument) : list (option Z) :=
  map (fun d => totalChunks (metadata d)) docs.

End DocumentProcessor.

(* ================================================================== *)
(** ** RAGService                                                     *)
(* ================================================================== *)

Module RAGService.
Import JS.

(** *** The content records, with the fields the service reads *)

Record AppItem := {
  title : string;
  shortDescription : string;
  tech : list string;
  myContribution : option string
}.

(** [courses] is optional in the type, as [courses?: string[]]. *)
Record EducationItem := {
  institution : string;
  program : string;
  degreeLevel : string;
  eduPeriod : string;
  courses : option (list string)
}.

Record ExperienceItem := {
  company : string;
  role : string;
  period : string;
  tags : option (list string);
  responsibilities : option (list string);
  impact : option (list (string * Z));
  stack : option (list string)
}.

Record Contact := {
  email : string;
  github : string;
  linkedin : string;
  phone : option string
}.

(** [skills] is a [Record<string, string[]>]: its entries in the order
    [Object.entries] lists them. *)
Record AboutData := {
  bio : string;
  skills : list (string * list string);
  contact : Contact
}.

Record ContentData := {
  apps : list AppItem;
  education : list EducationItem;
  experience : list ExperienceItem;
  about : AboutData
}.

Inductive Role := User | Assistant.

Record Message := {
  msgRole : Role;
  content : string
}.

(** *** Thrown values and outcomes *)

(** A thrown value whose [message] is a string: whether it is an
    [Error], and the message. *)
Record Failure := {
  isError : bool;
  message : string
}.

(** The [message] of a thrown value when it is no string: missing, as
    [undefined] or [null], or another value, truthy or not, that has no
    [includes] method. *)
Inductive OddMessage :=
| MessageUndefined
| MessageNull
| MessageOther (isTruthy : bool).

(** What a call may throw or a promise be rejected with: a value with a
    string as message, [null], [undefined], or a value whose message is
    no string ([instanceOfError] telling whether it is an [Error]; a
    thrown primitive is no [Error] and has no message). *)
Inductive Exn :=
| Raised (f : Failure)
| RaisedNull
| RaisedUndefined
| RaisedOdd (instanceOfError : bool) (m : OddMessage).

Coercion Raised : Failure >-> Exn.

Inductive Outcome (A : Type) :=
| Returns (a : A)
| Throws (e : Exn).
Arguments Returns {A} a.
Arguments Throws {A} e.

Definition bindOutcome {A B : Type} (o : Outcome A) (k : A -> Outcome B)
  : Outcome B :=
  match o with
  | Returns a => k a
  | Throws e => Throws e
  end.

Definition typeError (msg : string) : Exn :=
  {| isError := true; message := msg |}.

(** The [TypeError] of [undefined.join(...)]. *)
Definition joinOfUndefined : Exn :=
  typeError "Cannot read properties of undefined (reading 'join')".

(** [list.join(sep)] on a list that may be missing. *)
Definition joinField (sep : string) (o : option (list string))
  : Outcome string :=
  match o with
  | Some l => Returns (join sep l)
  | None => Throws joinOfUndefined
  end.

(** *** The fallback context selector *)

Section Fallback.
Variable contentData : ContentData.

Definition skillsText : string :=
  join ". "
    (map (fun e : string * list string =>
            fst e ++ ": " ++ join ", " (snd e))
         (skills (about contentData))).

(** The test of the first [forEach]: the normalised query and company
    name contain one another. *)
Definition companyMatch (queryLower : string) (exp : ExperienceItem)
  : bool :=
  let companyLower := stripNonAlnum (toLowerCase (company exp)) in
  let queryNormalized := stripNonAlnum queryLower in
  includes queryNormalized companyLower
  || includes companyLower queryNormalized.

Definition companyMatches (queryLower : string) : list string :=
  fold_left
    (fun acc exp =>
       if companyMatch queryLower exp then push acc (company exp)
       else acc)
    (experience contentData) [].

Definition wantsExperience (queryLower : string) : bool :=
  includes queryLower "experience" || includes queryLower "work"
  || includes queryLower "job" || includes queryLower "role"
  || includes queryLower "position"
  || (0 <? List.length (companyMatches queryLower))%nat
  || includes queryLower "summarize"
  || includes queryLower "tell me about".

Definition wantsProjects (queryLower : string) : bool :=
  includes queryLower "project" || includes queryLower "built"
  || includes queryLower "app".

Definition wantsEducation (queryLower : string) : bool :=
  includes queryLower "education" || includes queryLower "degree"
  || includes queryLower "university".

Definition experienceLine (exp : ExperienceItem) : string :=
  let impactText :=
    match impact exp with
    | Some kvs =>
        " Impact: " ++
        join ", " (map (fun kv : string * Z =>
                          fst kv ++ ": " ++ renderNumber (snd kv)) kvs)
    | None => ""
    end in
  let tagsText :=
    match tags exp with
    | Some ts => " Tags: " ++ join ", " ts
    | None => ""
    end in
  let responsibilitiesText :=
    match responsibilities exp with
    | Some rs => join " " rs
    | None => ""
    end in
  let stackText :=
    match stack exp with
    | Some st => join ", " st
    | None => ""
    end in
  role exp ++ " at " ++ company exp ++ " (" ++ period exp ++ ")"
  ++ tagsText ++ ". " ++ responsibilitiesText ++ " Tech Stack: "
  ++ stackText ++ "." ++ impactText.

Definition projectLine (app : AppItem) : string :=
  "Project: " ++ title app ++ " - " ++ shortDescription app
  ++ ". Tech: " ++ join ", " (tech app) ++ ". "
  ++ render (myContribution app).

(** [edu.courses.join(', ')] has no guard: an entry without courses
    makes the template throw. *)
Definition educationLine (edu : EducationItem) : Outcome string :=
  bindOutcome (joinField ", " (courses edu)) (fun coursesText =>
  Returns
    ("Education: " ++ degreeLevel edu ++ " in " ++ program edu ++ " from "
     ++ institution edu ++ " (" ++ eduPeriod edu ++ "). Courses: "
     ++ coursesText ++ ".")).

(** [items.forEach(item => contexts.push(line(item)))] where building
    the line of an item may throw: the first throw ends the loop. *)
Fixpoint pushEachOutcome {A : Type} (line : A -> Outcome string)
    (items : list A) (contexts : list string) : Outcome (list string) :=
  match items with
  | [] => Returns contexts
  | item :: rest =>
      bindOutcome (line item) (fun s =>
      pushEachOutcome line rest (push contexts s))
  end.

(** The array [contexts] after the about, contact, links and skills
    strings and the experience block (lines 106 to 144). *)
Definition contextsAfterExperience (query : string) : list string :=
  let contexts : list string := [] in
  let queryLower := toLowerCase query in
  let c := contact (about contentData) in
  let contexts :=
    push contexts ("About Harishraj: " ++ bio (about contentData)) in
  let contexts :=
    push contexts ("Contact: Email: " ++ email c ++ ", Phone: "
                   ++ render (phone c)) in
  let contexts :=
    push contexts ("LinkedIn: " ++ linkedin c ++ ", GitHub: "
                   ++ github c) in
  let contexts := push contexts ("Skills: " ++ skillsText) in
  let contexts :=
    if wantsExperience queryLower
    then pushEach experienceLine (experience contentData) contexts
    else contexts in
  contexts.

(** The array [contexts] as it stands before the final [slice], when
    the education block has not thrown. *)
Definition assembledContexts (query : string) : Outcome (list string) :=
  let queryLower := toLowerCase query in
  let contexts := contextsAfterExperience query in
  let contexts :=
    if wantsProjects queryLower
    then pushEach projectLine (apps contentData) contexts
    else contexts in
  if wantsEducation queryLower
  then pushEachOutcome educationLine (education contentData) contexts
  else Returns contexts.

Definition getFallbackContext (query : string) : Outcome (list string) :=
  bindOutcome (assembledContexts query) (fun contexts =>
  Returns (sliceTo 10 contexts)).

End Fallback.

(** *** Prompt assembly *)

Definition nl : string := String LF EmptyString.
Definition dquote : string := String (ascii_of_nat 34) EmptyString.

Definition roleLabel (r : Role) : string :=
  match r with
  | User => "User"
  | Assistant => "Assistant"
  end.

Definition buildPrompt (query : string) (contexts : list string)
    (conversationHistory : list Message) : string :=
  let contextText := join (nl ++ nl) contexts in
  let historyText :=
    if (0 <? List.length conversationHistory)%nat then
      let recentHistory := sliceLast 6 conversationHistory in
      join nl (map (fun msg => roleLabel (msgRole msg) ++ ": " ++ content msg)
                   recentHistory)
    else "" in
  "You are an AI assistant that represents Harishraj Udaya Bhaskar, an AI Software Engineer. Your role is to help recruiters and visitors learn about his background, skills, and experience."
  ++ nl ++ nl
  ++ "IMPORTANT GUIDELINES:" ++ nl
  ++ "- Be conversational, friendly, and professional" ++ nl
  ++ "- Answer only based on the provided context" ++ nl
  ++ "- If you don't have information, politely say so and suggest they contact him directly" ++ nl
  ++ "- Keep responses concise (2-3 paragraphs max) unless asked for details" ++ nl
  ++ "- Use first-person perspective when discussing Harishraj (e.g., "
  ++ dquote ++ "I have experience in..." ++ dquote ++ ")" ++ nl
  ++ "- Highlight his AI/ML expertise, recent projects, and impact metrics" ++ nl
  ++ "- Be enthusiastic about his work but remain humble" ++ nl
  ++ nl
  ++ "CONTEXT ABOUT HARISHRAJ:" ++ nl
  ++ contextText ++ nl
  ++ nl
  ++ (if (0 <? String.length historyText)%nat
      then "CONVERSATION HISTORY:" ++ nl ++ historyText ++ nl
      else "") ++ nl
  ++ "USER QUESTION: " ++ query ++ nl
  ++ nl
  ++ "Please provide a helpful, accurate response based on the context above:".

(** *** External services and the state of the service *)

(** A match of the index: [metadata] may be missing, and so may its
    [text]. *)
Record MatchMetadata := {
  mtext : option string
}.

Record ScoredMatch := {
  matchMetadata : option MatchMetadata
}.

(** A request to a backend, as recorded in the history of calls.  The
    constant parts of a request ([includeMetadata: true],
    [temperature: 0.7]) are not recorded. *)
Inductive Call (Vector : Type) :=
| EmbeddingsCreate (model input : string)
| IndexQuery (indexName : string) (vector : Vector) (topK : Z)
| ChatCompletionsCreate (model systemContent userContent : string)
    (max_tokens : Z).
Arguments EmbeddingsCreate {Vector} model input.
Arguments IndexQuery {Vector} indexName vector topK.
Arguments ChatCompletionsCreate {Vector} model systemContent userContent
  max_tokens.

(** [process.env], the two variables the service reads when it answers. *)
Record Env := {
  OPENAI_API_KEY : option string;
  PINECONE_API_KEY : option string
}.

(** Truthiness of an environment variable: set and not empty. *)
Definition truthy (o : option string) : bool :=
  match o with
  | Some (String _ _) => true
  | _ => false
  end.

(** The fields of the instance: [pinecone] holds the key of the client
    when there is one. *)
Record Service := {
  pinecone : option string;
  indexName : string;
  isInitialized : bool
}.

Section Service.
(** Embedding vectors are numbers the service only passes on. *)
Variable Vector : Type.

(** What the external services answer to each request; the answers are
    arbitrary.  [embeddingsCreate] gives [response.data[0].embedding],
    [indexQuery] gives [searchResults.matches] and
    [chatCompletionsCreate] gives
    [completion.choices[0]?.message?.content]. *)
Record Backends := {
  newPinecone : string -> Outcome unit;
  embeddingsCreate : string -> string -> Outcome Vector;
  indexQuery : string -> Vector -> Z -> Outcome (option (list ScoredMatch));
  chatCompletionsCreate :
    string -> string -> string -> Z -> Outcome (option string)
}.

Record World := {
  service : Service;
  calls : list (Call Vector)
}.

Variable contentData : ContentData.
Variable env : Env.
Variable backends : Backends.

(** Computations of the service: state passing over [World], with
    exceptions. *)
Definition M (A : Type) : Type := World -> Outcome A * World.

Definition ret {A : Type} (a : A) : M A := fun w => (Returns a, w).

Definition bind {A B : Type} (m : M A) (k : A -> M B) : M B :=
  fun w =>
    match m w with
    | (Returns a, w') => k a w'
    | (Throws e, w') => (Throws e, w')
    end.

Definition throw {A : Type} (e : Exn) : M A := fun w => (Throws e, w).

Definition tryCatch {A : Type} (m : M A) (handler : Exn -> M A) : M A :=
  fun w =>
    match m w with
    | (Returns a, w') => (Returns a, w')
    | (Throws e, w') => handler e w'
    end.

Definition getService : M Service := fun w => (Returns (service w), w).

Definition setService (s : Service) : M unit :=
  fun w => (Returns tt, {| service := s; calls := calls w |}).

(** A call to a backend: the request is appended to the history and the
    backend's answer is the outcome. *)
Definition callBackend {A : Type} (c : Call Vector) (answer : Outcome A)
  : M A :=
  fun w =>
    (answer, {| service := service w; calls := push (calls w) c |}).

Definition liftOutcome {A : Type} (o : Outcome A) : M A := fun w => (o, w).

Notation "x <- m ;; k" := (bind m (fun x => k))
  (at level 61, m at next level, right associativity).
Notation "m ;;; k" := (bind m (fun _ => k))
  (at level 61, right associativity).

Definition initialize : M unit :=
  s <- getService ;;
  if isInitialized s then ret tt
  else
    tryCatch
      (if truthy (PINECONE_API_KEY env) then
         let key := render (PINECONE_API_KEY env) in
         liftOutcome (newPinecone backends key) ;;;
         setService {| pinecone := Some key; indexName := indexName s;
                       isInitialized := true |}
       else
         setService {| pinecone := pinecone s; indexName := indexName s;
                       isInitialized := true |})
      (fun _ =>
         s' <- getService ;;
         setService {| pinecone := pinecone s'; indexName := indexName s';
                       isInitialized := true |}).

Definition createEmbedding (text : string) : M Vector :=
  tryCatch
    (callBackend (EmbeddingsCreate "text-embedding-3-small" text)
       (embeddingsCreate backends "text-embedding-3-small" text))
    (fun _ =>
       throw {| isError := true; message := "Failed to create embedding" |}).

(** [match.metadata && match.metadata.text] *)
Definition hasText (m : ScoredMatch) : bool :=
  match matchMetadata m with
  | Some md => truthy (mtext md)
  | None => false
  end.

(** [match.metadata!.text as string] *)
Definition textOf (m : ScoredMatch) : string :=
  match matchMetadata m with
  | Some md => render (mtext md)
  | None => "undefined"
  end.

(** [matches?.filter(...).map(...) || []] *)
Definition matchTexts (matches : option (list ScoredMatch)) : list string :=
  match matches with
  | Some ms => map textOf (filter hasText ms)
  | None => []
  end.

(** The test of the [catch] block of the search,
    [error.message && error.message.includes('404')].  Its value only
    chooses what is logged; evaluating it throws a [TypeError] when the
    value caught is [null] or [undefined], or when its message is truthy
    and has no [includes]. *)
Definition readsMessage404 (error : Exn) : Outcome bool :=
  match error with
  | Raised f =>
      Returns ((0 <? String.length (message f))%nat
               && includes (message f) "404")
  | RaisedNull =>
      Throws (typeError "Cannot read properties of null (reading 'message')")
  | RaisedUndefined =>
      Throws
        (typeError "Cannot read properties of undefined (reading 'message')")
  | RaisedOdd _ (MessageOther true) =>
      Throws (typeError "error.message.includes is not a function")
  | RaisedOdd _ _ => Returns false
  end.

Definition searchVectorStore (query : string) (topK : Z)
  : M (list string) :=
  s <- getService ;;
  match pinecone s with
  | None => liftOutcome (getFallbackContext contentData query)
  | Some _ =>
      tryCatch
        (queryEmbedding <- createEmbedding query ;;
         matches <- callBackend (IndexQuery (indexName s) queryEmbedding topK)
                      (indexQuery backends (indexName s) queryEmbedding topK) ;;
         ret (matchTexts matches))
        (fun error =>
           liftOutcome (readsMessage404 error) ;;;
           liftOutcome (getFallbackContext contentData query))
  end.

Definition notConfigured : string :=
  "I'm currently not configured properly. Please set up the OpenAI API key to enable the chatbot. In the meantime, feel free to explore the portfolio or reach out directly at uharishraj@gmail.com!".

Definition troubleConnecting : string :=
  "I'm having trouble connecting to my AI backend. Please make sure the API keys are configured correctly. You can still reach out directly at uharishraj@gmail.com!".

Definition systemMessage : string :=
  "You are a helpful AI assistant representing Harishraj Udaya Bhaskar.".

(** The test of the [catch] block of [query],
    [error instanceof Error && error.message.includes('API key')]:
    evaluating it throws a [TypeError] when the value caught is an
    [Error] whose message is no string. *)
Definition mentionsApiKey (error : Exn) : Outcome bool :=
  match error with
  | Raised f => Returns (isError f && includes (message f) "API key")
  | RaisedNull | RaisedUndefined => Returns false
  | RaisedOdd false _ => Returns false
  | RaisedOdd true MessageUndefined =>
      Throws
        (typeError "Cannot read properties of undefined (reading 'includes')")
  | RaisedOdd true MessageNull =>
      Throws (typeError "Cannot read properties of null (reading 'includes')")
  | RaisedOdd true (MessageOther _) =>
      Throws (typeError "error.message.includes is not a function")
  end.

Definition query (userQuery : string) (conversationHistory : list Message)
  : M string :=
  initialize ;;;
  tryCatch
    (if negb (truthy (OPENAI_API_KEY env)) then ret notConfigured
     else
       contexts <- searchVectorStore userQuery 5 ;;
       let prompt := buildPrompt userQuery contexts conversationHistory in
       completion <-
         callBackend
           (ChatCompletionsCreate "gpt-4o-mini" systemMessage prompt 500)
           (chatCompletionsCreate backends "gpt-4o-mini" systemMessage
              prompt 500) ;;
       ret (if truthy completion then render completion
            else "Sorry, I could not generate a response."))
    (fun error =>
       mentions <- liftOutcome (mentionsApiKey error) ;;
       if mentions then ret troubleConnecting else throw error).

End Service.

Arguments service {Vector} w.
Arguments calls {Vector} w.
Arguments Build_World {Vector} service calls.
Arguments newPinecone {Vector} b key.
Arguments embeddingsCreate {Vector} b model input.
Arguments indexQuery {Vector} b indexName vector topK.
Arguments chatCompletionsCreate {Vector} b model systemContent userContent
  max_tokens.

End RAGService.

(* ================================================================== *)
(** ** Vocabulary of the properties                                   *)
(* ================================================================== *)

Module Views.
Import JS DocumentProcessor RAGService.

(** The strings pushed before any test of the query. *)
Definition aboutLines (c : ContentData) : list string :=
  [ "About Harishraj: " ++ bio (about c);
    "Contact: Email: " ++ email (contact (about c)) ++ ", Phone: "
      ++ render (phone (contact (about c)));
    "LinkedIn: " ++ linkedin (contact (about c)) ++ ", GitHub: "
      ++ github (contact (about c));
    "Skills: " ++ skillsText c ].

Definition experienceLines (c : ContentData) (queryLower : string)
  : list string :=
  if wantsExperience c queryLower then map experienceLine (experience c)
  else [].

Definition projectLines (c : ContentData) (queryLower : string)
  : list string :=
  if wantsProjects queryLower then map projectLine (apps c) else [].

Definition hasCourses (edu : EducationItem) : bool :=
  match courses edu with
  | Some _ => true
  | None => false
  end.

(** The education strings of the entries that have their courses. *)
Definition educationLinesOf (edus : list EducationItem) : list string :=
  flat_map (fun edu =>
              match educationLine edu with
              | Returns s => [s]
              | Throws _ => []
              end) edus.

Definition educationLines (c : ContentData) (queryLower : string)
  : list string :=
  if wantsEducation queryLower then educationLinesOf (education c) else [].

(** The selector throws: the query asks for the education strings and
    an entry has no courses. *)
Definition fallbackFails (c : ContentData) (query : string) : bool :=
  wantsEducation (toLowerCase query)
  && negb (forallb hasCourses (education c)).

(** The [catch] block of the search can test the message of the value
    it caught. *)
Definition messageReadable (e : Exn) : bool :=
  match readsMessage404 e with
  | Returns _ => true
  | Throws _ => false
  end.

(** The keyword half of the test for experience entries. *)
Definition experienceKeyword (queryLower : string) : bool :=
  includes queryLower "experience" || includes queryLower "work"
  || includes queryLower "job" || includes queryLower "role"
  || includes queryLower "position" || includes queryLower "summarize"
  || includes queryLower "tell me about".

(** Either string occurs inside the other. *)
Definition containOneAnother (a b : string) : Prop :=
  (exists x y, a = x ++ b ++ y) \/ (exists x y, b = x ++ a ++ y).

Section Search.
Variable Vector : Type.
Variable backends : Backends Vector.

Definition embeddingModel : string := "text-embedding-3-small".

(** The search cannot use the index: there is no client, or the
    embedding call or the index call throws. *)
Definition searchDegraded (q : string) (topK : Z) (w : World Vector) : Prop :=
  pinecone (service w) = None
  \/ (exists e, embeddingsCreate backends embeddingModel q = Throws e)
  \/ (exists v e,
        embeddingsCreate backends embeddingModel q = Returns v
        /\ indexQuery backends (indexName (service w)) v topK
           = Throws e).

(** The search goes through: the client exists and both calls return. *)
Definition searchSucceeds (q : string) (topK : Z) (w : World Vector)
    (ms : option (list ScoredMatch)) : Prop :=
  pinecone (service w) <> None
  /\ exists v,
       embeddingsCreate backends embeddingModel q = Returns v
       /\ indexQuery backends (indexName (service w)) v topK
          = Returns ms.

(** When the index call throws, it throws a value whose message the
    [catch] block can test. *)
Definition indexErrorReadable (q : string) (topK : Z) (w : World Vector)
  : Prop :=
  forall v e,
    embeddingsCreate backends embeddingModel q = Returns v ->
    indexQuery backends (indexName (service w)) v topK = Throws e ->
    messageReadable e = true.

Definition completionCall (q : string) (contexts : list string)
    (h : list Message) : Call Vector :=
  ChatCompletionsCreate "gpt-4o-mini" systemMessage
    (buildPrompt q contexts h) 500.

End Search.

(** A raw buffer either fits the chunk size or is made of one sentence
    unit, alone or after the overlap words and a space. *)
Definition fitsOrSingle (p : Processor) (sentences : list string)
    (raw : string) : Prop :=
  (Z.of_nat (String.length raw) <= chunkSize p)%Z
  \/ exists s, In s sentences
       /\ (raw = s
           \/ exists prev,
                raw = join " " (overlapWords p prev) ++ " " ++ s).

Definition loopInvariant (p : Processor) (sentences : list string)
    (st : list string * string) : Prop :=
  (forall c, In c (fst st) ->
     exists raw, c = trim raw /\ fitsOrSingle p sentences raw)
  /\ (snd st = EmptyString \/ fitsOrSingle p sentences (snd st)).

(** Neither whitespace nor a sentence terminator. *)
Definition isPlain (c : ascii) : bool := negb (isSpace c || isTerminator c).

(** The buffer [next] was opened with the overlap words of the closed
    buffer [raw], a space and a sentence unit; [rest] is what was
    appended since. *)
Definition seededFrom (p : Processor) (sentences : list string)
    (raw next : string) : Prop :=
  exists s rest, In s sentences
    /\ next = join " " (overlapWords p raw) ++ " " ++ s ++ rest.

(** Two chunks that follow one another: the buffer of the second was
    seeded from the buffer of the first. *)
Definition linked (p : Processor) (sentences : list string)
    (a b : string) : Prop :=
  exists raw next,
    a = trim raw /\ b = trim next /\ seededFrom p sentences raw next.

(** Neighbours in a list are related. *)
Inductive Chained {A : Type} (R : A -> A -> Prop) : list A -> Prop :=
| Chained_nil : Chained R []
| Chained_one (a : A) : Chained R [a]
| Chained_cons (a b : A) (l : list A) :
    R a b -> Chained R (b :: l) -> Chained R (a :: b :: l).

Definition chainInvariant (p : Processor) (sentences : list string)
    (st : list string * string) : Prop :=
  Chained (linked p sentences) (fst st)
  /\ (forall l a, fst st = (l ++ [a])%list ->
       exists raw, a = trim raw /\ seededFrom p sentences raw (snd st)).

End Views.

(* ================================================================== *)
(** ** Sample content                                                 *)
(* ================================================================== *)

Module Samples.
Import JS DocumentProcessor RAGService.

Definition job (name : string) : ExperienceItem :=
  {| company := name; role := "Engineer"; period := "2024";
     tags := None; responsibilities := None; impact := None;
     stack := None |}.

Definition sampleAbout : AboutData :=
  {| bio := "Builds AI systems.";
     skills := [("AI", ["RAG"; "LLM"]); ("Web", ["React"])];
     contact := {| email := "me@example.com"; github := "gh";
                   linkedin := "li"; phone := None |} |}.

(** One entry of each kind. *)
Definition smallContent : ContentData :=
  {| apps := [ {| title := "DevContext"; shortDescription := "Workspace";
                  tech := ["React"; "Vite"]; myContribution := None |} ];
     education := [ {| institution := "NEU"; program := "CS";
                       degreeLevel := "MS"; eduPeriod := "2023";
                       courses := Some ["ML"] |} ];
     experience := [ job "Acme Corp" ];
     about := sampleAbout |}.

(** Seven experience entries: with the four leading strings, one more
    than fits under the cap of ten. *)
Definition sevenJobs : ContentData :=
  {| apps := []; education := [];
     experience := map job ["Acme Corp"; "Globex"; "Initech"; "Umbrella";
                            "Hooli"; "Stark"; "Wayne"];
     about := sampleAbout |}.

Definition freshService : Service :=
  {| pinecone := None; indexName := "portfolio-chatbot";
     isInitialized := false |}.

Definition freshWorld : World unit :=
  {| service := freshService; calls := [] |}.

(** A service that has been initialised with a vector client. *)
Definition clientWorld : World unit :=
  {| service := {| pinecone := Some "pc-key"; indexName := "portfolio-chatbot";
                   isInitialized := true |};
     calls := [] |}.

Definition bothKeys : Env :=
  {| OPENAI_API_KEY := Some "sk-key"; PINECONE_API_KEY := Some "pc-key" |}.

Definition noKeys : Env :=
  {| OPENAI_API_KEY := None; PINECONE_API_KEY := None |}.

(** Services that answer every request; the index finds no match. *)
Definition emptyIndex : Backends unit :=
  {| newPinecone := fun _ => Returns tt;
     embeddingsCreate := fun _ _ => Returns tt;
     indexQuery := fun _ _ _ => Returns (Some []);
     chatCompletionsCreate := fun _ _ _ _ => Returns (Some "Hello!") |}.

(** Services whose embedding call fails. *)
Definition failingEmbedding : Backends unit :=
  {| newPinecone := fun _ => Returns tt;
     embeddingsCreate :=
       fun _ _ => Throws {| isError := true; message := "quota exceeded" |};
     indexQuery := fun _ _ _ => Returns (Some []);
     chatCompletionsCreate := fun _ _ _ _ => Returns (Some "Hello!") |}.

(** Content whose education entry has no courses. *)
Definition noCourses : ContentData :=
  {| apps := [];
     education := [ {| institution := "NEU"; program := "CS";
                       degreeLevel := "MS"; eduPeriod := "2023";
                       courses := None |} ];
     experience := [ job "Acme Corp" ];
     about := sampleAbout |}.

Definition languageKeyOnly : Env :=
  {| OPENAI_API_KEY := Some "sk-key"; PINECONE_API_KEY := None |}.

(** An index whose query is rejected with [null]. *)
Definition nullRejection : Backends unit :=
  {| newPinecone := fun _ => Returns tt;
     embeddingsCreate := fun _ _ => Returns tt;
     indexQuery := fun _ _ _ => Throws RaisedNull;
     chatCompletionsCreate := fun _ _ _ _ => Returns (Some "Hello!") |}.

Definition tiny : Processor := {| chunkSize := 30; chunkOverlap := 10 |}.

Definition twoSections : string :=
  "# Intro" ++ LFs ++ "One two three. Four five six. Seven eight nine."
  ++ LFs ++ "# End" ++ LFs ++ "Bye.".

Fixpoint repeatString (s : string) (n : nat) : string :=
  match n with
  | O => EmptyString
  | S m => s ++ repeatString s m
  end.

(** Two sections, the first of 1127 characters. *)
Definition longNotes : string :=
  "# Notes" ++ LFs ++ repeatString "Lorem ipsum dolor sit amet. " 40
  ++ LFs ++ "# End" ++ LFs ++ "Bye.".

Definition noOverlap : Processor := {| chunkSize := 10; chunkOverlap := 0 |}.

Definition oneWord : Processor := {| chunkSize := 10; chunkOverlap := 5 |}.

Definition longUnit : string := "Aaaaaaaaaaaaaaaaaaaaaaaaaaaaaa bb. Cc.".

Fixpoint repeatChar (c : ascii) (n : nat) : string :=
  match n with
  | O => EmptyString
  | S m => String c (repeatChar c m)
  end.

(** A word of [n + 10] letters. *)
Definition longWord (n : nat) : string := "Aaaaaaaaaa" ++ repeatChar "a" n.

(** A text of two sentence units, the first of [n + 14] characters. *)
Definition stretched (n : nat) : string := longWord n ++ " bb. Cc.".

End Samples.

(* ================================================================== *)
(** ** DocumentProcessor on a directory                               *)
(* ================================================================== *)

Module Directory.
Import JS DocumentProcessor RAGService.

(** A directory tree without links.  [File] carries what [readFileSync]
    gives for the file, its content or the error thrown; [Denied] is an
    entry for which [statSync] throws, or a subdirectory for which
    [readdirSync] does. *)
#[warnings="-register-all"]
Inductive Node :=
| File (content : Outcome string)
| Dir (entries : list (string * Node))
| Denied (e : Exn).

(** The suffix of a name from its last dot on, when it has a dot. *)
Fixpoint lastDotSuffix (s : string) : option string :=
  match s with
  | EmptyString => None
  | String c r =>
      match lastDotSuffix r with
      | Some ext => Some ext
      | None => if Ascii.eqb c "." then Some s else None
      end
  end.

(** [path.extname] on the name of a directory entry (a name without
    separator): the suffix from the last dot on; empty when there is no
    dot, when the only dot opens the name, and for [..]. *)
Definition extname (name : string) : string :=
  match name with
  | EmptyString => EmptyString
  | String _ r =>
      match lastDotSuffix r with
      | Some ext => if String.eqb name ".." then EmptyString else ext
      | None => EmptyString
      end
  end.

Section Processor.
Variable p : Processor.

(** [pdf(dataBuffer)], reduced to the [text] of its result. *)
Variable pdfParse : string -> Outcome string.

(** [processPDF], after the file has been read and parsed: [text] is
    [data.text]. *)
Definition processPDFText (fileName text : string)
  : list ProcessedDocument :=
  let chunks := chunkText p text in
  mapi (mkDoc "pdf" fileName (Z.of_nat (List.length chunks))) chunks.

Definition processPDF (fileName : string) (content : Outcome string)
  : Outcome (list ProcessedDocument) :=
  bindOutcome content (fun dataBuffer =>
  bindOutcome (pdfParse dataBuffer) (fun text =>
  Returns (processPDFText fileName text))).

(** The branch of [processDirectory] for an entry that is not a
    directory; [file] is the name of the entry, which is also the base
    name of its path. *)
Definition processEntryFile (file : string) (content : Outcome string)
  : Outcome (list ProcessedDocument) :=
  let ext := toLowerCase (extname file) in
  if String.eqb ext ".pdf" then processPDF file content
  else if String.eqb ext ".txt" then
    bindOutcome content (fun c => Returns (processTextFile p file c))
  else if String.eqb ext ".md" then
    bindOutcome content (fun c => Returns (processMarkdown p file c))
  else Returns [].

(** One entry of the loop of [processDirectory], and the loop. *)
Fixpoint processNode (file : string) (n : Node)
  : Outcome (list ProcessedDocument) :=
  match n with
  | Denied e => Throws e
  | File content => processEntryFile file content
  | Dir entries =>
      (fix loop (es : list (string * Node)) :=
         match es with
         | [] => Returns []
         | (name, node) :: rest =>
             bindOutcome (processNode name node) (fun docs =>
             bindOutcome (loop rest) (fun more =>
             Returns (docs ++ more)%list))
         end) entries
  end.

(** [processDirectory] on a directory whose entries are [entries]. *)
Definition processDirectory (entries : list (string * Node))
  : Outcome (list ProcessedDocument) :=
  processNode EmptyString (Dir entries).

End Processor.

(** The extensions [processDirectory] reads. *)
Definition supported (file : string) : bool :=
  let ext := toLowerCase (extname file) in
  String.eqb ext ".pdf" || String.eqb ext ".txt" || String.eqb ext ".md".

End Directory.

(* ================================================================== *)
(** ** DocumentProcessor on structured data                           *)
(* ================================================================== *)

Module StructuredData.
Import JS DocumentProcessor RAGService Directory.

(** The records of [types/content.ts], with the fields
    [processStructuredData] reads; a field the type marks optional is an
    [option]. *)
Record App := {
  appTitle : string;
  appShortDescription : string;
  appTech : list string;
  appRole : string;
  appDateRange : string;
  appProblem : option string;
  appSolution : option string;
  appMyContribution : option string;
  appFeatures : option (list string);
  appLearned : option (list string)
}.

Record Experience := {
  expRole : string;
  expCompany : string;
  expPeriod : string;
  expResponsibilities : option (list string);
  expStack : option (list string);
  expImpact : option (list (string * Z))
}.

Record Education := {
  eduDegreeLevel : string;
  eduProgram : string;
  eduInstitution : string;
  eduPeriod : string;
  eduCourses : option (list string);
  eduProjects : option (list string)
}.

Record About := {
  aboutHeadline : string;
  aboutBio : string;
  aboutSkills : list (string * list string);
  aboutContact : Contact
}.

(** The argument [data]: each section may be missing. *)
Record Data := {
  dataApps : option (list App);
  dataExperience : option (list Experience);
  dataEducation : option (list Education);
  dataAbout : option About
}.

Definition backslash : string := String (ascii_of_nat 92) EmptyString.

Definition hexDigit (n : nat) : ascii :=
  if (n <? 10)%nat then ascii_of_nat (48 + n) else ascii_of_nat (87 + n).

(** One character inside a JSON string. *)
Definition jsonChar (c : ascii) : string :=
  let n := nat_of_ascii c in
  if (n =? 34)%nat then backslash ++ dquote
  else if (n =? 92)%nat then backslash ++ backslash
  else if (n =? 8)%nat then backslash ++ "b"
  else if (n =? 9)%nat then backslash ++ "t"
  else if (n =? 10)%nat then backslash ++ "n"
  else if (n =? 12)%nat then backslash ++ "f"
  else if (n =? 13)%nat then backslash ++ "r"
  else if (n <? 32)%nat then
    backslash ++ "u00"
    ++ String (hexDigit (n / 16)) (String (hexDigit (n mod 16)) EmptyString)
  else String c EmptyString.

Fixpoint jsonEscape (s : string) : string :=
  match s with
  | EmptyString => EmptyString
  | String c r => jsonChar c ++ jsonEscape r
  end.

(** [JSON.stringify] of an optional record of integer-valued numbers. *)
Definition stringifyImpact (impact : option (list (string * Z))) : string :=
  match impact with
  | None => "undefined"
  | Some kvs =>
      "{" ++ join ","
               (map (fun kv : string * Z =>
                       dquote ++ jsonEscape (fst kv) ++ dquote ++ ":"
                       ++ renderNumber (snd kv)) kvs)
      ++ "}"
  end.

(** The end of every template: a line feed and the eight spaces before
    the closing quote. *)
Definition templateEnd : string := LFs ++ "        ".

Definition plainDoc (source kind text : string) : ProcessedDocument :=
  {| text := text;
     metadata := {| source := source; type := kind;
                    chunkIndex := None; totalChunks := None |} |}.

Definition appText (app : App) : Outcome string :=
  bindOutcome (joinField ", " (appFeatures app)) (fun features =>
  bindOutcome (joinField ", " (appLearned app)) (fun learned =>
  Returns (trim (
    LFs ++ "Project: " ++ appTitle app
    ++ LFs ++ "Description: " ++ appShortDescription app
    ++ LFs ++ "Technologies: " ++ join ", " (appTech app)
    ++ LFs ++ "Role: " ++ appRole app
    ++ LFs ++ "Date: " ++ appDateRange app
    ++ LFs ++ "Problem: " ++ render (appProblem app)
    ++ LFs ++ "Solution: " ++ render (appSolution app)
    ++ LFs ++ "Contribution: " ++ render (appMyContribution app)
    ++ LFs ++ "Features: " ++ features
    ++ LFs ++ "Learnings: " ++ learned
    ++ templateEnd)))).

Definition experienceText (exp : Experience) : Outcome string :=
  bindOutcome (joinField ". " (expResponsibilities exp)) (fun resp =>
  bindOutcome (joinField ", " (expStack exp)) (fun stack =>
  Returns (trim (
    LFs ++ "Experience: " ++ expRole exp ++ " at " ++ expCompany exp
    ++ LFs ++ "Period: " ++ expPeriod exp
    ++ LFs ++ "Responsibilities: " ++ resp
    ++ LFs ++ "Technologies: " ++ stack
    ++ LFs ++ "Impact: " ++ stringifyImpact (expImpact exp)
    ++ templateEnd)))).

Definition educationText (edu : Education) : Outcome string :=
  bindOutcome (joinField ", " (eduCourses edu)) (fun courses =>
  bindOutcome (joinField ", " (eduProjects edu)) (fun projects =>
  Returns (trim (
    LFs ++ "Education: " ++ eduDegreeLevel edu ++ " in " ++ eduProgram edu
    ++ LFs ++ "Institution: " ++ eduInstitution edu
    ++ LFs ++ "Period: " ++ eduPeriod edu
    ++ LFs ++ "Courses: " ++ courses
    ++ LFs ++ "Projects: " ++ projects
    ++ templateEnd)))).

Definition aboutText (a : About) : string :=
  let skillsText :=
    join LFs (map (fun e : string * list string =>
                     fst e ++ ": " ++ join ", " (snd e)) (aboutSkills a)) in
  trim (
    LFs ++ "About: " ++ aboutHeadline a
    ++ LFs ++ "Bio: " ++ aboutBio a
    ++ LFs ++ "Skills:"
    ++ LFs ++ skillsText
    ++ LFs ++ "Contact:"
    ++ LFs ++ "Email: " ++ email (aboutContact a)
    ++ LFs ++ "Phone: " ++ render (phone (aboutContact a))
    ++ LFs ++ "GitHub: " ++ github (aboutContact a)
    ++ LFs ++ "LinkedIn: " ++ linkedin (aboutContact a)
    ++ templateEnd).

(** [items.forEach(item => documents.push(...))] where building the
    text of an item may throw: the first throw ends the loop. *)
Fixpoint pushDocs {A : Type} (source kind : string)
    (textOfItem : A -> Outcome string) (items : list A)
    (documents : list ProcessedDocument)
  : Outcome (list ProcessedDocument) :=
  match items with
  | [] => Returns documents
  | item :: rest =>
      bindOutcome (textOfItem item) (fun text =>
      pushDocs source kind textOfItem rest
        (push documents (plainDoc source kind text)))
  end.

(** [if (data.section) { data.section.forEach(...) }] *)
Definition pushSection {A : Type} (source kind : string)
    (textOfItem : A -> Outcome string) (section : option (list A))
    (documents : list ProcessedDocument)
  : Outcome (list ProcessedDocument) :=
  match section with
  | Some items => pushDocs source kind textOfItem items documents
  | None => Returns documents
  end.

Definition processStructuredData (data : Data) (source : string)
  : Outcome (list ProcessedDocument) :=
  bindOutcome (pushSection source "project" appText (dataApps data) [])
    (fun documents =>
  bindOutcome (pushSection source "experience" experienceText
                 (dataExperience data) documents)
    (fun documents =>
  bindOutcome (pushSection source "education" educationText
                 (dataEducation data) documents)
    (fun documents =>
  Returns
    match dataAbout data with
    | Some a => push documents (plainDoc source "about" (aboutText a))
    | None => documents
    end))).

(** The lists an item must have for its text to be built. *)
Definition appComplete (app : App) : bool :=
  match appFeatures app, appLearned app with
  | Some _, Some _ => true
  | _, _ => false
  end.

Definition experienceComplete (exp : Experience) : bool :=
  match expResponsibilities exp, expStack exp with
  | Some _, Some _ => true
  | _, _ => false
  end.

Definition educationComplete (edu : Education) : bool :=
  match eduCourses edu, eduProjects edu with
  | Some _, Some _ => true
  | _, _ => false
  end.

Definition itemsOf {A : Type} (section : option (list A)) : list A :=
  match section with
  | Some items => items
  | None => []
  end.

Definition dataComplete (data : Data) : bool :=
  forallb appComplete (itemsOf (dataApps data))
  && forallb experienceComplete (itemsOf (dataExperience data))
  && forallb educationComplete (itemsOf (dataEducation data)).

(** The [type] of each document, in order. *)
Definition kinds (docs : list ProcessedDocument) : list string :=
  map (fun d => type (metadata d)) docs.

Definition expectedKinds (data : Data) : list string :=
  (repeat "project" (List.length (itemsOf (dataApps data)))
   ++ repeat "experience" (List.length (itemsOf (dataExperience data)))
   ++ repeat "education" (List.length (itemsOf (dataEducation data)))
   ++ match dataAbout data with Some _ => ["about"] | None => [] end)%list.

End StructuredData.

(* ================================================================== *)
(** ** RAGService.ingestDocuments                                      *)
(* ================================================================== *)

Module Ingestion.
Import JS RAGService.

(** [batchSize] *)
Definition batchSize : nat := 100.

Definition notInitialized : Exn :=
  {| isError := true;
     message := "Pinecone is not initialized. Please provide PINECONE_API_KEY." |}.

Definition failedEmbedding : Exn :=
  {| isError := true; message := "Failed to create embedding" |}.

(** The slices [l.slice(i, i + batchSize)] the loop takes from position
    [i] on, for [fuel] rounds at most. *)
Fixpoint batchesFrom {A : Type} (fuel i : nat) (l : list A)
  : list (list A) :=
  match fuel with
  | O => []
  | S fuel' =>
      if (i <? List.length l)%nat then
        firstn batchSize (skipn i l) :: batchesFrom fuel' (i + batchSize) l
      else []
  end.

Definition batchesOf {A : Type} (l : list A) : list (list A) :=
  batchesFrom (List.length l) 0 l.

Section Ingest.
Variable Vector : Type.

(** The values of metadata entries, and a string as such a value. *)
Variable Value : Type.
Variable textValue : string -> Value.

(** An object as the list of its own properties, in order. *)
Definition Object : Type := list (string * Value).

Record Document := {
  docText : string;
  docMetadata : option Object
}.

Record VectorRecord := {
  id : string;
  values : Vector;
  recordMetadata : Object
}.

(** Setting a property: an existing one keeps its place and takes the
    new value, a new one goes last. *)
Fixpoint setProperty (k : string) (v : Value) (o : Object) : Object :=
  match o with
  | [] => [(k, v)]
  | (k', v') :: r =>
      if String.eqb k k' then (k, v) :: r else (k', v') :: setProperty k v r
  end.

(** [{ ...o, ...extra }] *)
Definition spread (o : Object) (extra : option Object) : Object :=
  match extra with
  | Some props =>
      fold_left (fun acc kv => setProperty (fst kv) (snd kv) acc) props o
  | None => o
  end.

Fixpoint getProperty (k : string) (o : Object) : option Value :=
  match o with
  | [] => None
  | (k', v) :: r => if String.eqb k k' then Some v else getProperty k r
  end.

Variable env : Env.
Variable backends : Backends Vector.

(** [index.upsert(vectors)] and [Date.now()]; the clock is read once
    for each document, whose position is the argument. *)
Variable indexUpsert : string -> list VectorRecord -> Outcome unit.
Variable now : nat -> Z.

(** The state of an ingestion: the world of the service, with its
    history of embedding calls, and the upsert requests made. *)
Record IngestWorld := {
  base : World Vector;
  upserts : list (list VectorRecord)
}.

(** The record built for the document at position [pos]. *)
Definition makeRecord (pos : nat) (doc : Document) (embedding : Vector)
  : VectorRecord :=
  {| id := "doc-" ++ renderNumber (Z.of_nat pos) ++ "-"
           ++ renderNumber (now pos);
     values := embedding;
     recordMetadata :=
       spread [("text", textValue (docText doc))] (docMetadata doc) |}.

(** [batch.map(async doc => ... await this.createEmbedding(doc.text))]:
    every embedding request of the batch is made, in order, before any
    of them is awaited. *)
Fixpoint embedAll (batch : list Document) (w : World Vector)
  : list (Outcome Vector) * World Vector :=
  match batch with
  | [] => ([], w)
  | doc :: rest =>
      let (o, w1) := createEmbedding Vector backends (docText doc) w in
      let (os, w2) := embedAll rest w1 in
      (o :: os, w2)
  end.

(** [Promise.all]: the values when every promise is fulfilled, a
    rejection otherwise. *)
Fixpoint allSettled {A : Type} (os : list (Outcome A)) : Outcome (list A) :=
  match os with
  | [] => Returns []
  | Returns a :: rest =>
      match allSettled rest with
      | Returns l => Returns (a :: l)
      | Throws e => Throws e
      end
  | Throws e :: _ => Throws e
  end.

Fixpoint makeRecords (pos : nat) (batch : list Document)
    (embeddings : list Vector) : list VectorRecord :=
  match batch, embeddings with
  | doc :: docs, v :: vs => makeRecord pos doc v :: makeRecords (S pos) docs vs
  | _, _ => []
  end.

(** The body of the loop for the batch that starts at position [i]. *)
Definition ingestBatch (indexName : string) (i : nat) (batch : list Document)
    (iw : IngestWorld) : Outcome unit * IngestWorld :=
  let (os, w1) := embedAll batch (base iw) in
  match allSettled os with
  | Throws e => (Throws e, {| base := w1; upserts := upserts iw |})
  | Returns embeddings =>
      let vectors := makeRecords i batch embeddings in
      (indexUpsert indexName vectors,
       {| base := w1; upserts := push (upserts iw) vectors |})
  end.

(** [for (let i = 0; i < documents.length; i += batchSize)]; [fuel]
    bounds the number of rounds. *)
Fixpoint ingestLoop (fuel : nat) (indexName : string) (i : nat)
    (documents : list Document) (iw : IngestWorld)
  : Outcome unit * IngestWorld :=
  match fuel with
  | O => (Returns tt, iw)
  | S fuel' =>
      if (i <? List.length documents)%nat then
        let batch := firstn batchSize (skipn i documents) in
        match ingestBatch indexName i batch iw with
        | (Returns _, iw1) =>
            ingestLoop fuel' indexName (i + batchSize) documents iw1
        | (Throws e, iw1) => (Throws e, iw1)
        end
      else (Returns tt, iw)
  end.

(** [ingestDocuments]; a round takes at least one document, so as many
    rounds as there are documents are enough. *)
Definition ingestDocuments (documents : list Document) (iw : IngestWorld)
  : Outcome unit * IngestWorld :=
  let w0 := snd (initialize Vector env backends (base iw)) in
  let iw0 := {| base := w0; upserts := upserts iw |} in
  match pinecone (service w0) with
  | None => (Throws notInitialized, iw0)
  | Some _ =>
      ingestLoop (List.length documents) (indexName (service w0)) 0
        documents iw0
  end.

(** What [createEmbedding] makes of the answer of the backend. *)
Definition embeddingOutcome (doc : Document) : Outcome Vector :=
  match embeddingsCreate backends "text-embedding-3-small" (docText doc) with
  | Returns v => Returns v
  | Throws _ => Throws failedEmbedding
  end.

Definition embeddingCallOf (doc : Document) : Call Vector :=
  EmbeddingsCreate "text-embedding-3-small" (docText doc).

Definition embeds (doc : Document) : bool :=
  match embeddingsCreate backends "text-embedding-3-small" (docText doc) with
  | Returns _ => true
  | Throws _ => false
  end.

(** The value of the last property named [k] in a list of properties. *)
Fixpoint lastProperty (k : string) (props : Object) : option Value :=
  match props with
  | [] => None
  | (k', v) :: r =>
      match lastProperty k r with
      | Some v' => Some v'
      | None => if String.eqb k k' then Some v else None
      end
  end.

End Ingest.

Arguments docText {Value} d.
Arguments docMetadata {Value} d.
Arguments id {Vector Value} v.
Arguments values {Vector Value} v.
Arguments recordMetadata {Vector Value} v.
Arguments base {Vector Value} i.
Arguments upserts {Vector Value} i.

End Ingestion.

(* ================================================================== *)
(** ** Vocabulary of the further properties                           *)
(* ================================================================== *)

Module MoreViews.
Import JS DocumentProcessor RAGService Views.

Section Service.
Variable Vector : Type.
Variable contentData : ContentData.
Variable env : Env.
Variable backends : Backends Vector.

(** The fields of the instance after [initialize]. *)
Definition initializedService (s : Service) : Service :=
  if isInitialized s then s
  else
    {| pinecone :=
         if truthy (PINECONE_API_KEY env) then
           match newPinecone backends (render (PINECONE_API_KEY env)) with
           | Returns _ => Some (render (PINECONE_API_KEY env))
           | Throws _ => pinecone s
           end
         else pinecone s;
       indexName := indexName s;
       isInitialized := true |}.

(** What the [catch] block of [query] makes of a thrown value. *)
Definition caught (e : Exn) : Outcome string :=
  match mentionsApiKey e with
  | Returns true => Returns troubleConnecting
  | Returns false => Throws e
  | Throws t => Throws t
  end.

(** What [query] makes of the answer of the completion backend. *)
Definition classify (answer : Outcome (option string)) : Outcome string :=
  match answer with
  | Returns o =>
      Returns (if truthy o then render o
               else "Sorry, I could not generate a response.")
  | Throws e => caught e
  end.

End Service.

(** The text of a match, when it has one that is not empty. *)
Definition usableText (m : ScoredMatch) : option string :=
  match matchMetadata m with
  | Some md =>
      match mtext md with
      | Some (String c r) => Some (String c r)
      | _ => None
      end
  | None => None
  end.

(** The [role: content] line of a message in the prompt. *)
Definition historyLine (msg : Message) : string :=
  roleLabel (msgRole msg) ++ ": " ++ content msg.

(** The calls a search may add to the history: none, the embedding call,
    or the embedding call and the index call. *)
Definition searchCalls {Vector : Type} (q : string) (topK : Z)
    (pre : list (Call Vector)) : Prop :=
  pre = []
  \/ pre = [EmbeddingsCreate embeddingModel q]
  \/ exists idx v,
       pre = [EmbeddingsCreate embeddingModel q; IndexQuery idx v topK].

Definition startsWithSpace (s : string) : bool :=
  match s with
  | String c _ => isSpace c
  | EmptyString => false
  end.

Fixpoint endsWithSpace (s : string) : bool :=
  match s with
  | EmptyString => false
  | String c r =>
      match r with
      | EmptyString => isSpace c
      | String _ _ => endsWithSpace r
      end
  end.

(** A character that is not whitespace, or is the space itself. *)
Definition spaceOnly (c : ascii) : bool :=
  negb (isSpace c) || Ascii.eqb c " ".

Fixpoint noDoubleSpace (s : string) : bool :=
  match s with
  | EmptyString => true
  | String a r =>
      match r with
      | EmptyString => true
      | String b _ => negb (isSpace a && isSpace b) && noDoubleSpace r
      end
  end.

(** Text as [cleanText] leaves it: the only whitespace is the space, no
    two spaces follow one another, and none is at either end. *)
Definition normalised (s : string) : bool :=
  allChars spaceOnly s && noDoubleSpace s
  && negb (startsWithSpace s) && negb (endsWithSpace s).

(** Some character is not whitespace. *)
Definition hasInk (s : string) : bool := negb (allChars isSpace s).

Definition noTerminator (s : string) : bool :=
  allChars (fun c => negb (isTerminator c)) s.

(** A unit of text the loop may take: its whitespace is spaces only and
    it has a character that is not whitespace. *)
Definition goodUnit (s : string) : Prop :=
  allChars spaceOnly s = true /\ hasInk s = true.

Definition shapeInvariant (st : list string * string) : Prop :=
  Forall (fun c => allChars spaceOnly c = true /\ c <> EmptyString) (fst st)
  /\ allChars spaceOnly (snd st) = true
  /\ (snd st = EmptyString \/ hasInk (snd st) = true).


(** The document [processMarkdown] makes of a section that needs no
    cutting, [index] being its rank and [total] the number of sections. *)
Definition sectionDoc (fileName : string) (total : nat) (section : string)
    (index : nat) : ProcessedDocument :=
  {| text := section;
     metadata := {| source := fileName; type := "markdown";
                    chunkIndex := Some (Z.of_nat index);
                    totalChunks := Some (Z.of_nat total) |} |}.

(** The document [processTextFile] makes of a chunk. *)
Definition textDoc (fileName : string) (total : nat) (chunk : string)
    (index : nat) : ProcessedDocument :=
  {| text := chunk;
     metadata := {| source := fileName; type := "text";
                    chunkIndex := Some (Z.of_nat index);
                    totalChunks := Some (Z.of_nat total) |} |}.

(** The lines of a text, each followed by a line feed. *)
Definition linesWithFeeds (lines : list string) : string :=
  fold_right (fun line rest => line ++ LFs ++ rest) EmptyString lines.

Definition sectionsInvariant (sections : list string) : Prop :=
  Forall (fun s => s <> EmptyString /\ exists raw, s = trim raw) sections.

(** The text of a template that was built, the empty string otherwise. *)
Definition textOr (o : Outcome string) : string :=
  match o with
  | Returns t => t
  | Throws _ => EmptyString
  end.

(** A document of [processStructuredData]: the given source, no chunk
    numbering, and a text that is not blank and has no whitespace at
    either end. *)
Definition wellFormed (source : string) (d : ProcessedDocument) : Prop :=
  DocumentProcessor.source (metadata d) = source
  /\ chunkIndex (metadata d) = None /\ totalChunks (metadata d) = None
  /\ text d <> EmptyString
  /\ startsWithSpace (text d) = false /\ endsWithSpace (text d) = false.

End MoreViews.

(* ================================================================== *)
(** ** Views of an ingestion                                          *)
(* ================================================================== *)

Module IngestViews.
Import JS RAGService Ingestion.

(** The class [[0-9]]. *)
Definition isDigit (c : ascii) : bool :=
  let n := nat_of_ascii c in (48 <=? n)%nat && (n <=? 57)%nat.

(** The digits a string starts with. *)
Fixpoint leadingDigits (s : string) : string :=
  match s with
  | EmptyString => EmptyString
  | String c r => if isDigit c then String c (leadingDigits r) else EmptyString
  end.

Section Views.
Variable Vector : Type.
Variable Value : Type.
Variable backends : Backends Vector.

(** The embeddings the backend returns for the documents it embeds. *)
Fixpoint embeddingsOf (docs : list (Document Value)) : list Vector :=
  match docs with
  | [] => []
  | doc :: rest =>
      match embeddingsCreate backends "text-embedding-3-small"
              (docText doc) with
      | Returns v => v :: embeddingsOf rest
      | Throws _ => embeddingsOf rest
      end
  end.

(** The metadata property [k] of a document, as the last entry of that
    name gives it. *)
Definition metadataProperty (k : string) (doc : Document Value)
  : option Value :=
  match docMetadata doc with
  | Some props => lastProperty Value k props
  | None => None
  end.

End Views.

End IngestViews.

(* ================================================================== *)
(** ** More sample content                                            *)
(* ================================================================== *)

Module MoreSamples.
Import JS DocumentProcessor RAGService Samples Directory StructuredData
  Ingestion.

(** An experience entry whose company name has no letter and no digit. *)
Definition blankCompany : ContentData :=
  {| apps := []; education := [];
     experience := [ job "---" ];
     about := sampleAbout |}.

(** Matches of the index: one with a text, one without metadata, one
    with an empty text and one with metadata but no text. *)
Definition mixedMatches : list ScoredMatch :=
  [ {| matchMetadata := Some {| mtext := Some "He builds RAG systems." |} |};
    {| matchMetadata := None |};
    {| matchMetadata := Some {| mtext := Some EmptyString |} |};
    {| matchMetadata := Some {| mtext := None |} |} ].

Definition matchingIndex : Backends unit :=
  {| newPinecone := fun _ => Returns tt;
     embeddingsCreate := fun _ _ => Returns tt;
     indexQuery := fun _ _ _ => Returns (Some mixedMatches);
     chatCompletionsCreate := fun _ _ _ _ => Returns (Some "Hello!") |}.

Definition said (r : Role) (t : string) : Message :=
  {| msgRole := r; content := t |}.

Definition sixMessages : list Message :=
  [ said User "Hi"; said Assistant "Hello!"; said User "Who is he?";
    said Assistant "An engineer."; said User "Where?";
    said Assistant "In Boston." ].

(** The error of a file that cannot be read. *)
Definition unreadable : Exn :=
  {| isError := true; message := "EACCES: permission denied" |}.

(** Entries of a directory: a text file, and a subdirectory that holds
    a markdown file. *)
Definition docsBefore : list (string * Node) :=
  [ ("notes.txt", File (Returns "One two. Three four.")) ].

Definition docsAfter : list (string * Node) :=
  [ ("posts", Dir [ ("intro.md", File (Returns twoSections)) ]) ].

Definition noPdf : string -> Outcome string :=
  fun _ => Throws {| isError := true; message := "Invalid PDF structure" |}.

Definition sampleApp (features : option (list string)) : App :=
  {| appTitle := "DevContext"; appShortDescription := "Workspace";
     appTech := ["React"; "Vite"]; appRole := "Lead";
     appDateRange := "2024"; appProblem := None; appSolution := None;
     appMyContribution := Some "All of it";
     appFeatures := features; appLearned := Some ["Patience"] |}.

Definition sampleExperience : Experience :=
  {| expRole := "Engineer"; expCompany := "Acme Corp"; expPeriod := "2024";
     expResponsibilities := Some ["Built search"; "Ran evals"];
     expStack := Some ["Python"];
     expImpact := Some [("latency", 40%Z)] |}.

Definition sampleEducation : Education :=
  {| eduDegreeLevel := "MS"; eduProgram := "CS"; eduInstitution := "NEU";
     eduPeriod := "2023"; eduCourses := Some ["ML"];
     eduProjects := Some [] |}.

Definition sampleData (features : option (list string)) : Data :=
  {| dataApps := Some [ sampleApp features ];
     dataExperience := Some [ sampleExperience ];
     dataEducation := Some [ sampleEducation ];
     dataAbout :=
       Some {| aboutHeadline := "AI Engineer"; aboutBio := "Builds AI systems.";
               aboutSkills := [("AI", ["RAG"; "LLM"])];
               aboutContact := contact sampleAbout |} |}.

(** Documents to ingest, with strings as metadata values. *)
Definition note (t : string) : Document string :=
  {| docText := t; docMetadata := Some [("source", "notes.txt")] |}.

Definition retitled : Document string :=
  {| docText := "The text that was embedded.";
     docMetadata := Some [("text", "Another text."); ("source", "web")] |}.

(** An embedding backend that refuses the input [bad]. *)
Definition pickyEmbedding : Backends unit :=
  {| newPinecone := fun _ => Returns tt;
     embeddingsCreate :=
       fun _ input =>
         if String.eqb input "bad"
         then Throws {| isError := true; message := "quota exceeded" |}
         else Returns tt;
     indexQuery := fun _ _ _ => Returns (Some []);
     chatCompletionsCreate := fun _ _ _ _ => Returns (Some "Hello!") |}.

Definition acceptAll
  : string -> list (VectorRecord unit string) -> Outcome unit :=
  fun _ _ => Returns tt.

Definition fixedClock : nat -> Z := fun _ => 1700000000000%Z.

Definition emptyStore : IngestWorld unit string :=
  {| base := freshWorld; upserts := [] |}.

(** A hundred notes, then the input the backend refuses, then one more
    note. *)
Definition hundredAndBad : list (Document string) :=
  (List.repeat (note "ok") 100 ++ [ note "bad"; note "late" ])%list.

End MoreSamples.

(* ================================================================== *)
(** ** Facts about the primitives                                     *)
(* ================================================================== *)

Module JSFacts.
Import JS DocumentProcessor.

(** *** The primitives on small inputs *)

Example split_keeps_empty_words :
  split " " " a  b" = [""; "a"; ""; "b"].
Proof. reflexivity. Qed.

Example split_of_empty : split " " "" = [""].
Proof. reflexivity. Qed.

Example slice_minus_zero_is_whole :
  sliceFrom (- 0) [1; 2; 3]%nat = [1; 2; 3]%nat.
Proof. reflexivity. Qed.

Example slice_minus_two : sliceFrom (- 2) [1; 2; 3]%nat = [2; 3]%nat.
Proof. reflexivity. Qed.

Example slice_beyond_length : sliceFrom (- 5) [1; 2; 3]%nat = [1; 2; 3]%nat.
Proof. reflexivity. Qed.

Example trim_both_ends : trim ("  a b " ++ LFs) = "a b".
Proof. reflexivity. Qed.

Example includes_is_case_sensitive :
  includes "Tell me" "tell" = false
  /\ includes (toLowerCase "Tell me") "tell" = true.
Proof. split; reflexivity. Qed.

Example normalise_company :
  stripNonAlnum (toLowerCase "Acme Corp.") = "acmecorp".
Proof. reflexivity. Qed.

Example cleanText_collapses :
  cleanText ("a" ++ LFs ++ LFs ++ LFs ++ LFs ++ "b   c ") = "a b c".
Proof. reflexivity. Qed.

Example sentences_drop_unterminated_tail :
  sentencesOf "Hello world.. Next?! trailing" = ["Hello world.."; " Next?!"].
Proof. reflexivity. Qed.

Example sentences_skip_leading_terminator :
  sentencesOf "! a b. c" = [" a b."].
Proof. reflexivity. Qed.

Example sentences_without_terminator :
  sentencesOf "Hello world" = ["Hello world"].
Proof. reflexivity. Qed.

Example header_needs_space_and_at_most_six :
  isHeader "## Title" = true /\ isHeader "#Title" = false
  /\ isHeader "####### Title" = false /\ isHeader "Title #" = false.
Proof. repeat split; reflexivity. Qed.

(** *** Strings *)

Lemma prefix_spec (p s : string) :
  String.prefix p s = true <-> exists b, s = p ++ b.
Proof.
  revert s; induction p as [|c p IH]; intros s.
  - split; [intros _; now exists s | intros _; destruct s; reflexivity].
  - destruct s as [|d s]; simpl.
    + split; [discriminate | intros [b Hb]; discriminate].
    + destruct (ascii_dec c d) as [->|Hcd].
      * rewrite IH. split; intros [b Hb]; exists b.
        -- now rewrite Hb.
        -- now inversion Hb.
      * split; [discriminate | intros [b Hb]; inversion Hb; congruence].
Qed.

(** [includes] is the substring test. *)
Lemma includes_spec (s sub : string) :
  includes s sub = true <-> exists a b, s = a ++ sub ++ b.
Proof.
  induction s as [|c s IH]; cbn [includes].
  - rewrite orb_false_r, prefix_spec. split.
    + intros [b Hb]. now exists EmptyString, b.
    + intros [a [b Hab]]. destruct a; simpl in Hab.
      * now exists b.
      * discriminate.
  - rewrite orb_true_iff, prefix_spec, IH. split.
    + intros [[b Hb] | [a [b Hab]]].
      * now exists EmptyString, b.
      * exists (String c a), b. simpl. now rewrite Hab.
    + intros [a [b Hab]]. destruct a as [|d a]; simpl in Hab.
      * left. now exists b.
      * right. inversion Hab. now exists a, b.
Qed.

Lemma includes_empty (s : string) : includes s EmptyString = true.
Proof. destruct s; reflexivity. Qed.

(** A string that holds no character of a class holds no substring that
    starts with one. *)
Lemma includes_head_absent (p : ascii -> bool) (s : string) (c : ascii)
    (r : string) :
  allChars (fun x => negb (p x)) s = true -> p c = true ->
  includes s (String c r) = false.
Proof.
  intros Hs Hc. induction s as [|d s IH]; simpl in *.
  - reflexivity.
  - apply andb_true_iff in Hs as [Hd Hs].
    rewrite (IH Hs), orb_false_r.
    destruct (ascii_dec c d) as [->|Hcd].
    + rewrite Hc in Hd. discriminate.
    + reflexivity.
Qed.

Lemma filterChars_none (p : ascii -> bool) (s : string) :
  allChars (fun x => negb (p x)) s = true -> filterChars p s = EmptyString.
Proof.
  induction s as [|c s IH]; simpl; intros H.
  - reflexivity.
  - apply andb_true_iff in H as [Hc Hs].
    apply negb_true_iff in Hc. rewrite Hc. auto.
Qed.

Lemma lowerChar_not_alnum (c : ascii) :
  isAlnum c = false -> lowerChar c = c /\ isLowerAlnum c = false.
Proof.
  unfold isAlnum, lowerChar. intros H.
  apply orb_false_iff in H as [Hu Hl]. now rewrite Hu.
Qed.

(** Lower-casing a string without letters or digits leaves it without
    characters of [[a-z0-9]]. *)
Lemma toLowerCase_no_alnum (s : string) :
  allChars (fun x => negb (isAlnum x)) s = true ->
  allChars (fun x => negb (isLowerAlnum x)) (toLowerCase s) = true.
Proof.
  induction s as [|c s IH]; simpl; intros H.
  - reflexivity.
  - apply andb_true_iff in H as [Hc Hs].
    apply negb_true_iff in Hc.
    destruct (lowerChar_not_alnum c Hc) as [-> Hl].
    rewrite Hl. simpl. auto.
Qed.

Lemma pushEach_app {A B : Type} (f : A -> B) (l : list A) (acc : list B) :
  pushEach f l acc = (acc ++ map f l)%list.
Proof.
  unfold pushEach, push. revert acc.
  induction l as [|x l IH]; intros acc; simpl.
  - now rewrite app_nil_r.
  - rewrite IH, <- app_assoc. reflexivity.
Qed.

Lemma sliceTo_length {A : Type} (n : nat) (l : list A) :
  (List.length (sliceTo n l) <= n)%nat.
Proof. unfold sliceTo. rewrite length_firstn. lia. Qed.

End JSFacts.

(* ================================================================== *)
(** ** The fallback context selector                                  *)
(* ================================================================== *)

Module FallbackFacts.
Import JS JSFacts RAGService Views.

Lemma contextsAfterExperience_segments (c : ContentData) (q : string) :
  contextsAfterExperience c q
  = (aboutLines c ++ experienceLines c (toLowerCase q))%list.
Proof.
  unfold contextsAfterExperience, experienceLines, aboutLines, push.
  destruct (wantsExperience c (toLowerCase q));
    rewrite ?pushEach_app; simpl; rewrite ?app_nil_r; reflexivity.
Qed.

Lemma educationLine_cases (edu : EducationItem) :
  (hasCourses edu = true /\ exists s, educationLine edu = Returns s)
  \/ (hasCourses edu = false /\ educationLine edu = Throws joinOfUndefined).
Proof.
  unfold hasCourses, educationLine, joinField.
  destruct (courses edu); cbn [bindOutcome]; [left | right]; eauto.
Qed.

Lemma pushEachOutcome_education (edus : list EducationItem)
    (contexts : list string) :
  pushEachOutcome educationLine edus contexts
  = if forallb hasCourses edus
    then Returns (contexts ++ educationLinesOf edus)%list
    else Throws joinOfUndefined.
Proof.
  revert contexts; induction edus as [|edu rest IH]; intros contexts.
  - cbn. now rewrite app_nil_r.
  - cbn [pushEachOutcome forallb educationLinesOf flat_map].
    destruct (educationLine_cases edu) as [[Hc [s Hs]] | [Hc Hs]];
      rewrite Hc, Hs; cbn [bindOutcome andb]; [|reflexivity].
    rewrite IH. unfold push, educationLinesOf.
    destruct (forallb hasCourses rest); [|reflexivity].
    now rewrite <- app_assoc.
Qed.

Lemma assembledContexts_segments (c : ContentData) (q : string) :
  assembledContexts c q
  = if fallbackFails c q then Throws joinOfUndefined
    else Returns (aboutLines c ++ experienceLines c (toLowerCase q)
                  ++ projectLines c (toLowerCase q)
                  ++ educationLines c (toLowerCase q))%list.
Proof.
  unfold assembledContexts, fallbackFails, projectLines, educationLines.
  rewrite contextsAfterExperience_segments.
  destruct (wantsEducation (toLowerCase q)); cbn [andb].
  - rewrite pushEachOutcome_education.
    destruct (forallb hasCourses (education c)); cbn [negb]; [|reflexivity].
    destruct (wantsProjects (toLowerCase q));
      rewrite ?pushEach_app, <- ?app_assoc, ?app_nil_r; reflexivity.
  - destruct (wantsProjects (toLowerCase q));
      rewrite ?pushEach_app, <- ?app_assoc, ?app_nil_r; reflexivity.
Qed.

Lemma getFallbackContext_eq (c : ContentData) (q : string) :
  getFallbackContext c q
  = if fallbackFails c q then Throws joinOfUndefined
    else Returns (firstn 10 (aboutLines c ++ experienceLines c (toLowerCase q)
                             ++ projectLines c (toLowerCase q)
                             ++ educationLines c (toLowerCase q)))%list.
Proof.
  unfold getFallbackContext. rewrite assembledContexts_segments.
  destruct (fallbackFails c q); reflexivity.
Qed.

Lemma getFallbackContext_throws (c : ContentData) (q : string) (e : Exn) :
  getFallbackContext c q = Throws e -> e = joinOfUndefined.
Proof.
  rewrite getFallbackContext_eq. destruct (fallbackFails c q); congruence.
Qed.

Lemma companyMatches_filter (c : ContentData) (ql : string) :
  companyMatches c ql =
  map company (filter (companyMatch ql) (experience c)).
Proof.
  unfold companyMatches, push.
  enough (H : forall l acc,
             fold_left
               (fun acc exp =>
                  if companyMatch ql exp then (acc ++ [company exp])%list
                  else acc) l acc
             = (acc ++ map company (filter (companyMatch ql) l))%list)
    by apply (H _ []).
  induction l as [|e l IH]; intros acc; simpl.
  - now rewrite app_nil_r.
  - rewrite IH. destruct (companyMatch ql e); simpl.
    + now rewrite <- app_assoc.
    + reflexivity.
Qed.

Lemma companyMatches_nonempty (c : ContentData) (ql : string) :
  (0 <? List.length (companyMatches c ql))%nat = true <->
  exists e, In e (experience c) /\ companyMatch ql e = true.
Proof.
  rewrite companyMatches_filter, length_map, Nat.ltb_lt. split.
  - intros H. destruct (filter (companyMatch ql) (experience c)) as [|e l] eqn:E.
    + simpl in H. lia.
    + exists e. apply filter_In. rewrite E. now left.
  - intros [e He]. apply filter_In in He.
    destruct (filter (companyMatch ql) (experience c)).
    + contradiction.
    + simpl. lia.
Qed.

Lemma companyMatch_spec (ql : string) (e : ExperienceItem) :
  companyMatch ql e = true <->
  containOneAnother (stripNonAlnum ql)
                    (stripNonAlnum (toLowerCase (company e))).
Proof.
  unfold companyMatch, containOneAnother.
  now rewrite orb_true_iff, !includes_spec.
Qed.

Lemma wantsExperience_spec (c : ContentData) (ql : string) :
  wantsExperience c ql = true <->
  experienceKeyword ql = true \/
  exists e, In e (experience c) /\
    containOneAnother (stripNonAlnum ql)
                      (stripNonAlnum (toLowerCase (company e))).
Proof.
  unfold wantsExperience, experienceKeyword.
  rewrite !orb_true_iff, companyMatches_nonempty.
  split.
  - intros H.
    repeat match goal with H : _ \/ _ |- _ => destruct H as [H|H] end;
      try (left; tauto).
    right. destruct H as [e [Hin Hm]]. exists e.
    now rewrite <- companyMatch_spec.
  - intros [H | [e [Hin Hm]]].
    + tauto.
    + left. left. right. exists e. now rewrite companyMatch_spec.
Qed.

Lemma aboutLines_length (c : ContentData) :
  List.length (aboutLines c) = 4%nat.
Proof. reflexivity. Qed.

Lemma Returns_inj {A : Type} (a b : A) : Returns a = Returns b -> a = b.
Proof. congruence. Qed.

Lemma getFallbackContext_nth_about (c : ContentData) (q : string)
    (l : list string) (i : nat) :
  getFallbackContext c q = Returns l ->
  (i < 4)%nat ->
  nth_error l i = nth_error (aboutLines c) i.
Proof.
  rewrite getFallbackContext_eq.
  destruct (fallbackFails c q); [discriminate|].
  intros H Hi. apply Returns_inj in H. subst l.
  rewrite nth_error_firstn.
  replace (i <? 10)%nat with true by (symmetry; apply Nat.ltb_lt; lia).
  rewrite nth_error_app1 by (rewrite aboutLines_length; lia).
  reflexivity.
Qed.

Lemma getFallbackContext_not_nil (c : ContentData) (q : string)
    (l : list string) :
  getFallbackContext c q = Returns l -> l <> [].
Proof.
  intros H E.
  pose proof (getFallbackContext_nth_about c q l 0 H ltac:(lia)) as N.
  rewrite E in N. discriminate.
Qed.

Lemma getFallbackContext_returns (c : ContentData) (q : string) :
  fallbackFails c q = false ->
  exists l, getFallbackContext c q = Returns l.
Proof.
  intros H. rewrite getFallbackContext_eq, H. eauto.
Qed.

End FallbackFacts.

(* ================================================================== *)
(** ** The service: vector search, its fallback, and [query]          *)
(* ================================================================== *)

Module ServiceFacts.
Import JS JSFacts RAGService Views MoreViews FallbackFacts.

Section Facts.
Variable Vector : Type.
Variable contentData : ContentData.
Variable env : Env.
Variable backends : Backends Vector.

(** Unfolds one run of the search down to the answers of the backends. *)
Ltac run_search :=
  unfold searchVectorStore, createEmbedding, bind, getService,
    tryCatch, callBackend, throw, ret, liftOutcome;
  cbv beta iota.

Lemma initialize_returns (w : World Vector) :
  exists s,
    initialize Vector env backends w
    = (Returns tt, {| service := s; calls := calls w |}).
Proof.
  unfold initialize, bind, getService, tryCatch, setService,
    liftOutcome, ret.
  cbn. destruct (isInitialized (service w)).
  - exists (service w). now destruct w.
  - destruct (truthy (PINECONE_API_KEY env)).
    + destruct (newPinecone backends _); cbn; eexists; reflexivity.
    + cbn. eexists; reflexivity.
Qed.

Lemma search_no_client (q : string) (topK : Z) (w : World Vector) :
  pinecone (service w) = None ->
  searchVectorStore Vector contentData backends q topK w
  = (getFallbackContext contentData q, w).
Proof.
  intros H. run_search. now rewrite H.
Qed.

Lemma search_embedding_throws (q : string) (topK : Z) (w : World Vector)
    (k : string) (e : Exn) :
  pinecone (service w) = Some k ->
  embeddingsCreate backends embeddingModel q = Throws e ->
  searchVectorStore Vector contentData backends q topK w =
  (getFallbackContext contentData q,
   {| service := service w;
      calls := push (calls w) (EmbeddingsCreate embeddingModel q) |}).
Proof.
  intros Hk He. run_search.
  rewrite Hk. fold embeddingModel. rewrite He. reflexivity.
Qed.

Lemma search_index_throws (q : string) (topK : Z) (w : World Vector)
    (k : string) (v : Vector) (e : Exn) :
  pinecone (service w) = Some k ->
  embeddingsCreate backends embeddingModel q = Returns v ->
  indexQuery backends (indexName (service w)) v topK = Throws e ->
  searchVectorStore Vector contentData backends q topK w =
  (bindOutcome (readsMessage404 e)
     (fun _ => getFallbackContext contentData q),
   {| service := service w;
      calls := push (push (calls w) (EmbeddingsCreate embeddingModel q))
                 (IndexQuery (indexName (service w)) v topK) |}).
Proof.
  intros Hk Hv He. run_search.
  rewrite Hk. fold embeddingModel. rewrite Hv. cbv beta iota.
  cbn [service calls]. rewrite He.
  destruct (readsMessage404 e); reflexivity.
Qed.

Lemma search_returns_matches (q : string) (topK : Z) (w : World Vector)
    (k : string) (v : Vector) (ms : option (list ScoredMatch)) :
  pinecone (service w) = Some k ->
  embeddingsCreate backends embeddingModel q = Returns v ->
  indexQuery backends (indexName (service w)) v topK = Returns ms ->
  searchVectorStore Vector contentData backends q topK w =
  (Returns (matchTexts ms),
   {| service := service w;
      calls := push (push (calls w) (EmbeddingsCreate embeddingModel q))
                 (IndexQuery (indexName (service w)) v topK) |}).
Proof.
  intros Hk Hv Hms. run_search.
  rewrite Hk. fold embeddingModel. rewrite Hv. cbv beta iota.
  cbn [service calls]. rewrite Hms.
  reflexivity.
Qed.

(** Every search is in exactly one of the two situations. *)
Lemma search_cases (q : string) (topK : Z) (w : World Vector) :
  searchDegraded Vector backends q topK w
  \/ exists ms, searchSucceeds Vector backends q topK w ms.
Proof.
  unfold searchDegraded, searchSucceeds.
  destruct (pinecone (service w)) as [k|] eqn:Hk; [|now left; left].
  destruct (embeddingsCreate backends embeddingModel q) as [v|e] eqn:Hv.
  - destruct (indexQuery backends (indexName (service w)) v topK)
      as [ms|e] eqn:Hi.
    + right. exists ms. split; [discriminate|]. now exists v.
    + left. right. right. now exists v, e.
  - left. right. left. now exists e.
Qed.

Lemma search_degraded (q : string) (topK : Z) (w : World Vector) :
  searchDegraded Vector backends q topK w ->
  indexErrorReadable Vector backends q topK w ->
  exists w', searchVectorStore Vector contentData backends q topK w
             = (getFallbackContext contentData q, w').
Proof.
  intros [H | [[e He] | [v [e [Hv He]]]]] Hr.
  - eexists. now apply search_no_client.
  - destruct (pinecone (service w)) as [k|] eqn:Hk.
    + eexists. now apply (search_embedding_throws q topK w k e).
    + eexists. now apply search_no_client.
  - destruct (pinecone (service w)) as [k|] eqn:Hk.
    + eexists. rewrite (search_index_throws q topK w k v e Hk Hv He).
      pose proof (Hr v e Hv He) as R. unfold messageReadable in R.
      destruct (readsMessage404 e); [reflexivity | discriminate].
    + eexists. now apply search_no_client.
Qed.

Lemma search_succeeds (q : string) (topK : Z) (w : World Vector)
    (ms : option (list ScoredMatch)) :
  searchSucceeds Vector backends q topK w ms ->
  exists w', searchVectorStore Vector contentData backends q topK w
             = (Returns (matchTexts ms), w').
Proof.
  intros [Hk [v [Hv Hms]]].
  destruct (pinecone (service w)) as [k|] eqn:E; [|contradiction].
  eexists. now apply (search_returns_matches q topK w k v ms).
Qed.

(** A [TypeError] of the engine does not mention [API key]. *)
Lemma readsMessage404_throws (e t : Exn) :
  readsMessage404 e = Throws t -> mentionsApiKey t = Returns false.
Proof.
  destruct e as [f| | |b [| |[|]]]; cbn [readsMessage404];
    intros H; try discriminate; injection H as <-; reflexivity.
Qed.

(** What the search throws, [query] throws again. *)
Lemma search_throws_plain (q : string) (topK : Z) (w w1 : World Vector)
    (e : Exn) :
  searchVectorStore Vector contentData backends q topK w = (Throws e, w1) ->
  mentionsApiKey e = Returns false.
Proof.
  assert (F : forall e0, getFallbackContext contentData q = Throws e0 ->
                mentionsApiKey e0 = Returns false).
  { intros e0 H0. apply getFallbackContext_throws in H0. now subst e0. }
  destruct (pinecone (service w)) as [k|] eqn:Hk.
  - destruct (embeddingsCreate backends embeddingModel q) as [v|e0] eqn:Hv.
    + destruct (indexQuery backends (indexName (service w)) v topK)
        as [ms|e0] eqn:Hi.
      * rewrite (search_returns_matches q topK w k v ms Hk Hv Hi).
        discriminate.
      * rewrite (search_index_throws q topK w k v e0 Hk Hv Hi).
        destruct (readsMessage404 e0) as [x|t] eqn:R; cbn [bindOutcome];
          intros H; injection H as H _.
        -- now apply F.
        -- subst t. now apply (readsMessage404_throws e0).
    + rewrite (search_embedding_throws q topK w k e0 Hk Hv).
      intros H; injection H as H _. now apply F.
  - rewrite (search_no_client q topK w Hk).
    intros H; injection H as H _. now apply F.
Qed.

(** With the language-model key set, [query] searches and then calls
    the completion backend with the prompt built from what the search
    returned. *)
Lemma query_configured (q : string) (h : list Message) (w : World Vector)
    (contexts : list string) (w1 : World Vector) :
  truthy (OPENAI_API_KEY env) = true ->
  searchVectorStore Vector contentData backends q 5
    (snd (initialize Vector env backends w))
  = (Returns contexts, w1) ->
  query Vector contentData env backends q h w
  = (classify
       (chatCompletionsCreate backends "gpt-4o-mini" systemMessage
          (buildPrompt q contexts h) 500),
     {| service := service w1;
        calls := push (calls w1) (completionCall Vector q contexts h) |}).
Proof.
  intros Hkey Hs.
  destruct (initialize_returns w) as [s Hi].
  rewrite Hi in Hs. cbn [snd] in Hs.
  unfold query, bind, tryCatch.
  rewrite Hi, Hkey. cbn [negb]. cbv beta iota. rewrite Hs. cbv beta iota.
  unfold callBackend, ret, throw, liftOutcome, completionCall, classify,
    caught.
  destruct (chatCompletionsCreate backends _ _ _ _) as [o|e].
  - reflexivity.
  - destruct (mentionsApiKey e) as [[|]|t]; reflexivity.
Qed.

(** When the search throws, [query] throws the same value and makes no
    completion call. *)
Lemma query_search_throws (q : string) (h : list Message) (w : World Vector)
    (e : Exn) (w1 : World Vector) :
  truthy (OPENAI_API_KEY env) = true ->
  searchVectorStore Vector contentData backends q 5
    (snd (initialize Vector env backends w))
  = (Throws e, w1) ->
  query Vector contentData env backends q h w = (Throws e, w1).
Proof.
  intros Hkey Hs.
  pose proof (search_throws_plain q 5 _ w1 e Hs) as Hm.
  destruct (initialize_returns w) as [s Hi].
  rewrite Hi in Hs. cbn [snd] in Hs.
  unfold query, bind, tryCatch.
  rewrite Hi, Hkey. cbn [negb]. cbv beta iota. rewrite Hs. cbv beta iota.
  unfold liftOutcome, throw. now rewrite Hm.
Qed.

End Facts.

End ServiceFacts.

(* ================================================================== *)
(** ** Properties of the fallback context selector                    *)
(* ================================================================== *)

Module Selector.
Import JS JSFacts RAGService Views FallbackFacts Samples.

(** C8.  The list the selector returns has at most ten strings, and they
    are the first ten of the assembly: the about, contact and skills
    strings, then the experience strings, then the project strings, then
    the education strings.  The selector returns such a list unless the
    query asks for the education strings and an education entry has no
    courses: then it throws. *)
Theorem fallback_first_ten_in_assembly_order (c : ContentData) (q : string) :
  getFallbackContext c q
  = (if fallbackFails c q then Throws joinOfUndefined
     else Returns (firstn 10 (aboutLines c
                              ++ experienceLines c (toLowerCase q)
                              ++ projectLines c (toLowerCase q)
                              ++ educationLines c (toLowerCase q)))%list)
  /\ forall l, getFallbackContext c q = Returns l ->
       (List.length l <= 10)%nat
       /\ l = firstn 10 (aboutLines c
                         ++ experienceLines c (toLowerCase q)
                         ++ projectLines c (toLowerCase q)
                         ++ educationLines c (toLowerCase q))%list.
Proof.
  split; [apply getFallbackContext_eq|].
  intros l. rewrite getFallbackContext_eq.
  destruct (fallbackFails c q); [discriminate|].
  intros H. apply Returns_inj in H. subst l.
  split; [apply firstn_le_length | reflexivity].
Qed.

Lemma fallback_first_ten_in_assembly_order_witness :
  (List.length
     (firstn 10 (aboutLines smallContent
                 ++ experienceLines smallContent (toLowerCase "His degree?")
                 ++ projectLines smallContent (toLowerCase "His degree?")
                 ++ educationLines smallContent (toLowerCase "His degree?"))%list)
   <= 10)%nat.
Proof.
  pose proof (fallback_first_ten_in_assembly_order smallContent "His degree?")
    as [_ H].
  apply H. reflexivity.
Defined.

(** C6.  The experience strings, one per entry and in order, are pushed
    onto the list of contexts exactly when the lower-cased query holds
    one of the seven keywords or the normalised query and the normalised
    company name of some entry contain one another; so a query that
    holds the company name of an entry has them pushed, also without the
    word [experience].  Whenever the selector returns, each of the first
    six entries has its string in the returned list, at position four
    plus its rank. *)
Theorem experience_included_iff (c : ContentData) (q : string) :
  (wantsExperience c (toLowerCase q) = true <->
   experienceKeyword (toLowerCase q) = true \/
   exists e, In e (experience c) /\
     containOneAnother (stripNonAlnum (toLowerCase q))
                       (stripNonAlnum (toLowerCase (company e))))
  /\ contextsAfterExperience c q
     = (aboutLines c
        ++ (if wantsExperience c (toLowerCase q)
            then map experienceLine (experience c) else []))%list
  /\ (forall e, In e (experience c) ->
        includes (stripNonAlnum (toLowerCase q))
                 (stripNonAlnum (toLowerCase (company e))) = true ->
        wantsExperience c (toLowerCase q) = true)
  /\ (wantsExperience c (toLowerCase q) = true ->
      forall l i e,
        getFallbackContext c q = Returns l ->
        (i < 6)%nat -> nth_error (experience c) i = Some e ->
        nth_error l (4 + i) = Some (experienceLine e)).
Proof.
  split; [apply wantsExperience_spec|].
  split; [apply contextsAfterExperience_segments|].
  split.
  { intros e Hin Hinc. apply wantsExperience_spec. right. exists e.
    split; [exact Hin|]. left. now apply includes_spec. }
  intros Hw l i e Hl Hi He.
  rewrite getFallbackContext_eq in Hl.
  destruct (fallbackFails c q); [discriminate|].
  apply Returns_inj in Hl. subst l.
  rewrite nth_error_firstn.
  replace (4 + i <? 10)%nat with true by (symmetry; apply Nat.ltb_lt; lia).
  rewrite nth_error_app2 by (rewrite aboutLines_length; lia).
  rewrite aboutLines_length.
  replace (4 + i - 4)%nat with i by lia.
  unfold experienceLines. rewrite Hw.
  rewrite nth_error_app1.
  - now rewrite nth_error_map, He.
  - rewrite length_map. apply nth_error_Some. congruence.
Qed.

Lemma experience_included_iff_witness :
  exists l,
    getFallbackContext smallContent "What did he do at Acme Corp?" = Returns l
    /\ nth_error l 4 = Some (experienceLine (job "Acme Corp")).
Proof.
  eexists. split; [vm_compute; reflexivity|].
  pose proof (experience_included_iff smallContent
                "What did he do at Acme Corp?") as [_ [_ [_ H]]].
  apply (H eq_refl _ 0%nat (job "Acme Corp")).
  - vm_compute. reflexivity.
  - lia.
  - reflexivity.
Defined.

(** C10.  A query without letters or digits normalises to the empty
    string, so the company test holds for every entry and every company
    is a match, although no keyword occurs in the query: the string of
    every experience entry is pushed.  The selector then returns, and
    its list is the first ten strings of the four leading strings
    followed by one string per experience entry. *)
Theorem no_alnum_query_matches_every_company (c : ContentData) (q : string) :
  allChars (fun x => negb (isAlnum x)) q = true ->
  stripNonAlnum (toLowerCase q) = EmptyString
  /\ (forall e, companyMatch (toLowerCase q) e = true)
  /\ companyMatches c (toLowerCase q) = map company (experience c)
  /\ experienceKeyword (toLowerCase q) = false
  /\ contextsAfterExperience c q
     = (aboutLines c ++ map experienceLine (experience c))%list
  /\ getFallbackContext c q
     = Returns
         (firstn 10 (aboutLines c ++ map experienceLine (experience c))%list).
Proof.
  intros Hq.
  pose proof (toLowerCase_no_alnum q Hq) as Hl.
  assert (Hn : stripNonAlnum (toLowerCase q) = EmptyString)
    by now apply filterChars_none.
  assert (Hm : forall e, companyMatch (toLowerCase q) e = true).
  { intros e. unfold companyMatch. rewrite Hn, includes_empty.
    apply orb_true_r. }
  assert (Hno : forall c0 r, isLowerAlnum c0 = true ->
                  includes (toLowerCase q) (String c0 r) = false)
    by (intros; now apply (includes_head_absent isLowerAlnum)).
  assert (Hk : experienceKeyword (toLowerCase q) = false)
    by (unfold experienceKeyword; now rewrite !Hno).
  assert (Hc : companyMatches c (toLowerCase q) = map company (experience c)).
  { rewrite companyMatches_filter. f_equal.
    induction (experience c) as [|e l IH]; simpl.
    - reflexivity.
    - now rewrite Hm, IH. }
  assert (He : experienceLines c (toLowerCase q)
               = map experienceLine (experience c)).
  { unfold experienceLines, wantsExperience.
    rewrite Hc, !Hno by reflexivity. simpl orb. rewrite length_map.
    destruct (experience c); reflexivity. }
  repeat split; auto.
  - now rewrite contextsAfterExperience_segments, He.
  - rewrite getFallbackContext_eq.
    unfold fallbackFails, projectLines, educationLines, wantsProjects,
      wantsEducation.
    rewrite He, !Hno by reflexivity. cbn [orb andb].
    now rewrite app_nil_r.
Qed.

Lemma no_alnum_query_matches_every_company_witness :
  getFallbackContext smallContent "?!"
  = Returns (firstn 10 (aboutLines smallContent
                        ++ map experienceLine (experience smallContent))%list).
Proof.
  apply (no_alnum_query_matches_every_company smallContent "?!").
  reflexivity.
Defined.

End Selector.

(* ================================================================== *)
(** ** Properties of the search and of [query]                        *)
(* ================================================================== *)

Module Orchestrator.
Import JS JSFacts RAGService Views MoreViews FallbackFacts ServiceFacts
  Samples.

(** C4.  With no language-model key in the environment (unset or empty),
    [query] returns the fixed apology, which names the direct contact
    address, and the history of backend calls is left as it was: no
    embedding call, no index call, no completion call.  ([initialize]
    may construct the vector client; that sends no request.) *)
Theorem query_without_key_makes_no_call
    (Vector : Type) (c : ContentData) (env : Env) (b : Backends Vector)
    (q : string) (h : list Message) (w : World Vector) :
  truthy (OPENAI_API_KEY env) = false ->
  fst (query Vector c env b q h w) = Returns notConfigured
  /\ calls (snd (query Vector c env b q h w)) = calls w
  /\ includes notConfigured "reach out directly at uharishraj@gmail.com"
     = true.
Proof.
  intros Hkey.
  destruct (initialize_returns Vector env b w) as [s Hi].
  unfold query, bind, tryCatch. rewrite Hi, Hkey. cbn.
  repeat split; reflexivity.
Qed.

Lemma query_without_key_makes_no_call_witness :
  fst (query unit smallContent noKeys emptyIndex "Who is he?" [] freshWorld)
  = Returns notConfigured
  /\ calls (snd (query unit smallContent noKeys emptyIndex "Who is he?" []
                   freshWorld)) = [].
Proof.
  destruct (query_without_key_makes_no_call unit smallContent noKeys
              emptyIndex "Who is he?" [] freshWorld eq_refl) as [H1 [H2 _]].
  split; [exact H1 | exact H2].
Defined.

(** C3, as amended.  When there is no vector client, or the embedding
    call throws, or the index call throws a value whose message the
    [catch] block can test, [searchVectorStore] does not return an empty
    list: it invokes the fallback selector itself and hands on its
    outcome.  The selector returns unless the query asks for the
    education strings and an education entry has no courses; the list it
    returns is never empty, and then the failure of the search does not
    reach [query], which, with the language-model key set, goes on to
    the completion call with the prompt built from that list. *)
Theorem search_failure_returns_fallback
    (Vector : Type) (c : ContentData) (b : Backends Vector)
    (q : string) (topK : Z) (w : World Vector) :
  searchDegraded Vector b q topK w ->
  indexErrorReadable Vector b q topK w ->
  fst (searchVectorStore Vector c b q topK w) = getFallbackContext c q
  /\ (fallbackFails c q = false ->
      exists l, getFallbackContext c q = Returns l)
  /\ (forall l, getFallbackContext c q = Returns l ->
        l <> []
        /\ forall env h w0,
             truthy (OPENAI_API_KEY env) = true ->
             searchDegraded Vector b q 5 (snd (initialize Vector env b w0)) ->
             indexErrorReadable Vector b q 5
               (snd (initialize Vector env b w0)) ->
             fst (query Vector c env b q h w0)
             = classify
                 (chatCompletionsCreate b "gpt-4o-mini" systemMessage
                    (buildPrompt q l h) 500)
             /\ exists cs,
                  calls (snd (query Vector c env b q h w0))
                  = push cs (completionCall Vector q l h)).
Proof.
  intros Hd Hr. split.
  { destruct (search_degraded Vector c b q topK w Hd Hr) as [w' ->].
    reflexivity. }
  split; [apply getFallbackContext_returns|].
  intros l Hl. split; [now apply (getFallbackContext_not_nil c q)|].
  intros env h w0 Hkey Hd0 Hr0.
  destruct (search_degraded Vector c b q 5 _ Hd0 Hr0) as [w1 Hs].
  rewrite Hl in Hs.
  rewrite (query_configured Vector c env b q h w0 l w1 Hkey Hs).
  split; [reflexivity|]. now exists (calls w1).
Qed.

Lemma search_failure_returns_fallback_witness :
  fst (searchVectorStore unit smallContent failingEmbedding "Who is he?" 5
         clientWorld)
  = getFallbackContext smallContent "Who is he?".
Proof.
  apply (search_failure_returns_fallback unit smallContent failingEmbedding
           "Who is he?" 5 clientWorld).
  - right. left. eexists. reflexivity.
  - intros v e Hv. discriminate.
Defined.

(** With no vector client the search returns four strings, not the
    empty list; and so it does when the embedding call throws. *)
Lemma search_without_client_is_not_empty :
  pinecone (service freshWorld) = None
  /\ fst (searchVectorStore unit smallContent emptyIndex "Who is he?" 5
            freshWorld) <> Returns []
  /\ (exists l,
        fst (searchVectorStore unit smallContent emptyIndex "Who is he?" 5
               freshWorld) = Returns l
        /\ List.length l = 4%nat
        /\ getFallbackContext smallContent "Who is he?" = Returns l
        /\ fst (searchVectorStore unit smallContent failingEmbedding
                  "Who is he?" 5 clientWorld) = Returns l).
Proof.
  split; [reflexivity|].
  split; [vm_compute; discriminate|].
  eexists. split; [vm_compute; reflexivity|].
  repeat split; vm_compute; reflexivity.
Qed.

(** C1, as amended.  With the language-model key set, [query] runs the
    search once.  When the search returns, the completion call receives
    the prompt built from the list it returned, and that list comes from
    one source: the fallback selector when there is no vector client or
    a call of the search throws, and otherwise the texts of the matches,
    without any string of the fallback added; when the search finds no
    match that list is empty and the selector is not used.  The search
    returns whenever the selector does and the index call throws no
    value whose message cannot be tested; when the search throws,
    [query] throws the same value and makes no completion call. *)
Theorem context_comes_from_one_source
    (Vector : Type) (c : ContentData) (env : Env) (b : Backends Vector)
    (q : string) (h : list Message) (w : World Vector) :
  truthy (OPENAI_API_KEY env) = true ->
  exists o w1,
    searchVectorStore Vector c b q 5 (snd (initialize Vector env b w))
    = (o, w1)
    /\ match o with
       | Returns contexts =>
           calls (snd (query Vector c env b q h w))
           = push (calls w1) (completionCall Vector q contexts h)
           /\ ((searchDegraded Vector b q 5 (snd (initialize Vector env b w))
                /\ getFallbackContext c q = Returns contexts)
               \/ (exists ms,
                     searchSucceeds Vector b q 5
                       (snd (initialize Vector env b w)) ms
                     /\ contexts = matchTexts ms
                     /\ (matchTexts ms = [] -> contexts = [])))
       | Throws e =>
           query Vector c env b q h w = (Throws e, w1)
           /\ searchDegraded Vector b q 5 (snd (initialize Vector env b w))
           /\ (getFallbackContext c q = Throws e
               \/ exists v e0,
                    embeddingsCreate b embeddingModel q = Returns v
                    /\ indexQuery b
                         (indexName
                            (service (snd (initialize Vector env b w))))
                         v 5 = Throws e0
                    /\ readsMessage404 e0 = Throws e)
       end
    /\ (fallbackFails c q = false ->
        indexErrorReadable Vector b q 5 (snd (initialize Vector env b w)) ->
        exists contexts, o = Returns contexts).
Proof.
  intros Hkey.
  set (w0 := snd (initialize Vector env b w)).
  destruct (searchVectorStore Vector c b q 5 w0) as [o w1] eqn:Hs.
  exists o, w1. split; [reflexivity|].
  assert (Hcases :
    (searchDegraded Vector b q 5 w0
     /\ (o = getFallbackContext c q
         \/ exists v e0 t,
              embeddingsCreate b embeddingModel q = Returns v
              /\ indexQuery b (indexName (service w0)) v 5 = Throws e0
              /\ readsMessage404 e0 = Throws t /\ o = Throws t))
    \/ exists ms, searchSucceeds Vector b q 5 w0 ms
                  /\ o = Returns (matchTexts ms)).
  { destruct (pinecone (service w0)) as [k|] eqn:Hk.
    - destruct (embeddingsCreate b embeddingModel q) as [v|e0] eqn:Hv.
      + destruct (indexQuery b (indexName (service w0)) v 5)
          as [ms|e0] eqn:Hi.
        * right. exists ms. split.
          -- split; [congruence|]. now exists v.
          -- rewrite (search_returns_matches Vector c b q 5 w0 k v ms
                        Hk Hv Hi) in Hs. congruence.
        * left. split; [right; right; now exists v, e0|].
          rewrite (search_index_throws Vector c b q 5 w0 k v e0 Hk Hv Hi)
            in Hs.
          destruct (readsMessage404 e0) as [x|t] eqn:R;
            cbn [bindOutcome] in Hs.
          -- left. congruence.
          -- right. exists v, e0, t. repeat split; congruence.
      + left. split; [right; left; now exists e0|]. left.
        rewrite (search_embedding_throws Vector c b q 5 w0 k e0 Hk Hv) in Hs.
        congruence.
    - left. split; [now left|]. left.
      rewrite (search_no_client Vector c b q 5 w0 Hk) in Hs. congruence. }
  split.
  - destruct o as [contexts|e].
    + split; [now rewrite (query_configured Vector c env b q h w contexts w1
                             Hkey Hs)|].
      destruct Hcases as [[Hd [Ho | [v [e0 [t [_ [_ [_ Ho]]]]]]]] | [ms [Hm Ho]]].
      * left. split; [exact Hd | now symmetry].
      * discriminate.
      * right. exists ms. apply Returns_inj in Ho.
        split; [exact Hm|]. split; [exact Ho|]. intros E. now rewrite Ho.
    + split; [now apply query_search_throws|].
      destruct Hcases as [[Hd [Ho | [v [e0 [t [Hv [Hi [R Ho]]]]]]]] | [ms [Hm Ho]]].
      * split; [exact Hd|]. left. now symmetry.
      * split; [exact Hd|]. right. exists v, e0.
        repeat split; congruence.
      * discriminate.
  - intros Hf Hr.
    destruct Hcases as [[Hd [Ho | [v [e0 [t [Hv [Hi [R Ho]]]]]]]] | [ms [Hm Ho]]].
    + destruct (getFallbackContext_returns c q Hf) as [l Hl].
      exists l. congruence.
    + pose proof (Hr v e0 Hv Hi) as M. unfold messageReadable in M.
      rewrite R in M. discriminate.
    + now exists (matchTexts ms).
Qed.

Lemma context_comes_from_one_source_witness :
  exists contexts w1,
    searchVectorStore unit smallContent emptyIndex "Who is he?" 5
      (snd (initialize unit bothKeys emptyIndex freshWorld))
    = (Returns contexts, w1)
    /\ calls (snd (query unit smallContent bothKeys emptyIndex "Who is he?" []
                     freshWorld))
       = push (calls w1) (completionCall unit "Who is he?" contexts []).
Proof.
  destruct (context_comes_from_one_source unit smallContent bothKeys
              emptyIndex "Who is he?" [] freshWorld eq_refl)
    as [o [w1 [H1 [H2 H3]]]].
  destruct H3 as [contexts ->].
  - reflexivity.
  - intros v e Hv He. discriminate.
  - exists contexts, w1. split; [exact H1 | exact (proj1 H2)].
Defined.

(** The search goes through and finds no match: the prompt is built from
    the empty list, the three backend calls are made, and the selector,
    whose list is not empty, supplies nothing. *)
Lemma zero_matches_leave_context_empty :
  searchSucceeds unit emptyIndex "Who is he?" 5
    (snd (initialize unit bothKeys emptyIndex freshWorld)) (Some [])
  /\ fst (searchVectorStore unit smallContent emptyIndex "Who is he?" 5
            (snd (initialize unit bothKeys emptyIndex freshWorld)))
     = Returns []
  /\ calls (snd (query unit smallContent bothKeys emptyIndex "Who is he?" []
                   freshWorld))
     = [ EmbeddingsCreate "text-embedding-3-small" "Who is he?";
         IndexQuery "portfolio-chatbot" tt 5;
         completionCall unit "Who is he?" [] [] ]
  /\ exists l, getFallbackContext smallContent "Who is he?" = Returns l
               /\ l <> [].
Proof.
  split.
  { split; [discriminate|]. exists tt. split; reflexivity. }
  split; [reflexivity|].
  split; [reflexivity|].
  eexists. split; [vm_compute; reflexivity | discriminate].
Qed.

(** The index call is rejected with [null]: the [catch] block of the
    search throws a [TypeError] while it reads the message, and [query]
    throws it again without a completion call. *)
Lemma null_rejection_reaches_query :
  fst (query unit smallContent bothKeys nullRejection "Who is he?" []
         freshWorld)
  = Throws (typeError "Cannot read properties of null (reading 'message')")
  /\ calls (snd (query unit smallContent bothKeys nullRejection "Who is he?"
                   [] freshWorld))
     = [ EmbeddingsCreate "text-embedding-3-small" "Who is he?";
         IndexQuery "portfolio-chatbot" tt 5 ].
Proof. split; reflexivity. Qed.

(** The query asks for the education strings of content whose education
    entry has no courses: the selector throws the [TypeError] of
    [undefined.join], and so do the search and [query], which calls no
    backend. *)
Lemma missing_courses_reach_query :
  getFallbackContext noCourses "Which degree?" = Throws joinOfUndefined
  /\ query unit noCourses languageKeyOnly emptyIndex "Which degree?" []
       freshWorld
     = (Throws joinOfUndefined,
        {| service := {| pinecone := None; indexName := "portfolio-chatbot";
                         isInitialized := true |};
           calls := [] |}).
Proof. split; reflexivity. Qed.

End Orchestrator.

(* ================================================================== *)
(** ** Properties of the chunker                                      *)
(* ================================================================== *)

Module Chunker.
Import JS JSFacts DocumentProcessor Views Samples.

Lemma length_zero_empty (s : string) :
  (0 <? String.length s)%nat = false -> s = EmptyString.
Proof. destruct s; [reflexivity | discriminate]. Qed.

Lemma trimStart_length (s : string) :
  (String.length (trimStart s) <= String.length s)%nat.
Proof.
  induction s as [|c s IH]; simpl.
  - lia.
  - destruct (isSpace c); simpl; lia.
Qed.

Lemma trimEnd_length (s : string) :
  (String.length (trimEnd s) <= String.length s)%nat.
Proof.
  induction s as [|c s IH]; simpl.
  - lia.
  - destruct (trimEnd s); [destruct (isSpace c)|]; simpl in *; lia.
Qed.

Lemma trim_length (s : string) :
  (String.length (trim s) <= String.length s)%nat.
Proof.
  unfold trim.
  pose proof (trimEnd_length (trimStart s)).
  pose proof (trimStart_length s). lia.
Qed.

Lemma string_length_app (a b : string) :
  String.length (a ++ b) = (String.length a + String.length b)%nat.
Proof. induction a; simpl; auto. Qed.

Lemma chunkStep_invariant (p : Processor) (sentences : list string)
    (st : list string * string) (s : string) :
  In s sentences ->
  loopInvariant p sentences st -> loopInvariant p sentences (chunkStep p st s).
Proof.
  intros Hs [Hchunks Hcur]. destruct st as [chunks cur]. simpl in *.
  unfold chunkStep.
  destruct ((Z.of_nat (String.length (cur ++ s)) >? chunkSize p)%Z
            && (0 <? String.length cur)%nat) eqn:E.
  - apply andb_true_iff in E as [_ Hpos].
    split; simpl.
    + intros c Hc. unfold push in Hc. apply in_app_or in Hc as [Hc | [<- | []]].
      * now apply Hchunks.
      * exists cur. split; [reflexivity|].
        destruct Hcur as [-> | Hcur]; [discriminate | exact Hcur].
    + right. right. exists s. split; [exact Hs|]. right. now exists cur.
  - split; simpl; [exact Hchunks|]. right.
    apply andb_false_iff in E as [E | E].
    + left.
      destruct (Z.gtb_spec (Z.of_nat (String.length (cur ++ s))) (chunkSize p));
        [discriminate | assumption].
    + apply length_zero_empty in E. subst cur. simpl.
      right. exists s. split; [exact Hs | now left].
Qed.

Lemma chunkLoop_invariant (p : Processor) (sentences ss : list string)
    (st : list string * string) :
  incl ss sentences ->
  loopInvariant p sentences st ->
  loopInvariant p sentences (chunkLoop p ss st).
Proof.
  unfold chunkLoop. revert st.
  induction ss as [|s ss IH]; intros st Hincl Hinv; simpl.
  - exact Hinv.
  - apply IH.
    + intros x Hx. apply Hincl. now right.
    + apply chunkStep_invariant; [apply Hincl; now left | exact Hinv].
Qed.

Lemma chunkText_raw (p : Processor) (text c : string) :
  In c (chunkText p text) ->
  exists raw, c = trim raw
              /\ fitsOrSingle p (sentencesOf (cleanText text)) raw.
Proof.
  unfold chunkText.
  set (ss := sentencesOf (cleanText text)).
  pose proof (chunkLoop_invariant p ss ss ([], EmptyString)
                (incl_refl ss)) as H.
  destruct H as [Hchunks Hcur].
  { split; simpl; [intros ? [] | now left]. }
  destruct (chunkLoop p ss ([], EmptyString)) as [chunks cur]. simpl in *.
  unfold flushBuffer.
  destruct (0 <? String.length (trim cur))%nat eqn:E.
  - intros Hc. unfold push in Hc. apply in_app_or in Hc as [Hc | [<- | []]].
    + now apply Hchunks.
    + exists cur. split; [reflexivity|].
      destruct Hcur as [-> | Hcur]; [discriminate | exact Hcur].
  - apply Hchunks.
Qed.

Lemma mapiFrom_length {A B : Type} (f : A -> nat -> B) (l : list A) (i : nat) :
  List.length (mapiFrom i f l) = List.length l.
Proof. revert i; induction l; intros i; simpl; auto. Qed.

Lemma mapiFrom_map {A B C : Type} (g : B -> C) (f : A -> nat -> B)
    (l : list A) (i : nat) :
  map g (mapiFrom i f l) = mapiFrom i (fun x n => g (f x n)) l.
Proof. revert i; induction l; intros i; simpl; f_equal; auto. Qed.

Lemma mapiFrom_index_only {A B : Type} (g : nat -> B) (l : list A) (i : nat) :
  mapiFrom i (fun _ n => g n) l = map g (seq i (List.length l)).
Proof. revert i; induction l; intros i; simpl; f_equal; auto. Qed.

(** The text path numbers its chunks by position and gives each the
    number of chunks as total. *)
Lemma processTextFile_indices (p : Processor) (fileName content : string) :
  let n := List.length (chunkText p content) in
  chunkIndices (processTextFile p fileName content)
  = map (fun i => Some (Z.of_nat i)) (seq 0 n)
  /\ totals (processTextFile p fileName content)
     = map (fun _ => Some (Z.of_nat n)) (seq 0 n).
Proof.
  unfold chunkIndices, totals, processTextFile, mapi.
  rewrite !mapiFrom_map. simpl.
  split; apply mapiFrom_index_only.
Qed.

Lemma overlapWords_zero (p : Processor) (cur : string) :
  (chunkOverlap p / 5 = 0)%Z -> overlapWords p cur = split " " cur.
Proof.
  intros H. unfold overlapWords, sliceFrom. rewrite H. simpl.
  rewrite Z.min_l by lia. reflexivity.
Qed.

(** From [chunkOverlap] 5 on, the slice keeps the trailing
    [floor(chunkOverlap / 5)] words. *)
Lemma overlapWords_positive (p : Processor) (cur : string) :
  (1 <= chunkOverlap p / 5)%Z ->
  overlapWords p cur
  = sliceLast (Z.to_nat (chunkOverlap p / 5)) (split " " cur).
Proof.
  intros H. unfold overlapWords, sliceFrom, sliceLast.
  replace (- (chunkOverlap p / 5) <? 0)%Z with true
    by (symmetry; apply Z.ltb_lt; lia).
  f_equal. lia.
Qed.

Lemma Chained_snoc {A : Type} (R : A -> A -> Prop) (l : list A) (x : A) :
  Chained R l ->
  (forall l' a, l = (l' ++ [a])%list -> R a x) ->
  Chained R (l ++ [x])%list.
Proof.
  intros Hl. induction Hl as [|a|a b l Hab Hl IH]; intros Hlast; simpl.
  - constructor.
  - constructor; [apply (Hlast [] a); reflexivity | constructor].
  - constructor; [exact Hab|]. apply IH.
    intros l' a' E. apply (Hlast (a :: l') a'). simpl. now rewrite E.
Qed.

Lemma Chained_nth {A : Type} (R : A -> A -> Prop) (l : list A) :
  Chained R l ->
  forall i a b, nth_error l i = Some a -> nth_error l (S i) = Some b -> R a b.
Proof.
  intros Hl. induction Hl as [|a|a b l Hab Hl IH]; intros i x y Hx Hy.
  - destruct i; discriminate.
  - destruct i; simpl in Hy; [discriminate | destruct i; discriminate].
  - destruct i as [|i]; simpl in Hx, Hy.
    + congruence.
    + now apply (IH i).
Qed.

Lemma string_app_assoc (a b c : string) : (a ++ b) ++ c = a ++ b ++ c.
Proof. induction a; simpl; congruence. Qed.

Lemma string_app_nil_r (a : string) : a ++ EmptyString = a.
Proof. induction a; simpl; congruence. Qed.

Lemma chunkStep_chain (p : Processor) (sentences : list string)
    (st : list string * string) (s : string) :
  In s sentences ->
  chainInvariant p sentences st -> chainInvariant p sentences (chunkStep p st s).
Proof.
  intros Hs [Hchain Hlast]. destruct st as [chunks cur]. simpl in *.
  unfold chunkStep.
  destruct ((Z.of_nat (String.length (cur ++ s)) >? chunkSize p)%Z
            && (0 <? String.length cur)%nat).
  - split; simpl; unfold push.
    + apply Chained_snoc; [exact Hchain|].
      intros l' a E. destruct (Hlast l' a E) as [raw [Ha Hseed]].
      now exists raw, cur.
    + intros l a E. apply app_inj_tail in E as [_ <-].
      exists cur. split; [reflexivity|].
      exists s, EmptyString. split; [exact Hs|].
      now rewrite string_app_nil_r.
  - split; simpl; [exact Hchain|].
    intros l a E. destruct (Hlast l a E) as [raw [Ha [s0 [rest [Hs0 Hcur]]]]].
    exists raw. split; [exact Ha|].
    exists s0, (rest ++ s). split; [exact Hs0|].
    rewrite Hcur. now rewrite !string_app_assoc.
Qed.

Lemma chunkLoop_chain (p : Processor) (sentences ss : list string)
    (st : list string * string) :
  incl ss sentences ->
  chainInvariant p sentences st ->
  chainInvariant p sentences (chunkLoop p ss st).
Proof.
  unfold chunkLoop. revert st.
  induction ss as [|s ss IH]; intros st Hincl Hinv; simpl.
  - exact Hinv.
  - apply IH.
    + intros x Hx. apply Hincl. now right.
    + apply chunkStep_chain; [apply Hincl; now left | exact Hinv].
Qed.

Lemma chunkText_chained (p : Processor) (text : string) :
  Chained (linked p (sentencesOf (cleanText text))) (chunkText p text).
Proof.
  unfold chunkText.
  set (ss := sentencesOf (cleanText text)).
  destruct (chunkLoop_chain p ss ss ([], EmptyString) (incl_refl ss))
    as [Hchain Hlast].
  { split; simpl; [constructor | intros [|? ?] ? ?; discriminate]. }
  destruct (chunkLoop p ss ([], EmptyString)) as [chunks cur]. simpl in *.
  unfold flushBuffer.
  destruct (0 <? String.length (trim cur))%nat; [|exact Hchain].
  unfold push. apply Chained_snoc; [exact Hchain|].
  intros l' a E. destruct (Hlast l' a E) as [raw [Ha Hseed]].
  now exists raw, cur.
Qed.

(** From [chunkOverlap] 5 on, a chunk that follows another is the trim
    of a buffer that opens with the trailing [floor(chunkOverlap / 5)]
    space-separated words of the buffer closed before it, then a space
    and the sentence unit that did not fit. *)
Lemma next_chunk_opens_with_overlap (p : Processor) (text : string)
    (i : nat) (a b : string) :
  (1 <= chunkOverlap p / 5)%Z ->
  nth_error (chunkText p text) i = Some a ->
  nth_error (chunkText p text) (S i) = Some b ->
  exists raw s rest,
    a = trim raw
    /\ In s (sentencesOf (cleanText text))
    /\ b = trim (join " " (sliceLast (Z.to_nat (chunkOverlap p / 5))
                             (split " " raw))
                 ++ " " ++ s ++ rest).
Proof.
  intros Hk Ha Hb.
  destruct (Chained_nth _ _ (chunkText_chained p text) i a b Ha Hb)
    as [raw [next [Hraw [Hnext [s [rest [Hs Hseed]]]]]]].
  exists raw, s, rest. split; [exact Hraw|]. split; [exact Hs|].
  rewrite Hnext, Hseed. now rewrite overlapWords_positive.
Qed.

(** C2, at the failing input.  With chunk size 30 and overlap 10, a
    markdown file of two sections, the first cut into three chunks and
    the second kept whole, yields four chunks whose indices are 0, 1, 2
    and 1 again, and whose totals are 6, 6, 6 and 2.  With the default
    sizes, a file whose first section of 1127 characters is cut into two
    chunks and whose second is kept whole yields three chunks with
    indices 0, 1 and 1 and totals 4, 4 and 2. *)
Theorem markdown_indices_collide :
  splitByMarkdownHeaders twoSections
  = [ "# Intro" ++ LFs ++ "One two three. Four five six. Seven eight nine.";
      "# End" ++ LFs ++ "Bye." ]
  /\ map text (processMarkdown tiny "notes.md" twoSections)
     = [ "# Intro One two three."; "two three.  Four five six.";
         "five six.  Seven eight nine."; "# End" ++ LFs ++ "Bye." ]
  /\ chunkIndices (processMarkdown tiny "notes.md" twoSections)
     = [Some 0%Z; Some 1%Z; Some 2%Z; Some 1%Z]
  /\ totals (processMarkdown tiny "notes.md" twoSections)
     = [Some 6%Z; Some 6%Z; Some 6%Z; Some 2%Z]
  /\ map String.length (splitByMarkdownHeaders longNotes) = [1127; 10]%nat
  /\ chunkIndices (processMarkdown defaultProcessor "notes.md" longNotes)
     = [Some 0%Z; Some 1%Z; Some 1%Z]
  /\ totals (processMarkdown defaultProcessor "notes.md" longNotes)
     = [Some 4%Z; Some 4%Z; Some 2%Z].
Proof. repeat split; vm_compute; reflexivity. Qed.

(** C5, as amended.  A chunk is at most [chunkSize] long unless it is
    made of a single sentence unit: the unit alone, trimmed, or the
    overlap words, a space and the unit, trimmed, and then it is at most
    as long as the overlap words, the space and the unit together.  A
    unit is never cut, so a unit longer than [chunkSize] gives a chunk
    longer than [chunkSize]. *)
Theorem chunk_fits_or_is_one_unit (p : Processor) (text c : string) :
  In c (chunkText p text) ->
  (Z.of_nat (String.length c) <= chunkSize p)%Z
  \/ exists s, In s (sentencesOf (cleanText text))
       /\ ((c = trim s /\ (String.length c <= String.length s)%nat)
           \/ exists prev,
                c = trim (join " " (overlapWords p prev) ++ " " ++ s)
                /\ (String.length c
                    <= String.length (join " " (overlapWords p prev))
                       + 1 + String.length s)%nat).
Proof.
  intros Hc.
  destruct (chunkText_raw p text c Hc) as [raw [-> [Hfit | [s [Hs Hraw]]]]].
  - left. pose proof (trim_length raw). lia.
  - right. exists s. split; [exact Hs|].
    destruct Hraw as [-> | [prev ->]].
    + left. split; [reflexivity | apply trim_length].
    + right. exists prev. split; [reflexivity|].
      pose proof (trim_length (join " " (overlapWords p prev) ++ " " ++ s)) as H.
      rewrite !string_length_app in H.
      change (String.length " ") with 1%nat in H. lia.
Qed.

Lemma chunk_fits_or_is_one_unit_witness :
  (Z.of_nat (String.length "Aaaaaaaaaaaaaaaaaaaaaaaaaaaaaa bb.")
   <= chunkSize oneWord)%Z
  \/ exists s, In s (sentencesOf (cleanText longUnit))
       /\ (("Aaaaaaaaaaaaaaaaaaaaaaaaaaaaaa bb." = trim s
            /\ (String.length "Aaaaaaaaaaaaaaaaaaaaaaaaaaaaaa bb."
                <= String.length s)%nat)
           \/ exists prev,
                "Aaaaaaaaaaaaaaaaaaaaaaaaaaaaaa bb."
                = trim (join " " (overlapWords oneWord prev) ++ " " ++ s)
                /\ (String.length "Aaaaaaaaaaaaaaaaaaaaaaaaaaaaaa bb."
                    <= String.length (join " " (overlapWords oneWord prev))
                       + 1 + String.length s)%nat).
Proof.
  apply (chunk_fits_or_is_one_unit oneWord longUnit
           "Aaaaaaaaaaaaaaaaaaaaaaaaaaaaaa bb.").
  vm_compute. left. reflexivity.
Defined.

(** With chunk size 10 and an overlap of one word, the first chunk is a
    sentence unit of 34 characters and is not the last chunk; the only
    overlap word injected in the run is the three-character word that
    opens the second chunk. *)
Lemma long_unit_exceeds_bound :
  chunkText oneWord longUnit
  = ["Aaaaaaaaaaaaaaaaaaaaaaaaaaaaaa bb."; "bb.  Cc."]
  /\ overlapWords oneWord "Aaaaaaaaaaaaaaaaaaaaaaaaaaaaaa bb." = ["bb."]
  /\ ~ (Z.of_nat (String.length "Aaaaaaaaaaaaaaaaaaaaaaaaaaaaaa bb.")
        <= chunkSize oneWord + Z.of_nat (String.length "bb."))%Z.
Proof.
  split; [reflexivity|]. split; [reflexivity|]. vm_compute. tauto.
Qed.

(** *** A first chunk of any length *)

Lemma repeatChar_length (c : ascii) (n : nat) :
  String.length (repeatChar c n) = n.
Proof. induction n; simpl; auto. Qed.

Lemma plain_app (a b : string) :
  allChars isPlain a = true -> allChars isPlain b = true ->
  allChars isPlain (a ++ b) = true.
Proof.
  intros Ha Hb. induction a as [|c a IH]; simpl in *.
  - exact Hb.
  - apply andb_true_iff in Ha as [Hc Ha]. rewrite Hc. simpl. auto.
Qed.

Lemma plain_letters (n : nat) : allChars isPlain (repeatChar "a" n) = true.
Proof. induction n; simpl; [reflexivity | exact IHn]. Qed.

Lemma plain_longWord (n : nat) : allChars isPlain (longWord n) = true.
Proof. apply plain_app; [reflexivity | apply plain_letters]. Qed.

Lemma isPlain_spec (c : ascii) :
  isPlain c = true ->
  isSpace c = false /\ isTerminator c = false /\ Ascii.eqb c LF = false
  /\ Ascii.eqb c " " = false.
Proof.
  unfold isPlain. intros H.
  apply negb_true_iff, orb_false_iff in H as [Hs Ht].
  repeat split; try assumption.
  - destruct (Ascii.eqb_spec c LF) as [->|]; [discriminate | reflexivity].
  - destruct (Ascii.eqb_spec c " ") as [->|]; [discriminate | reflexivity].
Qed.

Lemma collapseNewlines_plain (w r : string) :
  allChars isPlain w = true ->
  collapseNewlinesFrom 0 (w ++ r) = w ++ collapseNewlinesFrom 0 r.
Proof.
  induction w as [|c w IH]; simpl; intros H.
  - reflexivity.
  - apply andb_true_iff in H as [Hc Hw].
    destruct (isPlain_spec c Hc) as [_ [_ [-> _]]].
    now rewrite IH.
Qed.

Lemma collapseSpaces_plain (w r : string) :
  allChars isPlain w = true ->
  collapseSpacesFrom false (w ++ r) = w ++ collapseSpacesFrom false r.
Proof.
  induction w as [|c w IH]; simpl; intros H.
  - reflexivity.
  - apply andb_true_iff in H as [Hc Hw].
    destruct (isPlain_spec c Hc) as [-> _].
    now rewrite IH.
Qed.

Lemma trimStart_plain (c : ascii) (w : string) :
  isPlain c = true -> trimStart (String c w) = String c w.
Proof.
  intros Hc. simpl. now destruct (isPlain_spec c Hc) as [-> _].
Qed.

Lemma trimEnd_app (w r : string) :
  trimEnd r <> EmptyString -> trimEnd (w ++ r) = w ++ trimEnd r.
Proof.
  intros Hr. induction w as [|c w IH]; simpl.
  - reflexivity.
  - rewrite IH. destruct (w ++ trimEnd r) eqn:E.
    + destruct w; simpl in E; [contradiction | discriminate].
    + reflexivity.
Qed.

Lemma scanSentences_plain (w acc r : string) :
  allChars isPlain w = true ->
  scanSentences InBody acc (w ++ r) = scanSentences InBody (acc ++ w) r.
Proof.
  revert acc; induction w as [|c w IH]; intros acc H; simpl.
  - now rewrite string_app_nil_r.
  - simpl in H. apply andb_true_iff in H as [Hc Hw].
    destruct (isPlain_spec c Hc) as [_ [-> _]].
    rewrite (IH _ Hw), string_app_assoc. reflexivity.
Qed.

Lemma split_plain (w r : string) :
  allChars isPlain w = true ->
  split " " (w ++ r)
  = match split " " r with
    | x :: xs => (w ++ x) :: xs
    | [] => [w]
    end.
Proof.
  induction w as [|c w IH]; simpl; intros H.
  - destruct r as [|d r]; simpl; [reflexivity|].
    destruct (Ascii.eqb d " "); [reflexivity|].
    destruct (split " " r); reflexivity.
  - apply andb_true_iff in H as [Hc Hw].
    destruct (isPlain_spec c Hc) as [_ [_ [_ ->]]].
    rewrite (IH Hw). destruct (split " " r); reflexivity.
Qed.

Lemma cleanText_stretched (n : nat) : cleanText (stretched n) = stretched n.
Proof.
  unfold cleanText, stretched, collapseNewlines, collapseSpaces, trim.
  rewrite (collapseNewlines_plain _ _ (plain_longWord n)).
  change (collapseNewlinesFrom 0 " bb. Cc.") with " bb. Cc.".
  rewrite (collapseSpaces_plain _ _ (plain_longWord n)).
  change (collapseSpacesFrom false " bb. Cc.") with " bb. Cc.".
  change (longWord n ++ " bb. Cc.")
    with (String "A" ("aaaaaaaaa" ++ repeatChar "a" n ++ " bb. Cc.")) at 1.
  rewrite trimStart_plain by reflexivity.
  change (String "A" ("aaaaaaaaa" ++ repeatChar "a" n ++ " bb. Cc."))
    with (longWord n ++ " bb. Cc.").
  rewrite trimEnd_app; [reflexivity | discriminate].
Qed.

Lemma sentencesOf_stretched (n : nat) :
  sentencesOf (stretched n) = [longWord n ++ " bb."; " Cc."].
Proof.
  unfold sentencesOf, matchSentences, stretched.
  change (scanSentences AtStart EmptyString (longWord n ++ " bb. Cc."))
    with (scanSentences InBody "A"
            (("aaaaaaaaa" ++ repeatChar "a" n) ++ " bb. Cc.")).
  rewrite scanSentences_plain
    by (apply plain_app; [reflexivity | apply plain_letters]).
  change ("A" ++ "aaaaaaaaa" ++ repeatChar "a" n) with (longWord n).
  change (scanSentences InBody (longWord n) " bb. Cc.")
    with [(((longWord n ++ " ") ++ "b") ++ "b") ++ "."; " Cc."].
  now rewrite !string_app_assoc.
Qed.

(** With chunk size 10 and one overlap word, the text [stretched n]
    gives two chunks, and the first is [n + 14] characters long. *)
Lemma chunkText_stretched (n : nat) :
  chunkText oneWord (stretched n) = [longWord n ++ " bb."; "bb.  Cc."].
Proof.
  unfold chunkText. rewrite cleanText_stretched, sentencesOf_stretched.
  set (s1 := longWord n ++ " bb.").
  assert (Hlen : String.length s1 = (n + 14)%nat).
  { unfold s1, longWord.
    rewrite !string_length_app, repeatChar_length. simpl. lia. }
  assert (Htrim : trim s1 = s1).
  { unfold s1, trim.
    change (longWord n ++ " bb.")
      with (String "A" ("aaaaaaaaa" ++ repeatChar "a" n ++ " bb.")) at 1.
    rewrite trimStart_plain by reflexivity.
    change (String "A" ("aaaaaaaaa" ++ repeatChar "a" n ++ " bb."))
      with (longWord n ++ " bb.").
    rewrite trimEnd_app; [reflexivity | discriminate]. }
  assert (Hwords : overlapWords oneWord s1 = ["bb."]).
  { unfold overlapWords, s1.
    rewrite (split_plain _ _ (plain_longWord n)). reflexivity. }
  unfold chunkLoop, fold_left, chunkStep.
  rewrite andb_false_r.
  change (EmptyString ++ s1) with s1.
  replace ((Z.of_nat (String.length (s1 ++ " Cc.")) >? chunkSize oneWord)%Z
           && (0 <? String.length s1)%nat) with true.
  - unfold flushBuffer. rewrite Htrim, Hwords. reflexivity.
  - symmetry. apply andb_true_iff. split.
    + rewrite string_length_app, Hlen. simpl String.length.
      apply Z.gtb_lt. simpl chunkSize. lia.
    + apply Nat.ltb_lt. lia.
Qed.

(** No number bounds the length of a chunk that is not the last. *)
Lemma nonfinal_chunk_length_unbounded (bound : nat) :
  exists text c rest,
    chunkText oneWord text = c :: rest /\ rest <> []
    /\ (bound < String.length c)%nat.
Proof.
  exists (stretched bound), (longWord bound ++ " bb."), ["bb.  Cc."].
  split; [apply chunkText_stretched|]. split; [discriminate|].
  unfold longWord. rewrite !string_length_app, repeatChar_length. simpl. lia.
Qed.

(** C7, at the failing input.  With [chunkOverlap] 0 the number of
    overlap words is 0, yet the slice keeps every word of the closed
    buffer, whatever the buffer: with chunk size 10 the second chunk of
    a two-sentence text opens with the whole first chunk. *)
Theorem zero_overlap_repeats_whole_chunk :
  (chunkOverlap noOverlap / 5 = 0)%Z
  /\ (forall cur, overlapWords noOverlap cur = split " " cur)
  /\ sentencesOf (cleanText "Aaa bbb. Ccc ddd.") = ["Aaa bbb."; " Ccc ddd."]
  /\ overlapWords noOverlap "Aaa bbb." = ["Aaa"; "bbb."]
  /\ chunkText noOverlap "Aaa bbb. Ccc ddd."
     = ["Aaa bbb."; "Aaa bbb.  Ccc ddd."].
Proof.
  split; [reflexivity|].
  split; [intros cur; now apply overlapWords_zero|].
  repeat split; vm_compute; reflexivity.
Qed.

End Chunker.

(* ================================================================== *)
(** ** Further properties of the service                              *)
(* ================================================================== *)

Module ServiceMore.
Import JS JSFacts RAGService Views MoreViews FallbackFacts ServiceFacts.

Lemma world_eta (Vector : Type) (w : World Vector) :
  {| service := service w; calls := calls w |} = w.
Proof. now destruct w. Qed.

Lemma initialize_run (Vector : Type) (env : Env) (b : Backends Vector)
    (w : World Vector) :
  initialize Vector env b w
  = (Returns tt,
     {| service := initializedService Vector env b (service w);
        calls := calls w |}).
Proof.
  unfold initialize, initializedService, bind, getService, tryCatch,
    setService, liftOutcome, ret.
  cbn. destruct (isInitialized (service w)).
  - now rewrite world_eta.
  - destruct (truthy (PINECONE_API_KEY env)); [|reflexivity].
    destruct (newPinecone b _); reflexivity.
Qed.

Lemma initializedService_marked (Vector : Type) (env : Env)
    (b : Backends Vector) (s : Service) :
  isInitialized (initializedService Vector env b s) = true.
Proof.
  unfold initializedService. destruct (isInitialized s) eqn:E; auto.
Qed.

(** X1.  [initialize] works once: run again, with whatever environment and
    services, it changes nothing.  A service that was initialised
    without a vector client keeps none, also when the key is set
    later. *)
Theorem initialize_only_once (Vector : Type) (env1 env2 : Env)
    (b1 b2 : Backends Vector) (w : World Vector) :
  initialize Vector env2 b2 (snd (initialize Vector env1 b1 w))
  = (Returns tt, snd (initialize Vector env1 b1 w))
  /\ isInitialized (service (snd (initialize Vector env1 b1 w))) = true
  /\ calls (snd (initialize Vector env1 b1 w)) = calls w.
Proof.
  rewrite (initialize_run Vector env1 b1 w). cbn [snd].
  rewrite initialize_run. cbn [service calls].
  unfold initializedService at 1.
  rewrite initializedService_marked.
  repeat split.
Qed.

(** The calls of one search, and the world it leaves. *)
Lemma search_trace (Vector : Type) (c : ContentData) (b : Backends Vector)
    (q : string) (topK : Z) (w : World Vector) :
  exists pre,
    searchCalls q topK pre
    /\ (pinecone (service w) = None -> pre = [])
    /\ searchVectorStore Vector c b q topK w
       = (fst (searchVectorStore Vector c b q topK w),
          {| service := service w; calls := (calls w ++ pre)%list |}).
Proof.
  unfold searchCalls.
  destruct (pinecone (service w)) as [k|] eqn:Hk.
  - destruct (embeddingsCreate b embeddingModel q) as [v|e] eqn:Hv.
    + destruct (indexQuery b (indexName (service w)) v topK) as [ms|e] eqn:Hi.
      * rewrite (search_returns_matches Vector c b q topK w k v ms Hk Hv Hi).
        exists [EmbeddingsCreate embeddingModel q;
                IndexQuery (indexName (service w)) v topK].
        split; [right; right; now exists (indexName (service w)), v|].
        split; [discriminate|].
        unfold push. cbn [fst]. now rewrite <- app_assoc.
      * rewrite (search_index_throws Vector c b q topK w k v e Hk Hv Hi).
        exists [EmbeddingsCreate embeddingModel q;
                IndexQuery (indexName (service w)) v topK].
        split; [right; right; now exists (indexName (service w)), v|].
        split; [discriminate|].
        unfold push. cbn [fst]. now rewrite <- app_assoc.
    + rewrite (search_embedding_throws Vector c b q topK w k e Hk Hv).
      exists [EmbeddingsCreate embeddingModel q].
      split; [right; now left|]. split; [discriminate|]. reflexivity.
  - rewrite (search_no_client Vector c b q topK w Hk).
    exists []. split; [now left|]. split; [reflexivity|].
    cbn [fst]. now rewrite app_nil_r, world_eta.
Qed.

Lemma query_run (Vector : Type) (c : ContentData) (env : Env)
    (b : Backends Vector) (q : string) (h : list Message) (w : World Vector) :
  truthy (OPENAI_API_KEY env) = true ->
  exists pre,
    searchCalls q 5 pre
    /\ (pinecone (initializedService Vector env b (service w)) = None ->
        pre = [])
    /\ query Vector c env b q h w
       = (match fst (searchVectorStore Vector c b q 5
                       (snd (initialize Vector env b w))) with
          | Returns contexts =>
              classify
                (chatCompletionsCreate b "gpt-4o-mini" systemMessage
                   (buildPrompt q contexts h) 500)
          | Throws e => Throws e
          end,
          {| service := initializedService Vector env b (service w);
             calls :=
               (calls w ++ pre
                ++ match fst (searchVectorStore Vector c b q 5
                                (snd (initialize Vector env b w))) with
                   | Returns contexts => [completionCall Vector q contexts h]
                   | Throws _ => []
                   end)%list |}).
Proof.
  intros Hkey.
  destruct (search_trace Vector c b q 5 (snd (initialize Vector env b w)))
    as [pre [Hpre [Hnone Hs]]].
  destruct (fst (searchVectorStore Vector c b q 5
                   (snd (initialize Vector env b w)))) as [contexts|e].
  - rewrite (query_configured Vector c env b q h w contexts _ Hkey Hs).
    rewrite initialize_run in Hnone. cbn [snd service calls] in Hnone.
    exists pre. split; [exact Hpre|]. split; [exact Hnone|].
    rewrite initialize_run. cbn [snd service calls]. unfold push.
    now rewrite <- app_assoc.
  - rewrite (query_search_throws Vector c env b q h w e _ Hkey Hs).
    rewrite initialize_run in Hnone. cbn [snd service calls] in Hnone.
    exists pre. split; [exact Hpre|]. split; [exact Hnone|].
    rewrite initialize_run. cbn [snd service calls].
    now rewrite app_nil_r.
Qed.

Lemma query_run_no_key (Vector : Type) (c : ContentData) (env : Env)
    (b : Backends Vector) (q : string) (h : list Message) (w : World Vector) :
  truthy (OPENAI_API_KEY env) = false ->
  query Vector c env b q h w
  = (Returns notConfigured,
     {| service := initializedService Vector env b (service w);
        calls := calls w |}).
Proof.
  intros Hkey. unfold query, bind, tryCatch.
  rewrite initialize_run, Hkey. reflexivity.
Qed.

(** X2.  With the language-model key set, [query] ends in one of two ways.
    When the search returns a list, the outcome is decided by the
    completion call on the prompt built from that list: its text is
    returned as it is, a missing or empty text gives the fixed regret,
    an [Error] whose message holds [API key] gives the fixed apology,
    and any other thrown value is thrown again.  When the search throws,
    [query] throws the same value: the apology is never given for it. *)
Theorem query_outcome (Vector : Type) (c : ContentData) (env : Env)
    (b : Backends Vector) (q : string) (h : list Message) (w : World Vector) :
  truthy (OPENAI_API_KEY env) = true ->
  fst (query Vector c env b q h w)
  = match fst (searchVectorStore Vector c b q 5
                 (snd (initialize Vector env b w))) with
    | Returns contexts =>
        classify
          (chatCompletionsCreate b "gpt-4o-mini" systemMessage
             (buildPrompt q contexts h) 500)
    | Throws e => Throws e
    end.
Proof.
  intros Hkey.
  destruct (query_run Vector c env b q h w Hkey) as [pre [_ [_ ->]]].
  reflexivity.
Qed.

(** X3.  A [query] with the language-model key set adds to the history of
    calls at most one embedding call and one index call, in that order,
    and then, when the search has returned a list, exactly one
    completion call, whose prompt is built from that list; when the
    search has thrown there is no completion call.  Without a vector
    client neither the embedding nor the index call is made. *)
Theorem query_call_sequence (Vector : Type) (c : ContentData) (env : Env)
    (b : Backends Vector) (q : string) (h : list Message) (w : World Vector) :
  truthy (OPENAI_API_KEY env) = true ->
  exists pre,
    searchCalls q 5 pre
    /\ (pinecone (service (snd (initialize Vector env b w))) = None ->
        pre = [])
    /\ calls (snd (query Vector c env b q h w))
       = (calls w ++ pre
          ++ match fst (searchVectorStore Vector c b q 5
                          (snd (initialize Vector env b w))) with
             | Returns contexts => [completionCall Vector q contexts h]
             | Throws _ => []
             end)%list.
Proof.
  intros Hkey.
  destruct (query_run Vector c env b q h w Hkey) as [pre [H1 [H2 H3]]].
  exists pre. split; [exact H1|]. split.
  - rewrite initialize_run. exact H2.
  - now rewrite H3.
Qed.

(** X4.  A service left without a vector client by its first initialisation
    (no Pinecone key then, or a constructor that threw) stays so: every
    later [query], whatever the environment and the services then are,
    reads its context from the fallback selector and calls neither the
    embedding nor the index backend. *)
Theorem fallback_mode_is_kept (Vector : Type) (c : ContentData)
    (env1 : Env) (b1 : Backends Vector) (q1 : string) (h1 : list Message)
    (w : World Vector) :
  pinecone (service w) = None ->
  (isInitialized (service w) = true
   \/ truthy (PINECONE_API_KEY env1) = false
   \/ exists e, newPinecone b1 (render (PINECONE_API_KEY env1)) = Throws e) ->
  pinecone (service (snd (query Vector c env1 b1 q1 h1 w))) = None
  /\ isInitialized (service (snd (query Vector c env1 b1 q1 h1 w))) = true
  /\ forall env2 b2 q2 h2,
       calls (snd (query Vector c env2 b2 q2 h2
                     (snd (query Vector c env1 b1 q1 h1 w))))
       = (calls (snd (query Vector c env1 b1 q1 h1 w))
          ++ if truthy (OPENAI_API_KEY env2)
             then match getFallbackContext c q2 with
                  | Returns contexts => [completionCall Vector q2 contexts h2]
                  | Throws _ => []
                  end
             else [])%list.
Proof.
  intros Hnone Hinit.
  set (w1 := snd (query Vector c env1 b1 q1 h1 w)).
  assert (Hs : service w1 = initializedService Vector env1 b1 (service w)).
  { unfold w1. destruct (truthy (OPENAI_API_KEY env1)) eqn:Hkey.
    - destruct (query_run Vector c env1 b1 q1 h1 w Hkey) as [pre [_ [_ ->]]].
      reflexivity.
    - now rewrite (query_run_no_key Vector c env1 b1 q1 h1 w Hkey). }
  assert (Hp : pinecone (service w1) = None).
  { rewrite Hs. unfold initializedService.
    destruct (isInitialized (service w)) eqn:Ei; [exact Hnone|]. cbn.
    destruct Hinit as [H | [H | [e H]]].
    - discriminate.
    - now rewrite H.
    - rewrite H. now destruct (truthy (PINECONE_API_KEY env1)). }
  assert (Hi : isInitialized (service w1) = true)
    by (rewrite Hs; apply initializedService_marked).
  split; [exact Hp|]. split; [exact Hi|].
  intros env2 b2 q2 h2.
  assert (Hkeep : initializedService Vector env2 b2 (service w1) = service w1)
    by (unfold initializedService; now rewrite Hi).
  destruct (truthy (OPENAI_API_KEY env2)) eqn:Hkey.
  - destruct (query_run Vector c env2 b2 q2 h2 w1 Hkey) as [pre [_ [Hpre ->]]].
    cbn [snd calls]. rewrite Hkeep in Hpre. rewrite (Hpre Hp). cbn [app].
    rewrite initialize_run. cbn [snd].
    rewrite search_no_client by (cbn [service]; now rewrite Hkeep).
    reflexivity.
  - rewrite (query_run_no_key Vector c env2 b2 q2 h2 w1 Hkey).
    cbn. now rewrite app_nil_r.
Qed.

Lemma usableText_spec (m : ScoredMatch) (t : string) :
  usableText m = Some t <-> hasText m = true /\ textOf m = t.
Proof.
  unfold usableText, hasText, textOf, truthy, render.
  destruct (matchMetadata m) as [md|].
  - destruct (mtext md) as [[|ch r]|]; split;
      try (intros [H1 H2]); try intros H; try discriminate;
      try congruence; try (inversion H; auto).
  - split; [discriminate | intros [H _]; discriminate].
Qed.

(** X5.  The texts the search keeps from the matches of the index: each is
    the non-empty text of a match, matches without metadata or without
    text are dropped, and no more texts than matches are kept.  The
    number asked for, [topK], is sent to the index and not enforced on
    what comes back. *)
Theorem search_keeps_nonempty_texts (Vector : Type) (c : ContentData)
    (b : Backends Vector) (q : string) (topK : Z) (w : World Vector)
    (ms : list ScoredMatch) :
  searchSucceeds Vector b q topK w (Some ms) ->
  fst (searchVectorStore Vector c b q topK w)
  = Returns (map textOf (filter hasText ms))
  /\ (List.length (map textOf (filter hasText ms)) <= List.length ms)%nat
  /\ (forall t, In t (map textOf (filter hasText ms)) <->
                exists m, In m ms /\ usableText m = Some t)
  /\ (forall t, In t (map textOf (filter hasText ms)) -> t <> EmptyString).
Proof.
  intros Hs.
  destruct (search_succeeds Vector c b q topK w (Some ms) Hs) as [w1 E].
  split; [now rewrite E|].
  assert (Hin : forall t, In t (map textOf (filter hasText ms)) <->
                          exists m, In m ms /\ usableText m = Some t).
  { intros t. rewrite in_map_iff. split.
    - intros [m [Ht Hm]]. apply filter_In in Hm as [Hm Hh].
      exists m. split; [exact Hm|]. now apply usableText_spec.
    - intros [m [Hm Hu]]. apply usableText_spec in Hu as [Hh Ht].
      exists m. split; [exact Ht|]. apply filter_In. now split. }
  split; [|split; [exact Hin|]].
  - rewrite length_map. apply filter_length_le.
  - intros t Ht. apply Hin in Ht as [m [_ Hu]].
    unfold usableText in Hu.
    destruct (matchMetadata m) as [md|]; [|discriminate].
    destruct (mtext md) as [[|ch r]|]; try discriminate.
    inversion Hu. discriminate.
Qed.

Lemma sliceLast_length {A : Type} (n : nat) (l : list A) :
  List.length (sliceLast n l) = Nat.min n (List.length l).
Proof. unfold sliceLast. rewrite length_skipn. lia. Qed.

Lemma sliceLast_idempotent {A : Type} (n : nat) (l : list A) :
  sliceLast n (sliceLast n l) = sliceLast n l.
Proof.
  unfold sliceLast at 1. rewrite sliceLast_length.
  replace (Nat.min n (List.length l) - n)%nat with 0%nat by lia.
  reflexivity.
Qed.

(** X6.  Only the last six messages of the history reach the prompt: the
    messages before them change nothing. *)
Theorem prompt_uses_last_six_messages (q : string) (contexts : list string)
    (older recent : list Message) :
  (6 <= List.length recent)%nat ->
  buildPrompt q contexts (older ++ recent)%list
  = buildPrompt q contexts recent
  /\ buildPrompt q contexts recent
     = buildPrompt q contexts (sliceLast 6 recent).
Proof.
  intros Hlen.
  assert (Hmain : forall l : list Message,
            buildPrompt q contexts l = buildPrompt q contexts (sliceLast 6 l)).
  { intros l. unfold buildPrompt. rewrite sliceLast_idempotent.
    rewrite sliceLast_length.
    replace (0 <? Nat.min 6 (List.length l))%nat
      with (0 <? List.length l)%nat; [reflexivity|].
    destruct l; reflexivity. }
  split; [|apply Hmain].
  rewrite (Hmain (older ++ recent)%list), (Hmain recent). f_equal.
  unfold sliceLast. rewrite length_app.
  replace (List.length older + List.length recent - 6)%nat
    with (List.length older + (List.length recent - 6))%nat by lia.
  rewrite skipn_app.
  replace (List.length older + (List.length recent - 6) - List.length older)%nat
    with (List.length recent - 6)%nat by lia.
  rewrite skipn_all2 by lia. reflexivity.
Qed.

Lemma includes_self (s : string) : includes s s = true.
Proof.
  apply includes_spec. exists EmptyString, EmptyString. simpl.
  clear. induction s; simpl; congruence.
Qed.

Lemma string_assoc (a b c : string) : (a ++ b) ++ c = a ++ b ++ c.
Proof. induction a; simpl; congruence. Qed.

Lemma includes_app_r (a b x : string) :
  includes b x = true -> includes (a ++ b) x = true.
Proof.
  rewrite !includes_spec. intros [u [v ->]].
  exists (a ++ u), v. now rewrite string_assoc.
Qed.

Lemma includes_app_l (a b x : string) :
  includes a x = true -> includes (a ++ b) x = true.
Proof.
  rewrite !includes_spec. intros [u [v ->]].
  exists u, (v ++ b). now rewrite !string_assoc.
Qed.

Lemma includes_join (sep : string) (l : list string) (x : string) :
  In x l -> includes (join sep l) x = true.
Proof.
  unfold join. induction l as [|y l IH]; intros Hin; [contradiction|].
  destruct l as [|z l].
  - destruct Hin as [-> | []]. apply includes_self.
  - cbn [String.concat]. destruct Hin as [-> | Hin].
    + apply includes_app_l, includes_self.
    + apply includes_app_r, includes_app_r. now apply IH.
Qed.

(** Drops the leading parts of a concatenation up to the part [x]. *)
Ltac peel_until x :=
  repeat lazymatch goal with
         | |- includes (x ++ _) _ = true => fail
         | |- includes (_ ++ _) _ = true => apply includes_app_r
         end.

(** X7.  The prompt holds the question as it was typed, every context string
    whole, and the line of each of the last six messages: nothing of
    them is cut, escaped or left out. *)
Theorem prompt_holds_its_inputs (q : string) (contexts : list string)
    (h : list Message) :
  includes (buildPrompt q contexts h) ("USER QUESTION: " ++ q) = true
  /\ (forall c, In c contexts -> includes (buildPrompt q contexts h) c = true)
  /\ (forall m, In m (sliceLast 6 h) ->
        includes (buildPrompt q contexts h) (historyLine m) = true).
Proof.
  unfold buildPrompt. split; [|split].
  - peel_until "USER QUESTION: ".
    rewrite <- string_assoc. apply includes_app_l, includes_self.
  - intros c Hc. peel_until (join (nl ++ nl) contexts).
    apply includes_app_l. now apply includes_join.
  - intros m Hm.
    assert (Hpos : (0 <? List.length h)%nat = true).
    { destruct h; [destruct Hm | reflexivity]. }
    rewrite Hpos.
    set (lines := join nl (map _ (sliceLast 6 h))).
    assert (Hl : includes lines (historyLine m) = true).
    { apply includes_join. apply in_map_iff. now exists m. }
    assert (Hne : (0 <? String.length lines)%nat = true).
    { apply includes_spec in Hl as [u [v E]]. rewrite E.
      unfold historyLine. destruct u; [|reflexivity].
      destruct (msgRole m); reflexivity. }
    rewrite Hne.
    peel_until ("CONVERSATION HISTORY:" ++ nl ++ lines ++ nl).
    apply includes_app_l. peel_until lines.
    now apply includes_app_l.
Qed.

Import Samples MoreSamples.

Lemma query_outcome_witness :
  fst (query unit smallContent bothKeys emptyIndex "Who is he?" [] freshWorld)
  = Returns "Hello!".
Proof.
  apply (query_outcome unit smallContent bothKeys emptyIndex "Who is he?" []
           freshWorld).
  reflexivity.
Defined.

Lemma query_call_sequence_witness :
  exists pre,
    searchCalls "Who is he?" 5 pre
    /\ (pinecone (service (snd (initialize unit bothKeys emptyIndex
                                  freshWorld))) = None ->
        pre = [])
    /\ calls (snd (query unit smallContent bothKeys emptyIndex "Who is he?"
                     [] freshWorld))
       = (calls freshWorld ++ pre
          ++ match fst (searchVectorStore unit smallContent emptyIndex
                          "Who is he?" 5
                          (snd (initialize unit bothKeys emptyIndex
                                  freshWorld))) with
             | Returns contexts => [completionCall unit "Who is he?" contexts []]
             | Throws _ => []
             end)%list.
Proof.
  apply (query_call_sequence unit smallContent bothKeys emptyIndex
           "Who is he?" [] freshWorld).
  reflexivity.
Defined.

Lemma fallback_mode_is_kept_witness :
  pinecone (service (snd (query unit smallContent noKeys emptyIndex
                            "Who is he?" [] freshWorld))) = None.
Proof.
  apply (fallback_mode_is_kept unit smallContent noKeys emptyIndex
           "Who is he?" [] freshWorld).
  - reflexivity.
  - right. left. reflexivity.
Defined.

Lemma search_keeps_nonempty_texts_witness :
  fst (searchVectorStore unit smallContent matchingIndex "Who is he?" 5
         clientWorld)
  = Returns (map textOf (filter hasText mixedMatches)).
Proof.
  apply (search_keeps_nonempty_texts unit smallContent matchingIndex
           "Who is he?" 5 clientWorld mixedMatches).
  split; [discriminate|]. exists tt. split; reflexivity.
Defined.

Lemma prompt_uses_last_six_messages_witness :
  buildPrompt "Since when?" ["Contact: me@example.com"]
    (said User "Long ago" :: sixMessages)
  = buildPrompt "Since when?" ["Contact: me@example.com"] sixMessages.
Proof.
  apply (prompt_uses_last_six_messages "Since when?"
           ["Contact: me@example.com"] [said User "Long ago"] sixMessages).
  simpl. lia.
Defined.

Lemma prompt_holds_its_inputs_witness :
  includes (buildPrompt "Since when?" ["Contact: me@example.com"] sixMessages)
    "Contact: me@example.com" = true.
Proof.
  pose proof (prompt_holds_its_inputs "Since when?"
                ["Contact: me@example.com"] sixMessages) as [_ [H _]].
  apply H. left. reflexivity.
Defined.

End ServiceMore.

(* ================================================================== *)
(** ** Further properties of the fallback context selector            *)
(* ================================================================== *)

Module SelectorMore.
Import JS JSFacts RAGService Views MoreViews FallbackFacts.

(** X8.  The selector throws exactly when the query asks for the
    education strings and an education entry has no courses; in every
    other case it returns between four and ten strings, the first four
    being the about, contact, links and skills strings. *)
Theorem fallback_size_and_head (c : ContentData) (q : string) :
  (fallbackFails c q = true ->
   getFallbackContext c q = Throws joinOfUndefined)
  /\ (fallbackFails c q = false ->
      exists l,
        getFallbackContext c q = Returns l
        /\ (4 <= List.length l <= 10)%nat
        /\ firstn 4 l = aboutLines c).
Proof.
  rewrite getFallbackContext_eq.
  set (rest := (experienceLines c (toLowerCase q)
                ++ projectLines c (toLowerCase q)
                ++ educationLines c (toLowerCase q))%list).
  split; intros H; rewrite H; [reflexivity|].
  eexists. split; [reflexivity|]. split.
  - rewrite length_firstn, length_app, aboutLines_length. lia.
  - rewrite firstn_firstn. change (Nat.min 4 10) with 4%nat.
    rewrite firstn_app, aboutLines_length. cbn [Nat.sub firstn].
    rewrite app_nil_r. reflexivity.
Qed.

(** X9.  When the test for experience entries holds and there are six
    entries or more, the returned list is the four leading strings and
    the strings of the first six entries: no project and no education
    string is returned, whatever the query asks for.  (A query that asks
    for the education strings of content with an education entry
    without courses makes the selector throw all the same.) *)
Theorem experience_fills_the_cap (c : ContentData) (q : string) :
  wantsExperience c (toLowerCase q) = true ->
  (6 <= List.length (experience c))%nat ->
  getFallbackContext c q
  = if fallbackFails c q then Throws joinOfUndefined
    else Returns
           (aboutLines c ++ firstn 6 (map experienceLine (experience c)))%list.
Proof.
  intros Hw Hlen. rewrite getFallbackContext_eq.
  destruct (fallbackFails c q); [reflexivity|]. f_equal.
  unfold experienceLines. rewrite Hw.
  rewrite firstn_app, aboutLines_length.
  change (10 - 4)%nat with 6%nat.
  replace (firstn 10 (aboutLines c)) with (aboutLines c) by reflexivity.
  f_equal. rewrite firstn_app, length_map.
  replace (6 - List.length (experience c))%nat with 0%nat by lia.
  cbn [firstn]. now rewrite app_nil_r.
Qed.

(** X10.  An experience entry whose company name holds no letter and no digit
    makes the test for experience entries hold for every query. *)
Theorem blank_company_matches_every_query (c : ContentData)
    (e : ExperienceItem) (q : string) :
  In e (experience c) ->
  stripNonAlnum (toLowerCase (company e)) = EmptyString ->
  wantsExperience c (toLowerCase q) = true
  /\ experienceLines c (toLowerCase q) = map experienceLine (experience c).
Proof.
  intros Hin Hblank.
  assert (Hw : wantsExperience c (toLowerCase q) = true).
  { apply wantsExperience_spec. right. exists e. split; [exact Hin|].
    left. rewrite Hblank. exists (stripNonAlnum (toLowerCase q)), EmptyString.
    simpl. clear. induction (stripNonAlnum (toLowerCase q)); simpl; congruence. }
  split; [exact Hw|]. unfold experienceLines. now rewrite Hw.
Qed.

Import Samples MoreSamples.

Lemma fallback_size_and_head_witness :
  getFallbackContext noCourses "Which degree?" = Throws joinOfUndefined
  /\ exists l,
       getFallbackContext noCourses "Who is he?" = Returns l
       /\ (4 <= List.length l <= 10)%nat
       /\ firstn 4 l = aboutLines noCourses.
Proof.
  split.
  - apply (proj1 (fallback_size_and_head noCourses "Which degree?")).
    reflexivity.
  - apply (proj2 (fallback_size_and_head noCourses "Who is he?")).
    reflexivity.
Defined.

Lemma experience_fills_the_cap_witness :
  getFallbackContext sevenJobs "Where did he work?"
  = Returns (aboutLines sevenJobs
             ++ firstn 6 (map experienceLine (experience sevenJobs)))%list.
Proof.
  apply (experience_fills_the_cap sevenJobs "Where did he work?").
  - reflexivity.
  - simpl. lia.
Defined.

Lemma blank_company_matches_every_query_witness :
  wantsExperience blankCompany (toLowerCase "Any hobbies?") = true.
Proof.
  apply (blank_company_matches_every_query blankCompany (job "---")
           "Any hobbies?").
  - left. reflexivity.
  - reflexivity.
Defined.

End SelectorMore.

(* ================================================================== *)
(** ** Further properties of the chunker                              *)
(* ================================================================== *)

Module TrimFacts.
Import JS JSFacts DocumentProcessor Views MoreViews.

Lemma allChars_app (P : ascii -> bool) (a b : string) :
  allChars P (a ++ b) = allChars P a && allChars P b.
Proof.
  induction a as [|c a IH]; simpl; [reflexivity|].
  now rewrite IH, andb_assoc.
Qed.

Lemma trimStart_starts (s : string) : startsWithSpace (trimStart s) = false.
Proof.
  induction s as [|c s IH]; simpl; [reflexivity|].
  destruct (isSpace c) eqn:E; [exact IH | simpl; exact E].
Qed.

Lemma trimEnd_ends (s : string) : endsWithSpace (trimEnd s) = false.
Proof.
  induction s as [|c s IH]; simpl; [reflexivity|].
  destruct (trimEnd s) as [|d t] eqn:E.
  - destruct (isSpace c) eqn:Ec; simpl; [reflexivity | exact Ec].
  - exact IH.
Qed.

Lemma trimEnd_starts (s : string) :
  startsWithSpace s = false -> startsWithSpace (trimEnd s) = false.
Proof.
  destruct s as [|c s]; simpl; [reflexivity|]. intros Hc.
  destruct (trimEnd s); [rewrite Hc|]; simpl; auto.
Qed.

Lemma trimStart_id (s : string) :
  startsWithSpace s = false -> trimStart s = s.
Proof. destruct s as [|c s]; simpl; [reflexivity|]. now intros ->. Qed.

Lemma trimEnd_id (s : string) : endsWithSpace s = false -> trimEnd s = s.
Proof.
  induction s as [|c s IH]; simpl; [reflexivity|].
  destruct s as [|d s].
  - simpl. now intros ->.
  - intros H. rewrite (IH H). reflexivity.
Qed.

Lemma trim_starts (s : string) : startsWithSpace (trim s) = false.
Proof. apply trimEnd_starts, trimStart_starts. Qed.

Lemma trim_ends (s : string) : endsWithSpace (trim s) = false.
Proof. apply trimEnd_ends. Qed.

Lemma trim_id (s : string) :
  startsWithSpace s = false -> endsWithSpace s = false -> trim s = s.
Proof.
  intros H1 H2. unfold trim. rewrite (trimStart_id s H1).
  now apply trimEnd_id.
Qed.

Lemma trim_idempotent (s : string) : trim (trim s) = trim s.
Proof. apply trim_id; [apply trim_starts | apply trim_ends]. Qed.

Lemma trimEnd_blank (s : string) :
  trimEnd s = EmptyString <-> allChars isSpace s = true.
Proof.
  induction s as [|c s IH]; simpl; [tauto|].
  destruct (trimEnd s) as [|d t] eqn:E.
  - destruct (isSpace c); simpl.
    + rewrite <- IH. tauto.
    + split; discriminate.
  - split; [discriminate|]. intros H.
    apply andb_true_iff in H as [_ H]. apply IH in H. discriminate.
Qed.

Lemma trimStart_allSpace (s : string) :
  allChars isSpace (trimStart s) = allChars isSpace s.
Proof.
  induction s as [|c s IH]; simpl; [reflexivity|].
  destruct (isSpace c) eqn:E; simpl; [exact IH | now rewrite E].
Qed.

Lemma trim_blank (s : string) :
  trim s = EmptyString <-> allChars isSpace s = true.
Proof. unfold trim. now rewrite trimEnd_blank, trimStart_allSpace. Qed.

Lemma trim_ink (s : string) : hasInk s = true -> trim s <> EmptyString.
Proof.
  unfold hasInk. intros H E. apply trim_blank in E. rewrite E in H.
  discriminate.
Qed.

Lemma trimStart_allChars (P : ascii -> bool) (s : string) :
  allChars P s = true -> allChars P (trimStart s) = true.
Proof.
  induction s as [|c s IH]; simpl; [reflexivity|]. intros H.
  apply andb_true_iff in H as [Hc Hs].
  destruct (isSpace c); [auto | simpl; now rewrite Hc].
Qed.

Lemma trimEnd_allChars (P : ascii -> bool) (s : string) :
  allChars P s = true -> allChars P (trimEnd s) = true.
Proof.
  induction s as [|c s IH]; simpl; [reflexivity|]. intros H.
  apply andb_true_iff in H as [Hc Hs]. specialize (IH Hs).
  destruct (trimEnd s).
  - destruct (isSpace c); simpl; [reflexivity | now rewrite Hc].
  - cbn [allChars] in *. now rewrite Hc.
Qed.

Lemma trim_allChars (P : ascii -> bool) (s : string) :
  allChars P s = true -> allChars P (trim s) = true.
Proof. intros H. now apply trimEnd_allChars, trimStart_allChars. Qed.

Lemma noDoubleSpace_tail (c : ascii) (s : string) :
  noDoubleSpace (String c s) = true -> noDoubleSpace s = true.
Proof.
  simpl. destruct s; [reflexivity|]. intros H.
  now apply andb_true_iff in H as [_ H].
Qed.

Lemma trimStart_noDouble (s : string) :
  noDoubleSpace s = true -> noDoubleSpace (trimStart s) = true.
Proof.
  induction s as [|c s IH]; [reflexivity|]. intros H. simpl.
  destruct (isSpace c); [|exact H].
  apply IH. now apply noDoubleSpace_tail in H.
Qed.

Lemma trimEnd_noDouble (s : string) :
  noDoubleSpace s = true -> noDoubleSpace (trimEnd s) = true.
Proof.
  induction s as [|c s IH]; [reflexivity|]. intros H.
  pose proof (IH (noDoubleSpace_tail c s H)) as IH'.
  cbn [trimEnd]. destruct (trimEnd s) as [|d t] eqn:E.
  - destruct (isSpace c); reflexivity.
  - destruct s as [|d' s']; [discriminate|].
    assert (Hd : d = d').
    { cbn [trimEnd] in E. destruct (trimEnd s'); [destruct (isSpace d')|];
        congruence. }
    subst d'. cbn [noDoubleSpace] in H |- *.
    apply andb_true_iff in H as [H1 _]. now rewrite H1.
Qed.

End TrimFacts.

Module CleanFacts.
Import JS JSFacts DocumentProcessor Views MoreViews TrimFacts.

Lemma spaceOnly_space (c : ascii) :
  spaceOnly c = true -> isSpace c = true -> c = " "%char.
Proof.
  unfold spaceOnly. intros H Hs. rewrite Hs in H. simpl in H.
  now apply Ascii.eqb_eq.
Qed.

Lemma spaceOnly_not_LF (c : ascii) :
  spaceOnly c = true -> Ascii.eqb c LF = false.
Proof.
  intros H. destruct (Ascii.eqb_spec c LF) as [->|]; [discriminate|reflexivity].
Qed.

Lemma collapseSpaces_spaceOnly (b : bool) (s : string) :
  allChars spaceOnly (collapseSpacesFrom b s) = true.
Proof.
  revert b; induction s as [|c s IH]; intros b; simpl; [reflexivity|].
  destruct (isSpace c) eqn:E.
  - destruct b; simpl; auto.
  - simpl. unfold spaceOnly at 1. rewrite E. simpl. auto.
Qed.

Lemma collapseSpaces_noDouble (b : bool) (s : string) :
  noDoubleSpace (collapseSpacesFrom b s) = true
  /\ (b = true -> startsWithSpace (collapseSpacesFrom b s) = false).
Proof.
  revert b; induction s as [|c s IH]; intros b; [split; reflexivity|].
  cbn [collapseSpacesFrom]. destruct (isSpace c) eqn:E.
  - destruct (IH true) as [H1 H2]. specialize (H2 eq_refl).
    destruct b; [auto|]. split; [|discriminate].
    destruct (collapseSpacesFrom true s) as [|d t]; [reflexivity|].
    cbn [startsWithSpace] in H2.
    change (noDoubleSpace (String " " (String d t)))
      with (negb (isSpace " " && isSpace d) && noDoubleSpace (String d t)).
    rewrite H2, andb_false_r. exact H1.
  - destruct (IH false) as [H1 _]. split; [|intros _; exact E].
    destruct (collapseSpacesFrom false s) as [|d t]; [reflexivity|].
    change (noDoubleSpace (String c (String d t)))
      with (negb (isSpace c && isSpace d) && noDoubleSpace (String d t)).
    rewrite E. exact H1.
Qed.

Lemma collapseSpaces_id (b : bool) (s : string) :
  allChars spaceOnly s = true -> noDoubleSpace s = true ->
  (b = true -> startsWithSpace s = false) ->
  collapseSpacesFrom b s = s.
Proof.
  revert b; induction s as [|c s IH]; intros b Ha Hd Hb; [reflexivity|].
  cbn [allChars] in Ha. apply andb_true_iff in Ha as [Hc Ha].
  pose proof (noDoubleSpace_tail c s Hd) as Hd'.
  cbn [collapseSpacesFrom]. destruct (isSpace c) eqn:E.
  - destruct b; [specialize (Hb eq_refl); simpl in Hb; congruence|].
    rewrite (spaceOnly_space c Hc E). f_equal.
    apply IH; auto. intros _.
    destruct s as [|d s]; [reflexivity|].
    cbn [noDoubleSpace] in Hd. apply andb_true_iff in Hd as [Hd _].
    rewrite E in Hd. simpl in *. now destruct (isSpace d).
  - f_equal. apply IH; auto. discriminate.
Qed.

Lemma collapseNewlines_id (s : string) :
  allChars spaceOnly s = true -> collapseNewlinesFrom 0 s = s.
Proof.
  induction s as [|c s IH]; simpl; [reflexivity|]. intros H.
  apply andb_true_iff in H as [Hc Hs].
  rewrite (spaceOnly_not_LF c Hc). now rewrite IH.
Qed.

Lemma normalised_spec (s : string) :
  normalised s = true <->
  allChars spaceOnly s = true /\ noDoubleSpace s = true
  /\ startsWithSpace s = false /\ endsWithSpace s = false.
Proof.
  unfold normalised. rewrite !andb_true_iff, !negb_true_iff. tauto.
Qed.

Lemma cleanText_normalised (s : string) : normalised (cleanText s) = true.
Proof.
  apply normalised_spec. unfold cleanText, collapseSpaces.
  repeat split.
  - apply trim_allChars, collapseSpaces_spaceOnly.
  - apply trimEnd_noDouble, trimStart_noDouble, collapseSpaces_noDouble.
  - apply trim_starts.
  - apply trim_ends.
Qed.

Lemma cleanText_fixes_normalised (s : string) :
  normalised s = true -> cleanText s = s.
Proof.
  intros H. apply normalised_spec in H as [Ha [Hd [Hs He]]].
  unfold cleanText, collapseNewlines, collapseSpaces.
  rewrite (collapseNewlines_id s Ha).
  rewrite (collapseSpaces_id false s Ha Hd) by discriminate.
  now apply trim_id.
Qed.

(** X11.  [cleanText] brings a text to a normal form: in its result the only
    whitespace is the space character, never two in a row and never at
    either end; a text in that form is left as it is, so cleaning twice
    is cleaning once. *)
Theorem cleanText_normal_form (s : string) :
  normalised (cleanText s) = true
  /\ cleanText (cleanText s) = cleanText s
  /\ (normalised s = true -> cleanText s = s).
Proof.
  split; [apply cleanText_normalised|].
  split; [|apply cleanText_fixes_normalised].
  apply cleanText_fixes_normalised, cleanText_normalised.
Qed.

Lemma cleanText_normal_form_witness :
  cleanText "One two. Three four." = "One two. Three four.".
Proof.
  pose proof (cleanText_normal_form "One two. Three four.") as [_ [_ H]].
  apply H. reflexivity.
Defined.

End CleanFacts.

Module ChunkerMore.
Import JS JSFacts DocumentProcessor Views MoreViews TrimFacts CleanFacts.

Lemma isTerminator_not_space (c : ascii) :
  isTerminator c = true -> isSpace c = false.
Proof.
  unfold isTerminator. rewrite !orb_true_iff, !Ascii.eqb_eq.
  intros [[-> | ->] | ->]; reflexivity.
Qed.

Lemma hasInk_app_r (a b : string) : hasInk b = true -> hasInk (a ++ b) = true.
Proof.
  unfold hasInk. rewrite allChars_app, !negb_true_iff. intros ->.
  apply andb_false_r.
Qed.

Lemma hasInk_app_l (a b : string) : hasInk a = true -> hasInk (a ++ b) = true.
Proof.
  unfold hasInk. rewrite allChars_app, !negb_true_iff. now intros ->.
Qed.

Lemma scan_allChars (P : ascii -> bool) (ph : Phase) (acc str : string) :
  allChars P acc = true -> allChars P str = true ->
  Forall (fun s => allChars P s = true) (scanSentences ph acc str).
Proof.
  revert ph acc; induction str as [|c r IH]; intros ph acc Ha Hs.
  - simpl. destruct ph; auto.
  - cbn [allChars] in Hs. apply andb_true_iff in Hs as [Hc Hr].
    assert (Hone : allChars P (acc ++ String c EmptyString) = true)
      by (rewrite allChars_app, Ha; simpl; now rewrite Hc).
    assert (Hc1 : allChars P (String c EmptyString) = true)
      by (simpl; now rewrite Hc).
    cbn [scanSentences]. destruct (isTerminator c).
    + destruct ph; auto.
    + destruct ph; auto.
Qed.

Lemma scan_ink (ph : Phase) (acc str : string) :
  (ph = InTerminators -> hasInk acc = true) ->
  Forall (fun s => hasInk s = true) (scanSentences ph acc str).
Proof.
  revert ph acc; induction str as [|c r IH]; intros ph acc Ha.
  - simpl. destruct ph; auto.
  - cbn [scanSentences]. destruct (isTerminator c) eqn:Et.
    + assert (Hink : hasInk (acc ++ String c EmptyString) = true).
      { apply hasInk_app_r. unfold hasInk. simpl.
        now rewrite (isTerminator_not_space c Et). }
      destruct ph; apply IH; auto; discriminate.
    + destruct ph; [apply IH | apply IH | constructor; [auto | apply IH]];
        discriminate.
Qed.

Lemma scan_no_terminator (ph : Phase) (acc str : string) :
  noTerminator str = true ->
  scanSentences ph acc str
  = match ph with InTerminators => [acc] | _ => [] end.
Proof.
  unfold noTerminator.
  revert ph acc; induction str as [|c r IH]; intros ph acc H.
  - reflexivity.
  - cbn [allChars] in H. apply andb_true_iff in H as [Hc Hr].
    apply negb_true_iff in Hc. cbn [scanSentences]. rewrite Hc.
    destruct ph; rewrite (IH _ _ Hr); reflexivity.
Qed.

Lemma scan_tail (ph : Phase) (acc body tail : string) :
  noTerminator tail = true ->
  scanSentences ph acc (body ++ tail) = scanSentences ph acc body.
Proof.
  intros Ht. revert ph acc; induction body as [|c r IH]; intros ph acc.
  - simpl. rewrite (scan_no_terminator ph acc tail Ht).
    destruct ph; reflexivity.
  - cbn [append scanSentences]. destruct (isTerminator c); destruct ph;
      now rewrite ?IH.
Qed.

Lemma split_allChars (P : ascii -> bool) (sep : ascii) (s : string) :
  allChars P s = true -> Forall (fun w => allChars P w = true) (split sep s).
Proof.
  induction s as [|c s IH]; intros H.
  - simpl. auto.
  - cbn [allChars] in H. apply andb_true_iff in H as [Hc Hs].
    specialize (IH Hs). cbn [split]. destruct (Ascii.eqb c sep).
    + constructor; auto.
    + destruct (split sep s) as [|w ws].
      * constructor; [simpl; now rewrite Hc | constructor].
      * inversion IH; subst. constructor; [simpl; now rewrite Hc | auto].
Qed.

Lemma join_allChars (P : ascii -> bool) (sep : string) (l : list string) :
  allChars P sep = true -> Forall (fun w => allChars P w = true) l ->
  allChars P (join sep l) = true.
Proof.
  intros Hsep Hl. unfold join. induction Hl as [|w l Hw Hl IH].
  - reflexivity.
  - destruct l as [|v l]; [exact Hw|].
    cbn [String.concat]. rewrite !allChars_app, Hw, Hsep. exact IH.
Qed.

Lemma sliceFrom_Forall {A : Type} (P : A -> Prop) (z : Z) (l : list A) :
  Forall P l -> Forall P (sliceFrom z l).
Proof.
  intros H. unfold sliceFrom.
  match goal with |- Forall P (skipn ?k l) =>
    rewrite <- (firstn_skipn k l) in H end.
  apply Forall_app in H. exact (proj2 H).
Qed.

Lemma overlap_allChars (P : ascii -> bool) (p : Processor) (cur : string) :
  P " "%char = true -> allChars P cur = true ->
  allChars P (join " " (overlapWords p cur)) = true.
Proof.
  intros Hsp Hcur. apply join_allChars.
  - simpl. now rewrite Hsp.
  - apply sliceFrom_Forall. now apply split_allChars.
Qed.

Lemma chunkStep_shape (p : Processor) (st : list string * string)
    (s : string) :
  goodUnit s -> shapeInvariant st -> shapeInvariant (chunkStep p st s).
Proof.
  intros [Hs Hink] [Hchunks [Hcur Hne]]. destruct st as [chunks cur].
  cbn [fst snd] in *. unfold chunkStep.
  destruct ((Z.of_nat (String.length (cur ++ s)) >? chunkSize p)%Z
            && (0 <? String.length cur)%nat) eqn:E.
  - apply andb_true_iff in E as [_ Hpos].
    repeat split; cbn [fst snd].
    + unfold push. apply Forall_app. split; [exact Hchunks|].
      constructor; [|constructor]. split; [now apply trim_allChars|].
      apply trim_ink. destruct Hne as [-> | H]; [discriminate | exact H].
    + rewrite !allChars_app, Hs, (overlap_allChars spaceOnly p cur eq_refl Hcur).
      reflexivity.
    + right. apply hasInk_app_r, hasInk_app_r. exact Hink.
  - repeat split; cbn [fst snd]; auto.
    + now rewrite allChars_app, Hcur, Hs.
    + right. now apply hasInk_app_r.
Qed.

Lemma chunkLoop_shape (p : Processor) (ss : list string)
    (st : list string * string) :
  Forall goodUnit ss -> shapeInvariant st ->
  shapeInvariant (chunkLoop p ss st).
Proof.
  unfold chunkLoop. intros Hss. revert st.
  induction Hss as [|s ss Hs Hss IH]; intros st Hinv; simpl; [exact Hinv|].
  apply IH. now apply chunkStep_shape.
Qed.

Lemma cleanText_ink (text : string) :
  cleanText text = EmptyString \/ hasInk (cleanText text) = true.
Proof.
  destruct (cleanText text) as [|c r] eqn:E; [now left | right].
  rewrite <- E. unfold hasInk. apply negb_true_iff.
  destruct (allChars isSpace (cleanText text)) eqn:B; [|reflexivity].
  apply trim_blank in B.
  unfold cleanText in B at 1. rewrite trim_idempotent in B.
  fold (cleanText text) in B. congruence.
Qed.

Lemma cleanText_spaceOnly (text : string) :
  allChars spaceOnly (cleanText text) = true.
Proof.
  pose proof (cleanText_normalised text) as H.
  now apply normalised_spec in H as [H _].
Qed.

Lemma sentences_good (text : string) :
  cleanText text <> EmptyString ->
  Forall goodUnit (sentencesOf (cleanText text)).
Proof.
  intros Hne. unfold sentencesOf, matchSentences.
  pose proof (scan_allChars spaceOnly AtStart EmptyString (cleanText text)
                eq_refl (cleanText_spaceOnly text)) as Ha.
  pose proof (scan_ink AtStart EmptyString (cleanText text)) as Hi.
  destruct (scanSentences AtStart EmptyString (cleanText text)) as [|s l].
  - constructor; [|constructor]. split; [apply cleanText_spaceOnly|].
    destruct (cleanText_ink text); [contradiction | assumption].
  - specialize (Hi ltac:(discriminate)).
    apply Forall_forall. intros x Hx. split.
    + now apply (proj1 (Forall_forall _ _) Ha).
    + now apply (proj1 (Forall_forall _ _) Hi).
Qed.

(** X12.  Every chunk of [chunkText] is a non-empty string without whitespace
    at either end, in which the only whitespace is the space character:
    line breaks and tabs of the source never reach a chunk. *)
Theorem chunks_are_trimmed_and_not_blank (p : Processor) (text c : string) :
  In c (chunkText p text) ->
  c <> EmptyString
  /\ startsWithSpace c = false /\ endsWithSpace c = false
  /\ allChars spaceOnly c = true.
Proof.
  intros Hc.
  assert (Htrim : startsWithSpace c = false /\ endsWithSpace c = false).
  { destruct (Chunker.chunkText_raw p text c Hc) as [raw [-> _]].
    split; [apply trim_starts | apply trim_ends]. }
  destruct Htrim as [H1 H2].
  enough (H : allChars spaceOnly c = true /\ c <> EmptyString) by tauto.
  unfold chunkText in Hc.
  destruct (cleanText text) as [|a r] eqn:E.
  - change (sentencesOf EmptyString) with [EmptyString] in Hc.
    unfold chunkLoop, fold_left, chunkStep in Hc.
    rewrite andb_false_r in Hc. contradiction.
  - pose proof (sentences_good text ltac:(rewrite E; discriminate)) as Hss.
    rewrite E in Hss.
    destruct (chunkLoop_shape p _ ([], EmptyString) Hss) as [Hch [Hcur Hne]].
    { repeat split; cbn; auto. }
    destruct (chunkLoop p _ ([], EmptyString)) as [chunks cur].
    cbn [fst snd] in *. unfold flushBuffer in Hc.
    destruct (0 <? String.length (trim cur))%nat eqn:Epos.
    + unfold push in Hc. apply in_app_or in Hc as [Hc | [<- | []]].
      * exact (proj1 (Forall_forall _ _) Hch c Hc).
      * split; [now apply trim_allChars|].
        intros E0. rewrite E0 in Epos. discriminate.
    + exact (proj1 (Forall_forall _ _) Hch c Hc).
Qed.

Lemma flushNewlines_allChars (P : ascii -> bool) (n : nat) :
  n = 0%nat \/ P LF = true -> allChars P (flushNewlines n) = true.
Proof.
  unfold flushNewlines. intros [-> | Hlf]; [reflexivity|].
  destruct (2 <=? n)%nat; [simpl; now rewrite Hlf|].
  destruct (1 <=? n)%nat; simpl; now rewrite ?Hlf.
Qed.

Lemma collapseNewlines_allChars (P : ascii -> bool) (n : nat) (s : string) :
  n = 0%nat \/ P LF = true ->
  allChars P s = true -> allChars P (collapseNewlinesFrom n s) = true.
Proof.
  revert n; induction s as [|c s IH]; intros n Hn Hs.
  - now apply flushNewlines_allChars.
  - cbn [allChars] in Hs. apply andb_true_iff in Hs as [Hc Hs].
    cbn [collapseNewlinesFrom]. destruct (Ascii.eqb_spec c LF) as [->|Hne].
    + apply IH; auto.
    + rewrite allChars_app. cbn [allChars].
      rewrite Hc, (IH 0%nat), (flushNewlines_allChars P n Hn); auto.
Qed.

Lemma collapseSpaces_allChars (P : ascii -> bool) (b : bool) (s : string) :
  P " "%char = true ->
  allChars P s = true -> allChars P (collapseSpacesFrom b s) = true.
Proof.
  intros Hsp. revert b; induction s as [|c s IH]; intros b Hs; [reflexivity|].
  cbn [allChars] in Hs. apply andb_true_iff in Hs as [Hc Hs].
  cbn [collapseSpacesFrom]. destruct (isSpace c).
  - destruct b; [now apply IH|]. cbn [allChars]. rewrite Hsp.
    cbn [andb]. now apply IH.
  - cbn [allChars]. rewrite Hc. cbn [andb]. now apply IH.
Qed.

Lemma cleanText_noTerminator (text : string) :
  noTerminator text = true -> noTerminator (cleanText text) = true.
Proof.
  unfold noTerminator, cleanText, collapseSpaces, collapseNewlines.
  intros H. apply trim_allChars, collapseSpaces_allChars; [reflexivity|].
  apply collapseNewlines_allChars; auto.
Qed.

(** X13.  A text without [.], [!] or [?] is never cut, however small the chunk
    size: [chunkText] returns the cleaned text as its only chunk, and no
    chunk when the text is blank. *)
Theorem text_without_terminator_is_one_chunk (p : Processor) (text : string) :
  noTerminator text = true ->
  chunkText p text
  = if (0 <? String.length (cleanText text))%nat then [cleanText text] else [].
Proof.
  intros H. apply cleanText_noTerminator in H.
  unfold chunkText, sentencesOf, matchSentences.
  rewrite (scan_no_terminator AtStart EmptyString _ H).
  unfold chunkLoop, fold_left, chunkStep. rewrite andb_false_r.
  cbn [append flushBuffer].
  assert (Ht : trim (cleanText text) = cleanText text)
    by (unfold cleanText; apply trim_idempotent).
  rewrite Ht. reflexivity.
Qed.

(** X14.  What follows the last terminator is lost: when a cleaned text holds
    a complete sentence, appending characters that hold no terminator
    changes neither the sentence units nor the chunks. *)
Theorem unterminated_tail_is_dropped (p : Processor) (body tail : string) :
  normalised body = true -> normalised (body ++ tail) = true ->
  scanSentences AtStart EmptyString body <> [] ->
  noTerminator tail = true ->
  sentencesOf (body ++ tail) = sentencesOf body
  /\ chunkText p (body ++ tail) = chunkText p body.
Proof.
  intros Hb Hbt Hm Ht.
  assert (Hs : sentencesOf (body ++ tail) = sentencesOf body).
  { unfold sentencesOf, matchSentences. rewrite scan_tail by exact Ht.
    destruct (scanSentences AtStart EmptyString body); [contradiction|].
    reflexivity. }
  split; [exact Hs|]. unfold chunkText.
  rewrite (cleanText_fixes_normalised _ Hb),
    (cleanText_fixes_normalised _ Hbt), Hs.
  reflexivity.
Qed.

Import Samples MoreSamples.

Lemma chunks_are_trimmed_and_not_blank_witness :
  "nine ten.  Done!" <> EmptyString
  /\ startsWithSpace "nine ten.  Done!" = false
  /\ endsWithSpace "nine ten.  Done!" = false
  /\ allChars spaceOnly "nine ten.  Done!" = true.
Proof.
  apply (chunks_are_trimmed_and_not_blank tiny
           ("One two.  Three four." ++ LFs
            ++ "Five six seven eight nine ten. Done!")
           "nine ten.  Done!").
  vm_compute. right. right. left. reflexivity.
Defined.

Lemma text_without_terminator_is_one_chunk_witness :
  chunkText tiny "no end in sight"
  = if (0 <? String.length (cleanText "no end in sight"))%nat
    then [cleanText "no end in sight"] else [].
Proof.
  apply (text_without_terminator_is_one_chunk tiny "no end in sight").
  reflexivity.
Defined.

Lemma unterminated_tail_is_dropped_witness :
  chunkText tiny ("One. Two." ++ " and then") = chunkText tiny "One. Two.".
Proof.
  pose proof (unterminated_tail_is_dropped tiny "One. Two." " and then")
    as H.
  apply H; try reflexivity. vm_compute. discriminate.
Defined.

End ChunkerMore.

Module MarkdownMore.
Import JS JSFacts DocumentProcessor Views MoreViews TrimFacts.

Lemma mapiFrom_nth {A B : Type} (f : A -> nat -> B) (l : list A) (k i : nat) :
  nth_error (mapiFrom k f l) i
  = option_map (fun x => f x (k + i)%nat) (nth_error l i).
Proof.
  revert k i; induction l as [|x l IH]; intros k i.
  - destruct i; reflexivity.
  - destruct i as [|i]; simpl.
    + now rewrite Nat.add_0_r.
    + rewrite IH. now rewrite Nat.add_succ_r.
Qed.

(** X15.  [processTextFile] numbers the chunks of a file by position: the
    [i]-th document carries the [i]-th chunk, [chunkIndex] [i], and as
    [totalChunks] the number of documents returned. *)
Theorem text_file_chunks_are_numbered (p : Processor)
    (fileName content : string) :
  List.length (processTextFile p fileName content)
  = List.length (chunkText p content)
  /\ forall i chunk,
       nth_error (chunkText p content) i = Some chunk ->
       nth_error (processTextFile p fileName content) i
       = Some (textDoc fileName
                 (List.length (processTextFile p fileName content)) chunk i).
Proof.
  assert (Hlen : List.length (processTextFile p fileName content)
                 = List.length (chunkText p content)).
  { unfold processTextFile, mapi. clear.
    generalize (mkDoc "text" fileName
                  (Z.of_nat (List.length (chunkText p content)))).
    generalize 0%nat. induction (chunkText p content); intros k f; simpl; auto. }
  split; [exact Hlen|]. intros i chunk Hi. rewrite Hlen.
  unfold processTextFile, mapi. rewrite mapiFrom_nth, Hi. reflexivity.
Qed.

Lemma concat_singletons {A B : Type} (F : A -> nat -> list B)
    (G : A -> nat -> B) (l : list A) (k : nat) :
  (forall x i, In x l -> F x i = [G x i]) ->
  List.concat (mapiFrom k F l) = mapiFrom k G l.
Proof.
  revert k; induction l as [|x l IH]; intros k H; simpl; [reflexivity|].
  rewrite (H x k (or_introl eq_refl)). simpl. f_equal.
  apply IH. intros y i Hy. apply H. now right.
Qed.

(** X16.  When no section of a markdown file is longer than [chunkSize],
    [processMarkdown] returns one document per section, in order: the
    section as text, its rank as [chunkIndex] and the number of sections
    as [totalChunks]. *)
Theorem markdown_of_short_sections (p : Processor)
    (fileName content : string) :
  Forall (fun s => (Z.of_nat (String.length s) <= chunkSize p)%Z)
         (splitByMarkdownHeaders content) ->
  processMarkdown p fileName content
  = mapi (sectionDoc fileName (List.length (splitByMarkdownHeaders content)))
         (splitByMarkdownHeaders content).
Proof.
  intros Hfit. unfold processMarkdown, mapi.
  apply concat_singletons. intros s i Hs.
  assert (Hle := proj1 (Forall_forall _ _) Hfit s Hs). cbv beta in Hle.
  replace (Z.of_nat (String.length s) >? chunkSize p)%Z with false
    by (symmetry; rewrite Z.gtb_ltb; apply Z.ltb_ge; lia).
  unfold mapi, mapiFrom, sectionDoc. cbn [List.length].
  do 4 f_equal; f_equal; lia.
Qed.

Lemma sectionStep_spec (st : list string * string) (line : string) :
  sectionsInvariant (fst st) ->
  sectionsInvariant (fst (sectionStep st line))
  /\ (List.length (fst (sectionStep st line))
      <= List.length (fst st) + (if isHeader line then 1 else 0))%nat.
Proof.
  destruct st as [sections cur]. cbn [fst]. intros Hinv.
  unfold sectionStep. destruct (isHeader line); cbn [fst].
  - destruct (0 <? String.length (trim cur))%nat eqn:E.
    + split.
      * unfold push. apply Forall_app. split; [exact Hinv|].
        constructor; [|constructor]. split; [|now exists cur].
        intros E0. rewrite E0 in E. discriminate.
      * unfold push. rewrite length_app. simpl. lia.
    + split; [exact Hinv | lia].
  - split; [exact Hinv | lia].
Qed.

Lemma sectionLoop_spec (lines : list string) (st : list string * string) :
  sectionsInvariant (fst st) ->
  sectionsInvariant (fst (fold_left sectionStep lines st))
  /\ (List.length (fst (fold_left sectionStep lines st))
      <= List.length (fst st) + List.length (filter isHeader lines))%nat.
Proof.
  revert st; induction lines as [|line lines IH]; intros st Hinv; simpl.
  - split; [exact Hinv | lia].
  - destruct (sectionStep_spec st line Hinv) as [H1 H2].
    destruct (IH _ H1) as [H3 H4]. split; [exact H3|].
    destruct (isHeader line); simpl; lia.
Qed.

(** X17.  The sections of a markdown text are never blank and carry no
    whitespace at either end, and there is at most one more of them than
    there are heading lines. *)
Theorem markdown_sections_are_trimmed (content : string) :
  (forall s, In s (splitByMarkdownHeaders content) ->
     s <> EmptyString
     /\ startsWithSpace s = false /\ endsWithSpace s = false)
  /\ (List.length (splitByMarkdownHeaders content)
      <= List.length (filter isHeader (split LF content)) + 1)%nat.
Proof.
  unfold splitByMarkdownHeaders.
  destruct (sectionLoop_spec (split LF content) ([], EmptyString))
    as [Hinv Hlen]; [constructor|].
  destruct (fold_left sectionStep (split LF content) ([], EmptyString))
    as [sections cur].
  cbn [fst] in *. unfold flushBuffer.
  assert (Hshape : forall s, s <> EmptyString /\ (exists raw, s = trim raw) ->
            s <> EmptyString
            /\ startsWithSpace s = false /\ endsWithSpace s = false).
  { intros s [Hne [raw ->]]. split; [exact Hne|].
    split; [apply trim_starts | apply trim_ends]. }
  destruct (0 <? String.length (trim cur))%nat eqn:E.
  - split.
    + intros s Hs. unfold push in Hs. apply in_app_or in Hs as [Hs | [<- | []]].
      * apply Hshape. exact (proj1 (Forall_forall _ _) Hinv s Hs).
      * apply Hshape. split; [|now exists cur].
        intros E0. rewrite E0 in E. discriminate.
    + unfold push. rewrite length_app. simpl in *. lia.
  - split.
    + intros s Hs. apply Hshape. exact (proj1 (Forall_forall _ _) Hinv s Hs).
    + simpl in *. lia.
Qed.

Lemma split_not_nil (sep : ascii) (s : string) : split sep s <> [].
Proof.
  destruct s as [|c s]; simpl; [discriminate|].
  destruct (Ascii.eqb c sep); [discriminate|].
  destruct (split sep s); discriminate.
Qed.

(** Splitting at line feeds and giving each line its line feed back
    yields the text followed by one line feed. *)
Lemma lines_of_split (s : string) :
  linesWithFeeds (split LF s) = s ++ LFs.
Proof.
  induction s as [|c s IH]; [reflexivity|].
  cbn [split]. destruct (Ascii.eqb_spec c LF) as [->|Hne].
  - cbn [linesWithFeeds fold_right]. fold (linesWithFeeds (split LF s)).
    rewrite IH. reflexivity.
  - pose proof (split_not_nil LF s) as Hnn.
    destruct (split LF s) as [|w ws]; [contradiction|].
    cbn [linesWithFeeds fold_right] in *.
    cbn [append]. f_equal. exact IH.
Qed.

Lemma string_assoc3 (a b c : string) : (a ++ b) ++ c = a ++ b ++ c.
Proof. induction a; simpl; congruence. Qed.

Lemma sectionLoop_no_header (lines : list string) (sections : list string)
    (cur : string) :
  Forall (fun l => isHeader l = false) lines ->
  fold_left sectionStep lines (sections, cur)
  = (sections, cur ++ linesWithFeeds lines).
Proof.
  intros H. revert cur; induction H as [|l lines Hl H IH]; intros cur; simpl.
  - f_equal. clear. induction cur; simpl; congruence.
  - rewrite Hl, IH. f_equal. rewrite !string_assoc3. reflexivity.
Qed.

Lemma trimEnd_feed (s : string) : trimEnd (s ++ LFs) = trimEnd s.
Proof.
  induction s as [|c s IH]; [reflexivity|].
  cbn [append trimEnd]. now rewrite IH.
Qed.

Lemma trimStart_app (s t : string) :
  hasInk s = true -> trimStart (s ++ t) = trimStart s ++ t.
Proof.
  unfold hasInk. induction s as [|c s IH]; [discriminate|].
  cbn [allChars append trimStart]. destruct (isSpace c); [exact IH | reflexivity].
Qed.

Lemma trim_feed (s : string) : trim (s ++ LFs) = trim s.
Proof.
  destruct (hasInk s) eqn:E.
  - unfold trim. rewrite (trimStart_app s LFs E). apply trimEnd_feed.
  - unfold hasInk in E. apply negb_false_iff in E.
    assert (E' : allChars isSpace (s ++ LFs) = true)
      by (rewrite allChars_app, E; reflexivity).
    apply trim_blank in E, E'. congruence.
Qed.

(** X18.  A markdown text with no heading line is one section, the trimmed
    text, and no section when the text is blank. *)
Theorem markdown_without_heading_is_one_section (content : string) :
  Forall (fun l => isHeader l = false) (split LF content) ->
  splitByMarkdownHeaders content
  = if (0 <? String.length (trim content))%nat then [trim content] else [].
Proof.
  intros H. unfold splitByMarkdownHeaders.
  rewrite (sectionLoop_no_header _ [] EmptyString H).
  cbn [append flushBuffer]. rewrite lines_of_split, trim_feed. reflexivity.
Qed.

Import Samples MoreSamples.

Lemma text_file_chunks_are_numbered_witness :
  nth_error (processTextFile tiny "notes.txt" "One two. Three four.") 0
  = Some (textDoc "notes.txt"
            (List.length
               (processTextFile tiny "notes.txt" "One two. Three four."))
            "One two. Three four." 0).
Proof.
  pose proof (text_file_chunks_are_numbered tiny "notes.txt"
                "One two. Three four.") as [_ H].
  apply H. reflexivity.
Defined.

Lemma markdown_of_short_sections_witness :
  processMarkdown defaultProcessor "intro.md" twoSections
  = mapi (sectionDoc "intro.md"
            (List.length (splitByMarkdownHeaders twoSections)))
         (splitByMarkdownHeaders twoSections).
Proof.
  apply (markdown_of_short_sections defaultProcessor "intro.md" twoSections).
  vm_compute. repeat constructor; discriminate.
Defined.

Lemma markdown_sections_are_trimmed_witness :
  "# End" ++ LFs ++ "Bye." <> EmptyString
  /\ startsWithSpace ("# End" ++ LFs ++ "Bye.") = false
  /\ endsWithSpace ("# End" ++ LFs ++ "Bye.") = false.
Proof.
  pose proof (markdown_sections_are_trimmed twoSections) as [H _].
  apply H. vm_compute. right. left. reflexivity.
Defined.

Lemma markdown_without_heading_is_one_section_witness :
  splitByMarkdownHeaders ("plain text" ++ LFs ++ "more")
  = if (0 <? String.length (trim ("plain text" ++ LFs ++ "more")))%nat
    then [trim ("plain text" ++ LFs ++ "more")] else [].
Proof.
  apply (markdown_without_heading_is_one_section
           ("plain text" ++ LFs ++ "more")).
  vm_compute. repeat constructor.
Defined.

End MarkdownMore.

(* ================================================================== *)
(** ** Properties of directory processing                             *)
(* ================================================================== *)

Module DirectoryFacts.
Import JS JSFacts DocumentProcessor RAGService Directory.

Example extname_examples :
  extname "notes.md" = ".md" /\ extname "a.b.TXT" = ".TXT"
  /\ extname ".md" = "" /\ extname "README" = "" /\ extname "a." = "."
  /\ extname ".." = "" /\ extname ".env.txt" = ".txt".
Proof. repeat split; reflexivity. Qed.

Section Facts.
Variable p : Processor.
Variable pdfParse : string -> Outcome string.

Lemma processDirectory_nil : processDirectory p pdfParse [] = Returns [].
Proof. reflexivity. Qed.

Lemma processDirectory_cons (name : string) (node : Node)
    (rest : list (string * Node)) :
  processDirectory p pdfParse ((name, node) :: rest)
  = bindOutcome (processNode p pdfParse name node) (fun docs =>
    bindOutcome (processDirectory p pdfParse rest) (fun more =>
    Returns (docs ++ more)%list)).
Proof. reflexivity. Qed.

Lemma processNode_Dir (name : string) (entries : list (string * Node)) :
  processNode p pdfParse name (Dir entries)
  = processDirectory p pdfParse entries.
Proof. reflexivity. Qed.

Lemma processDirectory_app (es1 es2 : list (string * Node)) :
  processDirectory p pdfParse (es1 ++ es2)
  = bindOutcome (processDirectory p pdfParse es1) (fun docs =>
    bindOutcome (processDirectory p pdfParse es2) (fun more =>
    Returns (docs ++ more)%list)).
Proof.
  induction es1 as [|[name node] es1 IH].
  - simpl app. rewrite processDirectory_nil. cbn [bindOutcome].
    destruct (processDirectory p pdfParse es2); reflexivity.
  - simpl app. rewrite !processDirectory_cons, IH.
    destruct (processNode p pdfParse name node) as [docs|e]; [|reflexivity].
    cbn [bindOutcome].
    destruct (processDirectory p pdfParse es1) as [d1|e]; [|reflexivity].
    cbn [bindOutcome].
    destruct (processDirectory p pdfParse es2) as [d2|e]; [|reflexivity].
    cbn [bindOutcome]. now rewrite app_assoc.
Qed.

(** X19.  An entry whose extension, lower-cased, is none of [.pdf], [.txt]
    and [.md] is never read: whatever the file holds, and also when it
    cannot be read, the result is what the directory gives without the
    entry. *)
Theorem unsupported_files_are_skipped (es1 es2 : list (string * Node))
    (file : string) (content : Outcome string) :
  supported file = false ->
  processDirectory p pdfParse (es1 ++ (file, File content) :: es2)
  = processDirectory p pdfParse (es1 ++ es2).
Proof.
  intros H. unfold supported in H.
  apply orb_false_iff in H as [H Hmd]. apply orb_false_iff in H as [Hpdf Htxt].
  rewrite !processDirectory_app, processDirectory_cons.
  cbn [processNode]. unfold processEntryFile. rewrite Hpdf, Htxt, Hmd.
  cbn [bindOutcome].
  destruct (processDirectory p pdfParse es1) as [d1|e]; [|reflexivity].
  cbn [bindOutcome].
  destruct (processDirectory p pdfParse es2) as [d2|e]; reflexivity.
Qed.

(** X20.  Documents do not record the directory they come from: a
    subdirectory gives exactly what its entries would give in its
    place, errors included. *)
Theorem subdirectory_is_flattened (es1 sub es2 : list (string * Node))
    (name : string) :
  processDirectory p pdfParse (es1 ++ (name, Dir sub) :: es2)
  = processDirectory p pdfParse (es1 ++ sub ++ es2).
Proof.
  rewrite !processDirectory_app, processDirectory_cons, processNode_Dir.
  destruct (processDirectory p pdfParse es1) as [d1|e]; [|reflexivity].
  cbn [bindOutcome].
  destruct (processDirectory p pdfParse sub) as [d2|e]; [|reflexivity].
  cbn [bindOutcome].
  destruct (processDirectory p pdfParse es2) as [d3|e]; reflexivity.
Qed.

(** X21.  The first entry that cannot be examined, or supported file that
    cannot be read, ends the whole run with its error: the documents of
    the entries before it are not returned. *)
Theorem first_failure_aborts_the_run (es1 es2 : list (string * Node))
    (name : string) (node : Node) (docs : list ProcessedDocument) (e : Exn) :
  processDirectory p pdfParse es1 = Returns docs ->
  processNode p pdfParse name node = Throws e ->
  processDirectory p pdfParse (es1 ++ (name, node) :: es2) = Throws e.
Proof.
  intros H1 H2.
  rewrite processDirectory_app, processDirectory_cons, H1, H2. reflexivity.
Qed.

(** X22.  When every entry is processed without error, the documents of a
    directory are those of its entries, one entry after the other. *)
Theorem directory_documents_in_entry_order (es1 es2 : list (string * Node))
    (d1 d2 : list ProcessedDocument) :
  processDirectory p pdfParse es1 = Returns d1 ->
  processDirectory p pdfParse es2 = Returns d2 ->
  processDirectory p pdfParse (es1 ++ es2) = Returns (d1 ++ d2)%list.
Proof.
  intros H1 H2. rewrite processDirectory_app, H1, H2. reflexivity.
Qed.

End Facts.

Import Samples MoreSamples.

Lemma unsupported_files_are_skipped_witness :
  processDirectory tiny noPdf
    (docsBefore ++ ("logo.png", File (Throws unreadable)) :: docsAfter)
  = processDirectory tiny noPdf (docsBefore ++ docsAfter).
Proof.
  apply (unsupported_files_are_skipped tiny noPdf docsBefore docsAfter
           "logo.png" (Throws unreadable)).
  reflexivity.
Defined.

Lemma first_failure_aborts_the_run_witness :
  processDirectory tiny noPdf
    (docsBefore ++ ("draft.md", File (Throws unreadable)) :: docsAfter)
  = Throws unreadable.
Proof.
  apply (first_failure_aborts_the_run tiny noPdf docsBefore docsAfter
           "draft.md" (File (Throws unreadable))
           (processTextFile tiny "notes.txt" "One two. Three four.")
           unreadable).
  - reflexivity.
  - reflexivity.
Defined.

Lemma directory_documents_in_entry_order_witness :
  processDirectory tiny noPdf (docsBefore ++ docsAfter)
  = Returns (processTextFile tiny "notes.txt" "One two. Three four."
             ++ processMarkdown tiny "intro.md" twoSections)%list.
Proof.
  apply (directory_documents_in_entry_order tiny noPdf docsBefore docsAfter).
  - reflexivity.
  - vm_compute. reflexivity.
Defined.

End DirectoryFacts.

(* ================================================================== *)
(** ** Properties of structured-data processing                       *)
(* ================================================================== *)

Module StructuredFacts.
Import JS JSFacts DocumentProcessor RAGService Directory StructuredData
  MoreViews TrimFacts.

Lemma pushDocs_spec {A : Type} (source kind : string)
    (f : A -> Outcome string) (complete : A -> bool) (e : Exn)
    (items : list A) (documents : list ProcessedDocument) :
  (forall item, complete item = true -> exists t, f item = Returns t) ->
  (forall item, complete item = false -> f item = Throws e) ->
  pushDocs source kind f items documents
  = if forallb complete items
    then Returns (documents
                  ++ map (fun item => plainDoc source kind (textOr (f item)))
                         items)%list
    else Throws e.
Proof.
  intros Hok Hko. revert documents.
  induction items as [|item items IH]; intros documents; simpl.
  - now rewrite app_nil_r.
  - destruct (complete item) eqn:E.
    + destruct (Hok item E) as [t Ht]. rewrite Ht. cbn [bindOutcome andb].
      rewrite IH. destruct (forallb complete items); [|reflexivity].
      unfold push. cbn [textOr]. now rewrite <- app_assoc.
    + rewrite (Hko item E). reflexivity.
Qed.

Lemma appText_spec (app : App) :
  (appComplete app = true -> exists t, appText app = Returns t)
  /\ (appComplete app = false -> appText app = Throws joinOfUndefined).
Proof.
  unfold appComplete, appText, joinField.
  destruct (appFeatures app), (appLearned app); split; intros H;
    try discriminate; cbn [bindOutcome]; eauto.
Qed.

Lemma experienceText_spec (exp : Experience) :
  (experienceComplete exp = true -> exists t, experienceText exp = Returns t)
  /\ (experienceComplete exp = false ->
      experienceText exp = Throws joinOfUndefined).
Proof.
  unfold experienceComplete, experienceText, joinField.
  destruct (expResponsibilities exp), (expStack exp); split; intros H;
    try discriminate; cbn [bindOutcome]; eauto.
Qed.

Lemma educationText_spec (edu : Education) :
  (educationComplete edu = true -> exists t, educationText edu = Returns t)
  /\ (educationComplete edu = false ->
      educationText edu = Throws joinOfUndefined).
Proof.
  unfold educationComplete, educationText, joinField.
  destruct (eduCourses edu), (eduProjects edu); split; intros H;
    try discriminate; cbn [bindOutcome]; eauto.
Qed.

Lemma pushSection_spec {A : Type} (source kind : string)
    (f : A -> Outcome string) (complete : A -> bool)
    (section : option (list A)) (documents : list ProcessedDocument) :
  (forall item, (complete item = true -> exists t, f item = Returns t)
                /\ (complete item = false -> f item = Throws joinOfUndefined)) ->
  pushSection source kind f section documents
  = if forallb complete (itemsOf section)
    then Returns (documents
                  ++ map (fun item => plainDoc source kind (textOr (f item)))
                         (itemsOf section))%list
    else Throws joinOfUndefined.
Proof.
  intros H. destruct section as [items|]; simpl.
  - apply pushDocs_spec; intros item; apply H.
  - now rewrite app_nil_r.
Qed.

Lemma trimmed_label (label rest : string) :
  hasInk label = true ->
  trim (LFs ++ label ++ rest) <> EmptyString
  /\ startsWithSpace (trim (LFs ++ label ++ rest)) = false
  /\ endsWithSpace (trim (LFs ++ label ++ rest)) = false.
Proof.
  intros H. split; [|split; [apply trim_starts | apply trim_ends]].
  apply trim_ink. unfold hasInk in *. rewrite !allChars_app.
  apply negb_true_iff in H. rewrite H. now rewrite andb_false_r.
Qed.

Lemma hasInk_head (c : ascii) (r : string) :
  isSpace c = false -> hasInk (String c r) = true.
Proof. intros H. unfold hasInk. simpl. now rewrite H. Qed.

Lemma appText_wellFormed (source : string) (app : App) (t : string) :
  appText app = Returns t -> wellFormed source (plainDoc source "project" t).
Proof.
  unfold appText, joinField.
  destruct (appFeatures app), (appLearned app); try discriminate.
  cbn [bindOutcome]. intros H. inversion H; subst t. clear H.
  unfold wellFormed, plainDoc. cbn [metadata text DocumentProcessor.source
    chunkIndex totalChunks].
  repeat split; try reflexivity; apply (trimmed_label "Project: "); reflexivity.
Qed.

Lemma experienceText_wellFormed (source : string) (exp : Experience)
    (t : string) :
  experienceText exp = Returns t ->
  wellFormed source (plainDoc source "experience" t).
Proof.
  unfold experienceText, joinField.
  destruct (expResponsibilities exp), (expStack exp); try discriminate.
  cbn [bindOutcome]. intros H. inversion H; subst t. clear H.
  unfold wellFormed, plainDoc. cbn [metadata text DocumentProcessor.source
    chunkIndex totalChunks].
  repeat split; try reflexivity;
    apply (trimmed_label "Experience: "); reflexivity.
Qed.

Lemma educationText_wellFormed (source : string) (edu : Education)
    (t : string) :
  educationText edu = Returns t ->
  wellFormed source (plainDoc source "education" t).
Proof.
  unfold educationText, joinField.
  destruct (eduCourses edu), (eduProjects edu); try discriminate.
  cbn [bindOutcome]. intros H. inversion H; subst t. clear H.
  unfold wellFormed, plainDoc. cbn [metadata text DocumentProcessor.source
    chunkIndex totalChunks].
  repeat split; try reflexivity;
    apply (trimmed_label "Education: "); reflexivity.
Qed.

Lemma aboutText_wellFormed (source : string) (a : About) :
  wellFormed source (plainDoc source "about" (aboutText a)).
Proof.
  unfold wellFormed, plainDoc, aboutText. cbn [metadata text
    DocumentProcessor.source chunkIndex totalChunks].
  repeat split; try reflexivity; apply (trimmed_label "About: "); reflexivity.
Qed.

Lemma section_wellFormed {A : Type} (source kind : string)
    (f : A -> Outcome string) (complete : A -> bool) (items : list A) :
  (forall item, complete item = true -> exists t, f item = Returns t) ->
  (forall item t, f item = Returns t ->
     wellFormed source (plainDoc source kind t)) ->
  forallb complete items = true ->
  Forall (wellFormed source)
    (map (fun item => plainDoc source kind (textOr (f item))) items)
  /\ kinds (map (fun item => plainDoc source kind (textOr (f item))) items)
     = repeat kind (List.length items).
Proof.
  intros Hok Hwf Hall. induction items as [|item items IH]; simpl.
  - split; [constructor | reflexivity].
  - simpl in Hall. apply andb_true_iff in Hall as [Hc Hall].
    destruct (IH Hall) as [IH1 IH2]. split.
    + constructor; [|exact IH1].
      destruct (Hok item Hc) as [t Ht]. rewrite Ht. cbn [textOr].
      now apply (Hwf item).
    + unfold kinds in *. simpl. now rewrite IH2.
Qed.

(** X23.  When every project has its features and learnings, every experience
    entry its responsibilities and stack, and every education entry its
    courses and projects, [processStructuredData] returns one document
    per project, then per experience entry, then per education entry,
    then one for the about section, sections that are missing being
    skipped.  Each document carries the given source and no chunk
    numbering, and its text is not blank and has no whitespace at either
    end. *)
Theorem structured_data_documents (data : Data) (source : string) :
  dataComplete data = true ->
  exists docs,
    processStructuredData data source = Returns docs
    /\ kinds docs = expectedKinds data
    /\ Forall (wellFormed source) docs.
Proof.
  unfold dataComplete. intros H.
  apply andb_true_iff in H as [H He]. apply andb_true_iff in H as [Ha Hx].
  unfold processStructuredData.
  rewrite (pushSection_spec source "project" appText appComplete)
    by apply appText_spec.
  rewrite Ha. cbn [bindOutcome app].
  rewrite (pushSection_spec source "experience" experienceText
             experienceComplete) by apply experienceText_spec.
  rewrite Hx. cbn [bindOutcome].
  rewrite (pushSection_spec source "education" educationText
             educationComplete) by apply educationText_spec.
  rewrite He. cbn [bindOutcome].
  destruct (section_wellFormed source "project" appText appComplete
              (itemsOf (dataApps data))
              (fun i => proj1 (appText_spec i))
              (appText_wellFormed source) Ha) as [Wa Ka].
  destruct (section_wellFormed source "experience" experienceText
              experienceComplete (itemsOf (dataExperience data))
              (fun i => proj1 (experienceText_spec i))
              (experienceText_wellFormed source) Hx) as [Wx Kx].
  destruct (section_wellFormed source "education" educationText
              educationComplete (itemsOf (dataEducation data))
              (fun i => proj1 (educationText_spec i))
              (educationText_wellFormed source) He) as [We Ke].
  eexists. split; [reflexivity|].
  unfold expectedKinds, kinds in *.
  destruct (dataAbout data) as [a|]; unfold push;
    rewrite ?map_app, Ka, Kx, Ke, <- ?app_assoc.
  - split; [reflexivity|].
    repeat (apply Forall_app; split); auto.
    constructor; [apply aboutText_wellFormed | constructor].
  - split; [now rewrite app_nil_r|].
    repeat (apply Forall_app; split); auto.
Qed.

(** X24.  One missing list loses everything: when a project lacks its
    features or learnings, an experience entry its responsibilities or
    stack, or an education entry its courses or projects,
    [processStructuredData] throws the [TypeError] of [undefined.join]
    and returns no document at all. *)
Theorem structured_data_missing_list (data : Data) (source : string) :
  dataComplete data = false ->
  processStructuredData data source = Throws joinOfUndefined.
Proof.
  unfold dataComplete, processStructuredData. intros H.
  rewrite (pushSection_spec source "project" appText appComplete)
    by apply appText_spec.
  destruct (forallb appComplete (itemsOf (dataApps data))); [|reflexivity].
  cbn [bindOutcome].
  rewrite (pushSection_spec source "experience" experienceText
             experienceComplete) by apply experienceText_spec.
  destruct (forallb experienceComplete (itemsOf (dataExperience data)));
    [|reflexivity].
  cbn [bindOutcome].
  rewrite (pushSection_spec source "education" educationText
             educationComplete) by apply educationText_spec.
  destruct (forallb educationComplete (itemsOf (dataEducation data)));
    [discriminate | reflexivity].
Qed.

Import Samples MoreSamples.

Lemma structured_data_documents_witness :
  exists docs,
    processStructuredData (sampleData (Some ["Search"])) "website"
    = Returns docs
    /\ kinds docs = expectedKinds (sampleData (Some ["Search"]))
    /\ Forall (wellFormed "website") docs.
Proof.
  apply (structured_data_documents (sampleData (Some ["Search"])) "website").
  reflexivity.
Defined.

Lemma structured_data_missing_list_witness :
  processStructuredData (sampleData None) "website" = Throws joinOfUndefined.
Proof.
  apply (structured_data_missing_list (sampleData None) "website").
  reflexivity.
Defined.

End StructuredFacts.

(* ================================================================== *)
(** ** Properties of ingestion                                        *)
(* ================================================================== *)

Module BatchFacts.
Import JS Ingestion.

Lemma batchesFrom_step {A : Type} (l : list A) (fuel i : nat) :
  batchesFrom (S fuel) i l
  = if (i <? List.length l)%nat
    then firstn batchSize (skipn i l) :: batchesFrom fuel (i + batchSize) l
    else [].
Proof. reflexivity. Qed.

Lemma batchesFrom_concat {A : Type} (l : list A) (fuel i : nat) :
  (List.length l - i <= fuel)%nat ->
  List.concat (batchesFrom fuel i l) = skipn i l.
Proof.
  revert i; induction fuel as [|fuel IH]; intros i H.
  - symmetry. apply skipn_all2. lia.
  - rewrite batchesFrom_step.
    destruct (Nat.ltb_spec i (List.length l)) as [Hlt | Hge].
    + cbn [List.concat]. rewrite IH by (unfold batchSize; lia).
      rewrite Nat.add_comm, <- skipn_skipn. apply firstn_skipn.
    + symmetry. apply skipn_all2. lia.
Qed.

Lemma batchesFrom_sizes {A : Type} (l : list A) (fuel i : nat) :
  Forall (fun b => (1 <= List.length b <= batchSize)%nat)
         (batchesFrom fuel i l).
Proof.
  revert i; induction fuel as [|fuel IH]; intros i; [constructor|].
  rewrite batchesFrom_step.
  destruct (Nat.ltb_spec i (List.length l)) as [Hlt | Hge]; [|constructor].
  constructor; [|apply IH].
  rewrite length_firstn, length_skipn. unfold batchSize. lia.
Qed.

Lemma batchesFrom_length {A : Type} (l : list A) (fuel i : nat) :
  (List.length l - i <= fuel)%nat ->
  List.length (batchesFrom fuel i l)
  = ((List.length l - i + 99) / 100)%nat.
Proof.
  revert i; induction fuel as [|fuel IH]; intros i H.
  - replace (List.length l - i)%nat with 0%nat by lia. reflexivity.
  - rewrite batchesFrom_step.
    destruct (Nat.ltb_spec i (List.length l)) as [Hlt | Hge].
    + cbn [List.length]. rewrite IH by (unfold batchSize; lia).
      unfold batchSize.
      destruct (Nat.le_gt_cases (List.length l - i) 100) as [Hs | Hb].
      * replace (List.length l - (i + 100))%nat with 0%nat by lia.
        change ((0 + 99) / 100)%nat with 0%nat.
        apply Nat.div_unique with (r := (List.length l - i - 1)%nat); lia.
      * replace (List.length l - i + 99)%nat
          with (List.length l - (i + 100) + 99 + 1 * 100)%nat by lia.
        rewrite Nat.div_add by lia. lia.
    + replace (List.length l - i)%nat with 0%nat by lia. reflexivity.
Qed.

(** X25.  The slices the ingestion loop takes cover the list once and in
    order; each holds between one and a hundred elements, and there are
    as many as the length divided by a hundred, rounded up: the rounds
    the loop is given are enough to reach the end of the list. *)
Theorem batches_cover_the_documents {A : Type} (l : list A) :
  List.concat (batchesOf l) = l
  /\ Forall (fun b => (1 <= List.length b <= 100)%nat) (batchesOf l)
  /\ List.length (batchesOf l) = ((List.length l + 99) / 100)%nat.
Proof.
  unfold batchesOf. split; [|split].
  - rewrite batchesFrom_concat by lia. reflexivity.
  - apply batchesFrom_sizes.
  - rewrite batchesFrom_length by lia. now rewrite Nat.sub_0_r.
Qed.

End BatchFacts.

Module IngestionFacts.
Import JS JSFacts RAGService Views MoreViews Ingestion IngestViews BatchFacts
  ServiceMore.

Lemma firstn_add {A : Type} (a b : nat) (l : list A) :
  firstn (a + b) l = (firstn a l ++ firstn b (skipn a l))%list.
Proof.
  revert l; induction a as [|a IH]; intros l; [reflexivity|].
  destruct l as [|x l]; simpl.
  - now rewrite firstn_nil.
  - now rewrite IH.
Qed.

Section Facts.
Variable Vector : Type.
Variable Value : Type.
Variable textValue : string -> Value.
Variable env : Env.
Variable backends : Backends Vector.
Variable indexUpsert :
  string -> list (VectorRecord Vector Value) -> Outcome unit.
Variable now : nat -> Z.

Lemma createEmbedding_run (text : string) (w : World Vector) :
  createEmbedding Vector backends text w
  = (match embeddingsCreate backends "text-embedding-3-small" text with
     | Returns v => Returns v
     | Throws _ => Throws failedEmbedding
     end,
     {| service := service w;
        calls := push (calls w)
                   (EmbeddingsCreate "text-embedding-3-small" text) |}).
Proof.
  unfold createEmbedding, tryCatch, callBackend, throw.
  destruct (embeddingsCreate backends _ text); reflexivity.
Qed.

Lemma embedAll_run (batch : list (Document Value)) (w : World Vector) :
  embedAll Vector Value backends batch w
  = (map (embeddingOutcome Vector Value backends) batch,
     {| service := service w;
        calls := (calls w ++ map (embeddingCallOf Vector Value) batch)%list |}).
Proof.
  revert w; induction batch as [|doc rest IH]; intros w.
  - cbn [embedAll map]. now rewrite app_nil_r, world_eta.
  - cbn [embedAll]. rewrite createEmbedding_run, IH.
    cbn [service calls map]. unfold push, embeddingOutcome, embeddingCallOf.
    now rewrite <- app_assoc.
Qed.

Lemma allSettled_returns {A : Type} (vs : list A) :
  allSettled (map Returns vs) = Returns vs.
Proof. induction vs as [|v vs IH]; simpl; [reflexivity | now rewrite IH]. Qed.

Lemma allSettled_fails (batch : list (Document Value)) :
  forallb (embeds Vector Value backends) batch = false ->
  allSettled (map (embeddingOutcome Vector Value backends) batch)
  = Throws failedEmbedding.
Proof.
  induction batch as [|doc rest IH]; [discriminate|].
  cbn [forallb map allSettled]. unfold embeds at 1, embeddingOutcome at 1.
  destruct (embeddingsCreate backends _ (docText doc)); [|reflexivity].
  cbn [andb]. intros H. now rewrite (IH H).
Qed.

Lemma embeds_all (l : list (Document Value)) :
  forallb (embeds Vector Value backends) l = true ->
  exists vs, map (embeddingOutcome Vector Value backends) l = map Returns vs.
Proof.
  induction l as [|doc rest IH]; intros H.
  - now exists [].
  - cbn [forallb] in H. apply andb_true_iff in H as [Hd Hr].
    destruct (IH Hr) as [vs Hvs]. unfold embeds in Hd.
    destruct (embeddingsCreate backends "text-embedding-3-small" (docText doc))
      as [v|e] eqn:E; [|discriminate].
    exists (v :: vs). cbn [map]. rewrite Hvs. unfold embeddingOutcome.
    now rewrite E.
Qed.

Lemma ingestBatch_ok (name : string) (i : nat)
    (batch : list (Document Value)) (vs : list Vector)
    (iw : IngestWorld Vector Value) :
  map (embeddingOutcome Vector Value backends) batch = map Returns vs ->
  ingestBatch Vector Value textValue backends indexUpsert now name i batch iw
  = (indexUpsert name (makeRecords Vector Value textValue now i batch vs),
     {| base :=
          {| service := service (base iw);
             calls := (calls (base iw)
                       ++ map (embeddingCallOf Vector Value) batch)%list |};
        upserts :=
          push (upserts iw)
            (makeRecords Vector Value textValue now i batch vs) |}).
Proof.
  intros H. unfold ingestBatch.
  rewrite embedAll_run, H, allSettled_returns. reflexivity.
Qed.

Lemma ingestBatch_ko (name : string) (i : nat)
    (batch : list (Document Value)) (iw : IngestWorld Vector Value) :
  forallb (embeds Vector Value backends) batch = false ->
  ingestBatch Vector Value textValue backends indexUpsert now name i batch iw
  = (Throws failedEmbedding,
     {| base :=
          {| service := service (base iw);
             calls := (calls (base iw)
                       ++ map (embeddingCallOf Vector Value) batch)%list |};
        upserts := upserts iw |}).
Proof.
  intros H. unfold ingestBatch.
  rewrite embedAll_run, (allSettled_fails batch H). reflexivity.
Qed.

Lemma makeRecords_length (pos : nat) (docs : list (Document Value))
    (vs : list Vector) :
  List.length docs = List.length vs ->
  List.length (makeRecords Vector Value textValue now pos docs vs)
  = List.length docs.
Proof.
  revert pos vs; induction docs as [|d docs IH]; intros pos [|v vs] H;
    simpl in *; try discriminate; auto.
Qed.

Lemma makeRecords_skipn (k pos : nat) (docs : list (Document Value))
    (vs : list Vector) :
  skipn k (makeRecords Vector Value textValue now pos docs vs)
  = makeRecords Vector Value textValue now (pos + k)
      (skipn k docs) (skipn k vs).
Proof.
  revert pos docs vs; induction k as [|k IH]; intros pos docs vs.
  - now rewrite Nat.add_0_r.
  - destruct docs as [|d docs]; [reflexivity|].
    destruct vs as [|v vs]; simpl.
    + now destruct (skipn k docs).
    + rewrite IH. now rewrite Nat.add_succ_r.
Qed.

Lemma makeRecords_firstn (k pos : nat) (docs : list (Document Value))
    (vs : list Vector) :
  firstn k (makeRecords Vector Value textValue now pos docs vs)
  = makeRecords Vector Value textValue now pos (firstn k docs) (firstn k vs).
Proof.
  revert pos docs vs; induction k as [|k IH]; intros pos docs vs.
  - reflexivity.
  - destruct docs as [|d docs]; [reflexivity|].
    destruct vs as [|v vs]; simpl; [reflexivity|]. now rewrite IH.
Qed.

Lemma ingestLoop_step (fuel : nat) (name : string) (i : nat)
    (docs : list (Document Value)) (iw : IngestWorld Vector Value) :
  ingestLoop Vector Value textValue backends indexUpsert now (S fuel) name i
    docs iw
  = if (i <? List.length docs)%nat then
      match ingestBatch Vector Value textValue backends indexUpsert now name i
              (firstn batchSize (skipn i docs)) iw with
      | (Returns _, iw1) =>
          ingestLoop Vector Value textValue backends indexUpsert now fuel name
            (i + batchSize) docs iw1
      | (Throws e, iw1) => (Throws e, iw1)
      end
    else (Returns tt, iw).
Proof. reflexivity. Qed.

Lemma ingestLoop_ok (name : string) (docs : list (Document Value))
    (vs : list Vector) :
  map (embeddingOutcome Vector Value backends) docs = map Returns vs ->
  (forall nm records, indexUpsert nm records = Returns tt) ->
  forall fuel i (iw : IngestWorld Vector Value),
    (List.length docs - i <= fuel)%nat ->
    ingestLoop Vector Value textValue backends indexUpsert now fuel name i
      docs iw
    = (Returns tt,
       {| base :=
            {| service := service (base iw);
               calls := (calls (base iw)
                         ++ map (embeddingCallOf Vector Value)
                              (skipn i docs))%list |};
          upserts :=
            (upserts iw
             ++ batchesFrom fuel i
                  (makeRecords Vector Value textValue now 0 docs vs))%list |}).
Proof.
  intros Hvs Hup.
  assert (Hlen : List.length docs = List.length vs).
  { apply (f_equal (@List.length _)) in Hvs. now rewrite !length_map in Hvs. }
  induction fuel as [|fuel IH]; intros i iw Hfuel.
  - cbn [ingestLoop batchesFrom]. rewrite skipn_all2 by lia.
    cbn [map]. rewrite !app_nil_r.
    destruct iw as [[sv cs] us]; reflexivity.
  - rewrite ingestLoop_step, batchesFrom_step.
    rewrite (makeRecords_length 0 docs vs Hlen).
    destruct (Nat.ltb_spec i (List.length docs)) as [Hlt | Hge].
    + rewrite (ingestBatch_ok name i _ (firstn batchSize (skipn i vs)))
        by (rewrite <- !firstn_map, <- !skipn_map; now rewrite Hvs).
      rewrite Hup. rewrite IH by (unfold batchSize; lia).
      cbn [base service calls upserts]. unfold push.
      f_equal. f_equal.
      * f_equal. rewrite <- app_assoc. f_equal.
        rewrite <- map_app. f_equal.
        rewrite Nat.add_comm, <- skipn_skipn. apply firstn_skipn.
      * rewrite <- app_assoc. f_equal. cbn [app]. f_equal.
        rewrite makeRecords_skipn, makeRecords_firstn. reflexivity.
    + rewrite skipn_all2 by lia. cbn [map]. rewrite !app_nil_r.
      destruct iw as [[sv cs] us]; reflexivity.
Qed.

Lemma ingestLoop_ko (name : string) (docs : list (Document Value)) :
  (forall nm records, indexUpsert nm records = Returns tt) ->
  forall k fuel i (iw : IngestWorld Vector Value),
    (k < fuel)%nat ->
    (i + batchSize * k < List.length docs)%nat ->
    forallb (embeds Vector Value backends)
      (firstn (batchSize * k) (skipn i docs)) = true ->
    forallb (embeds Vector Value backends)
      (firstn batchSize (skipn (i + batchSize * k) docs)) = false ->
    exists added,
      List.length added = k
      /\ ingestLoop Vector Value textValue backends indexUpsert now fuel name
           i docs iw
         = (Throws failedEmbedding,
            {| base :=
                 {| service := service (base iw);
                    calls :=
                      (calls (base iw)
                       ++ map (embeddingCallOf Vector Value)
                            (firstn (batchSize * k + batchSize)
                               (skipn i docs)))%list |};
               upserts := (upserts iw ++ added)%list |}).
Proof.
  intros Hup. induction k as [|k IH]; intros fuel i iw Hfuel Hpos Hok Hko.
  - destruct fuel as [|fuel]; [lia|].
    rewrite ingestLoop_step.
    replace (i <? List.length docs)%nat with true
      by (symmetry; apply Nat.ltb_lt; lia).
    rewrite Nat.mul_0_r, Nat.add_0_r in Hko.
    rewrite (ingestBatch_ko name i _ iw Hko).
    exists []. split; [reflexivity|]. now rewrite app_nil_r.
  - destruct fuel as [|fuel]; [lia|].
    rewrite ingestLoop_step.
    replace (i <? List.length docs)%nat with true
      by (symmetry; apply Nat.ltb_lt; lia).
    replace (batchSize * S k)%nat with (batchSize + batchSize * k)%nat in *
      by lia.
    rewrite firstn_add, forallb_app in Hok.
    apply andb_true_iff in Hok as [Hfirst Hrest].
    destruct (embeds_all _ Hfirst) as [vs Hvs].
    rewrite (ingestBatch_ok name i _ vs iw Hvs), Hup.
    rewrite skipn_skipn in Hrest.
    destruct (IH fuel (i + batchSize)%nat
                {| base :=
                     {| service := service (base iw);
                        calls := (calls (base iw)
                                  ++ map (embeddingCallOf Vector Value)
                                       (firstn batchSize (skipn i docs)))%list |};
                   upserts :=
                     push (upserts iw)
                       (makeRecords Vector Value textValue now i
                          (firstn batchSize (skipn i docs)) vs) |})
      as [added [Hlen Hrun]].
    + lia.
    + lia.
    + now rewrite (Nat.add_comm i batchSize).
    + now rewrite <- Nat.add_assoc.
    + rewrite Hrun. cbn [base service calls upserts].
      exists (makeRecords Vector Value textValue now i
                (firstn batchSize (skipn i docs)) vs :: added).
      split; [simpl; now rewrite Hlen|].
      unfold push. f_equal. f_equal.
      * f_equal. rewrite <- app_assoc. f_equal.
        rewrite <- map_app. f_equal.
        replace (skipn (i + batchSize) docs)
          with (skipn batchSize (skipn i docs))
          by (rewrite skipn_skipn; f_equal; lia).
        rewrite <- firstn_add. f_equal; lia.
      * now rewrite <- app_assoc.
Qed.

Lemma embeddings_of_all (l : list (Document Value)) :
  forallb (embeds Vector Value backends) l = true ->
  map (embeddingOutcome Vector Value backends) l
  = map Returns (embeddingsOf Vector Value backends l).
Proof.
  induction l as [|doc rest IH]; intros H; [reflexivity|].
  cbn [forallb] in H. apply andb_true_iff in H as [Hd Hr].
  cbn [map embeddingsOf]. unfold embeds in Hd. unfold embeddingOutcome at 1.
  destruct (embeddingsCreate backends "text-embedding-3-small" (docText doc));
    [|discriminate].
  cbn [map]. now rewrite (IH Hr).
Qed.

Lemma embeddingsOf_length (l : list (Document Value)) :
  forallb (embeds Vector Value backends) l = true ->
  List.length (embeddingsOf Vector Value backends l) = List.length l.
Proof.
  intros H. apply embeddings_of_all in H.
  apply (f_equal (@List.length _)) in H. now rewrite !length_map in H.
Qed.

(** X26.  Without a vector client after initialisation, [ingestDocuments]
    throws its own error before anything else happens: no embedding is
    requested and nothing is upserted, whatever the documents. *)
Theorem ingest_without_client_is_refused
    (docs : list (Document Value)) (iw : IngestWorld Vector Value) :
  pinecone (initializedService Vector env backends (service (base iw)))
  = None ->
  ingestDocuments Vector Value textValue env backends indexUpsert now docs iw
  = (Throws notInitialized,
     {| base :=
          {| service :=
               initializedService Vector env backends (service (base iw));
             calls := calls (base iw) |};
        upserts := upserts iw |}).
Proof.
  intros H. unfold ingestDocuments. rewrite initialize_run.
  cbn [snd service]. now rewrite H.
Qed.

(** X27.  When every document embeds and every upsert is accepted,
    [ingestDocuments] returns; it has requested one embedding for each
    document, in order, and has upserted the records of all documents,
    in order, in batches of a hundred. *)
Theorem ingest_stores_every_document (key : string)
    (docs : list (Document Value)) (iw : IngestWorld Vector Value) :
  pinecone (initializedService Vector env backends (service (base iw)))
  = Some key ->
  forallb (embeds Vector Value backends) docs = true ->
  (forall nm records, indexUpsert nm records = Returns tt) ->
  let records :=
    makeRecords Vector Value textValue now 0 docs
      (embeddingsOf Vector Value backends docs) in
  let r :=
    ingestDocuments Vector Value textValue env backends indexUpsert now
      docs iw in
  fst r = Returns tt
  /\ calls (base (snd r))
     = (calls (base iw) ++ map (embeddingCallOf Vector Value) docs)%list
  /\ upserts (snd r) = (upserts iw ++ batchesOf records)%list
  /\ List.length records = List.length docs.
Proof.
  intros Hc Hok Hup records r. subst r. unfold ingestDocuments.
  rewrite initialize_run. cbn [snd service]. rewrite Hc.
  rewrite (ingestLoop_ok _ docs (embeddingsOf Vector Value backends docs)
             (embeddings_of_all docs Hok) Hup) by lia.
  cbn [fst snd base calls upserts service]. unfold batchesOf, records.
  rewrite makeRecords_length by (now rewrite embeddingsOf_length).
  repeat split.
Qed.

(** X28.  An embedding that fails in the batch of rank [k] makes
    [ingestDocuments] throw: the [k] batches before it have been
    upserted and stay so, every embedding of the failing batch has been
    requested, and no later document is touched. *)
Theorem embedding_failure_stops_ingestion (key : string) (k : nat)
    (docs : list (Document Value)) (iw : IngestWorld Vector Value) :
  pinecone (initializedService Vector env backends (service (base iw)))
  = Some key ->
  (forall nm records, indexUpsert nm records = Returns tt) ->
  (batchSize * k < List.length docs)%nat ->
  forallb (embeds Vector Value backends) (firstn (batchSize * k) docs)
  = true ->
  forallb (embeds Vector Value backends)
    (firstn batchSize (skipn (batchSize * k) docs)) = false ->
  let r :=
    ingestDocuments Vector Value textValue env backends indexUpsert now
      docs iw in
  fst r = Throws failedEmbedding
  /\ List.length (upserts (snd r)) = (List.length (upserts iw) + k)%nat
  /\ calls (base (snd r))
     = (calls (base iw)
        ++ map (embeddingCallOf Vector Value)
             (firstn (batchSize * k + batchSize) docs))%list.
Proof.
  intros Hc Hup Hpos Hok Hko r. subst r. unfold ingestDocuments.
  rewrite initialize_run. cbn [snd service]. rewrite Hc.
  destruct (ingestLoop_ko
              (indexName
                 (initializedService Vector env backends (service (base iw))))
              docs Hup k (List.length docs) 0%nat
              {| base :=
                   {| service :=
                        initializedService Vector env backends
                          (service (base iw));
                      calls := calls (base iw) |};
                 upserts := upserts iw |})
    as [added [Hlen Hrun]].
  - unfold batchSize in Hpos. lia.
  - exact Hpos.
  - exact Hok.
  - exact Hko.
  - rewrite Hrun. cbn [fst snd base calls upserts service].
    repeat split. rewrite length_app. now rewrite Hlen.
Qed.

Lemma getProperty_set_same (k : string) (v : Value) (o : Object Value) :
  getProperty Value k (setProperty Value k v o) = Some v.
Proof.
  induction o as [|[k' v'] r IH]; cbn [setProperty getProperty].
  - now rewrite String.eqb_refl.
  - destruct (String.eqb k k') eqn:E; cbn [getProperty].
    + now rewrite String.eqb_refl.
    + now rewrite E.
Qed.

Lemma getProperty_set_other (k k' : string) (v : Value) (o : Object Value) :
  String.eqb k k' = false ->
  getProperty Value k (setProperty Value k' v o) = getProperty Value k o.
Proof.
  intros H. induction o as [|[k2 v2] r IH]; cbn [setProperty getProperty].
  - now rewrite H.
  - destruct (String.eqb k' k2) eqn:E; cbn [getProperty].
    + apply String.eqb_eq in E. subst k2. now rewrite H.
    + now rewrite IH.
Qed.

Lemma getProperty_spread (k : string) (props o : Object Value) :
  getProperty Value k (spread Value o (Some props))
  = match lastProperty Value k props with
    | Some x => Some x
    | None => getProperty Value k o
    end.
Proof.
  unfold spread. revert o; induction props as [|[k' v'] r IH]; intros o.
  - reflexivity.
  - cbn [fold_left fst snd lastProperty]. rewrite IH.
    destruct (lastProperty Value k r); [reflexivity|].
    destruct (String.eqb k k') eqn:E.
    + apply String.eqb_eq in E. subst k'. apply getProperty_set_same.
    + now apply getProperty_set_other.
Qed.

(** X29.  The metadata of a stored record: every property of the metadata of
    the document, with its last value, and the text of the document
    under [text] unless the metadata has a property of that name, which
    then takes its place. *)
Theorem metadata_property_replaces_text (k : string) (pos : nat)
    (doc : Document Value) (v : Vector) :
  getProperty Value k
    (recordMetadata (makeRecord Vector Value textValue now pos doc v))
  = match metadataProperty Value k doc with
    | Some x => Some x
    | None =>
        if String.eqb k "text" then Some (textValue (docText doc)) else None
    end.
Proof.
  unfold makeRecord, metadataProperty. cbn [recordMetadata].
  destruct (docMetadata doc) as [props|].
  - rewrite getProperty_spread. reflexivity.
  - reflexivity.
Qed.

Lemma uint_digits (d : Decimal.uint) :
  allChars isDigit (NilEmpty.string_of_uint d) = true.
Proof. induction d; cbn [NilEmpty.string_of_uint allChars]; auto. Qed.

Lemma renderNumber_nat_digits (p : nat) :
  allChars isDigit (renderNumber (Z.of_nat p)) = true.
Proof.
  unfold renderNumber. destruct (Z.of_nat p) eqn:E; [reflexivity| |lia].
  cbn [Z.to_int NilZero.string_of_int]. unfold NilZero.string_of_uint.
  destruct (Pos.to_uint p0) eqn:U; try reflexivity; rewrite <- U;
    apply uint_digits.
Qed.

Lemma leadingDigits_app (d rest : string) :
  allChars isDigit d = true ->
  leadingDigits (d ++ String "-" rest) = d.
Proof.
  induction d as [|c d IH]; intros H; [reflexivity|].
  cbn [allChars] in H. apply andb_true_iff in H as [Hc Hd].
  cbn [String.append leadingDigits]. rewrite Hc. now rewrite (IH Hd).
Qed.

Lemma to_int_proper (z : Z) :
  Z.to_int z <> Decimal.Pos Decimal.Nil
  /\ Z.to_int z <> Decimal.Neg Decimal.Nil.
Proof.
  destruct z; cbn [Z.to_int]; split; try discriminate;
    intros H; injection H as H;
    now apply DecimalPos.Unsigned.to_uint_nonnil in H.
Qed.

Lemma renderNumber_inj (z1 z2 : Z) :
  renderNumber z1 = renderNumber z2 -> z1 = z2.
Proof.
  unfold renderNumber. intros H.
  apply (f_equal NilZero.int_of_string) in H.
  destruct (to_int_proper z1) as [P1 N1], (to_int_proper z2) as [P2 N2].
  rewrite !NilZero.isi in H by assumption.
  injection H as H. now apply DecimalZ.to_int_inj.
Qed.

Lemma record_id_position (p q : nat) (d d' : Document Value)
    (v v' : Vector) :
  Ingestion.id (makeRecord Vector Value textValue now p d v)
  = Ingestion.id (makeRecord Vector Value textValue now q d' v') ->
  p = q.
Proof.
  unfold makeRecord. cbn [Ingestion.id]. intros H.
  injection H as H.
  apply (f_equal leadingDigits) in H.
  rewrite !leadingDigits_app in H by apply renderNumber_nat_digits.
  apply renderNumber_inj in H. lia.
Qed.

Lemma record_ids_from (pos : nat) (docs : list (Document Value))
    (vs : list Vector) (r : VectorRecord Vector Value) :
  In r (makeRecords Vector Value textValue now pos docs vs) ->
  exists q d v,
    (pos <= q)%nat /\ r = makeRecord Vector Value textValue now q d v.
Proof.
  revert pos vs; induction docs as [|d docs IH]; intros pos [|v vs] H;
    cbn [makeRecords] in H; try contradiction.
  destruct H as [H | H].
  - exists pos, d, v. split; [lia | now symmetry].
  - destruct (IH _ _ H) as [q [d' [v' [Hq Hr]]]].
    exists q, d', v'. split; [lia | exact Hr].
Qed.

(** X30.  The records of one call of [ingestDocuments] carry pairwise
    different ids, whatever the clock says: the position of the
    document tells them apart. *)
Theorem record_ids_are_distinct (pos : nat) (docs : list (Document Value))
    (vs : list Vector) :
  NoDup (map Ingestion.id (makeRecords Vector Value textValue now pos docs vs)).
Proof.
  revert pos vs; induction docs as [|d docs IH]; intros pos vs.
  - destruct vs; constructor.
  - destruct vs as [|v vs]; [constructor|].
    cbn [makeRecords map]. constructor; [|apply IH].
    intros Hin. apply in_map_iff in Hin as [r [Hid Hr]].
    apply record_ids_from in Hr as [q [d' [v' [Hq ->]]]].
    apply record_id_position in Hid. lia.
Qed.

End Facts.

Import Samples MoreSamples.

Lemma ingest_without_client_is_refused_witness :
  ingestDocuments unit string (fun t => t) noKeys emptyIndex acceptAll
    fixedClock [ note "One."; retitled ] emptyStore
  = (Throws notInitialized,
     {| base :=
          {| service :=
               initializedService unit noKeys emptyIndex
                 (service (base emptyStore));
             calls := calls (base emptyStore) |};
        upserts := upserts emptyStore |}).
Proof.
  apply (ingest_without_client_is_refused unit string (fun t => t) noKeys
           emptyIndex acceptAll fixedClock [ note "One."; retitled ]
           emptyStore).
  reflexivity.
Defined.

Lemma ingest_stores_every_document_witness :
  fst (ingestDocuments unit string (fun t => t) bothKeys emptyIndex acceptAll
         fixedClock [ note "One."; retitled ] emptyStore)
  = Returns tt.
Proof.
  pose proof (ingest_stores_every_document unit string (fun t => t) bothKeys
                emptyIndex acceptAll fixedClock "pc-key"
                [ note "One."; retitled ] emptyStore) as H.
  apply H; reflexivity.
Defined.

Lemma embedding_failure_stops_ingestion_witness :
  fst (ingestDocuments unit string (fun t => t) bothKeys pickyEmbedding
         acceptAll fixedClock hundredAndBad emptyStore)
  = Throws failedEmbedding
  /\ List.length
       (upserts (snd (ingestDocuments unit string (fun t => t) bothKeys
                        pickyEmbedding acceptAll fixedClock hundredAndBad
                        emptyStore)))
     = (List.length (upserts emptyStore) + 1)%nat.
Proof.
  pose proof (embedding_failure_stops_ingestion unit string (fun t => t)
                bothKeys pickyEmbedding acceptAll fixedClock "pc-key" 1
                hundredAndBad emptyStore) as H.
  destruct H as [H1 [H2 _]].
  - reflexivity.
  - reflexivity.
  - vm_compute. lia.
  - vm_compute. reflexivity.
  - vm_compute. reflexivity.
  - split; assumption.
Defined.

End IngestionFacts.
